(** * TutUni: document ingestion and retrieval pipeline

    A shallow embedding of
      - [app/services/text_chunker.py]         (module [TextChunker]),
      - [app/services/document_processor.py]   (module [DocumentProcessor]),
      - [app/models/document.py]               (module [Model]),
      - [app/services/vector_service.py]       (module [VectorService]),
      - [app/services/ai_service.py]           (module [AIService]),
      - [app/core/database.py]                 (module [Database]),
      - [app/services/background_processor.py] (module [BackgroundProcessor]),
    followed by the properties established about them.

    The embedding model, the vector database, the language model, text
    extraction and the commits of the session are collaborators: records of
    functions that say what each call returns or raises.  A job is run in
    one piece; the interleaving of jobs at their [await]s is not modelled.

    Python [str] values are lists of code points.  The embedding covers the
    code points U+0000..U+00FF, one [ascii] each; on that range [\s] is
    9-13, 28-32, 0x85, 0xA0 and [\d] is 0-9, as in CPython's [re] and
    [str.strip].  Python [int]s are [Z]. *)

From Stdlib Require Import Ascii String ZArith QArith Qminmax Lia Lqa.
From stdpp Require Import base list gmap strings pretty.
Close Scope Q_scope.
Local Open Scope Z_scope.

(** ** Python strings *)

Module PyStr.

Definition str := list ascii.

Definition lit (s : string) : str := list_ascii_of_string s.

Definition len (s : str) : Z := Z.of_nat (length s).

Definition code (c : ascii) : N := N_of_ascii c.

Definition in_range (lo hi : N) (c : ascii) : bool :=
  ((lo <=? code c) && (code c <=? hi))%N.

Definition is_char (a c : ascii) : bool := Ascii.eqb a c.

(** [\s] and [str.isspace] *)
Definition is_space (c : ascii) : bool :=
  in_range 9 13 c || in_range 28 32 c || (code c =? 133)%N || (code c =? 160)%N.

(** [\d] *)
Definition is_digit (c : ascii) : bool := in_range 48 57 c.

(** [[A-Z]] and [[a-z]] *)
Definition is_upper (c : ascii) : bool := in_range 65 90 c.
Definition is_lower (c : ascii) : bool := in_range 97 122 c.

Definition is_newline (c : ascii) : bool := (code c =? 10)%N.

(** [[.!?]] *)
Definition is_terminator (c : ascii) : bool :=
  is_char "." c || is_char "!" c || is_char "?" c.

(** truth value of a [str] *)
Definition truthy (s : str) : bool :=
  match s with [] => false | _ :: _ => true end.

Fixpoint lstrip (s : str) : str :=
  match s with
  | [] => []
  | c :: rest => if is_space c then lstrip rest else s
  end.

Definition rstrip (s : str) : str := rev (lstrip (rev s)).

(** [s.strip()] *)
Definition strip (s : str) : str := lstrip (rstrip s).

(** [s.lower()] on the letters A-Z and the Latin-1 capitals *)
Definition lower_char (c : ascii) : ascii :=
  if is_upper c || (in_range 192 222 c && negb (code c =? 215)%N)
  then ascii_of_N (code c + 32) else c.

Definition lower (s : str) : str := map lower_char s.

(** [len(s.split())]: the number of maximal runs of non-whitespace *)
Fixpoint count_words (in_word : bool) (s : str) : nat :=
  match s with
  | [] => 0%nat
  | c :: rest =>
      if is_space c then count_words false rest
      else if in_word then count_words true rest
           else S (count_words true rest)
  end.

Definition word_count (s : str) : Z := Z.of_nat (count_words false s).

(** slice bound [k] of a sequence of length [n], as [PySlice_AdjustIndices] *)
Definition clip (n k : Z) : nat :=
  Z.to_nat (if k <? 0 then Z.max (k + n) 0 else Z.min k n).

(** [s[start:]] *)
Definition slice_from (s : str) (start : Z) : str := drop (clip (len s) start) s.

(** [s[:stop]] *)
Definition slice_to (s : str) (stop : Z) : str := take (clip (len s) stop) s.

(** [s * n] *)
Definition times (s : str) (n : nat) : str := concat (replicate n s).

End PyStr.

(** ** The regular expressions of the chunker *)

Module Re.
Import PyStr.

(** *** Substitution, splitting and search

    One scanner per call site; each walks the text once, left to right,
    and takes at every position the match that [re] takes there (all the
    patterns below are greedy runs, so the first match is the longest). *)

(** [re.sub(r'\s+', ' ', text)] *)
Fixpoint sub_whitespace (in_run : bool) (text : str) : str :=
  match text with
  | [] => []
  | c :: rest =>
      if is_space c
      then if in_run then sub_whitespace true rest
           else " "%char :: sub_whitespace true rest
      else c :: sub_whitespace false rest
  end.

(** [\s*\n] right after a newline: the number of characters taken.  [\s*]
    first takes the whole run of whitespace and gives characters back until
    a newline follows, so the match ends with the last newline of the run. *)
Fixpoint blank_tail (text : str) : option nat :=
  match text with
  | [] => None
  | c :: rest =>
      if is_space c
      then match blank_tail rest with
           | Some n => Some (S n)
           | None => if is_newline c then Some 1%nat else None
           end
      else None
  end.

(** [re.sub(r'\n\s*\n', '\n\n', text)]; [skip] characters of a match are
    still to be dropped *)
Fixpoint sub_blank_lines (skip : nat) (text : str) : str :=
  match text with
  | [] => []
  | c :: rest =>
      match skip with
      | S k => sub_blank_lines k rest
      | O =>
          if is_newline c
          then match blank_tail rest with
               | Some n => c :: c :: sub_blank_lines n rest
               | None => c :: sub_blank_lines 0 rest
               end
          else c :: sub_blank_lines 0 rest
      end
  end.

(** put a character in front of the first piece *)
Definition push (c : ascii) (pieces : list str) : list str :=
  match pieces with
  | [] => [[c]]
  | p :: ps => (c :: p) :: ps
  end.

(** [re.split(r'\n\s*\n', text)] *)
Fixpoint split_blank_lines (skip : nat) (text : str) : list str :=
  match text with
  | [] => [[]]
  | c :: rest =>
      match skip with
      | S k => split_blank_lines k rest
      | O =>
          if is_newline c
          then match blank_tail rest with
               | Some n => [] :: split_blank_lines n rest
               | None => push c (split_blank_lines 0 rest)
               end
          else push c (split_blank_lines 0 rest)
      end
  end.

(** [\s*$] under [re.MULTILINE]: [$] holds at the end of the text and in
    front of a newline *)
Fixpoint space_to_eol (text : str) : option nat :=
  match text with
  | [] => Some 0%nat
  | c :: rest =>
      if is_space c
      then match space_to_eol rest with
           | Some n => Some (S n)
           | None => if is_newline c then Some 0%nat else None
           end
      else None
  end.

(** [\d+\s*$] at the head of [text]: the number of characters matched *)
Fixpoint page_number (seen_digit : bool) (text : str) : option nat :=
  match text with
  | [] => if seen_digit then Some 0%nat else None
  | c :: rest =>
      if is_digit c then S <$> page_number true rest
      else if seen_digit then space_to_eol text else None
  end.

(** [re.sub(r'^\d+\s*$', '', text, flags=re.MULTILINE)]; [bol] says that
    the position is the start of the text or follows a newline *)
Fixpoint sub_page_numbers (skip : nat) (bol : bool) (text : str) : str :=
  match text with
  | [] => []
  | c :: rest =>
      match skip with
      | S k => sub_page_numbers k (is_newline c) rest
      | O =>
          match (if bol then page_number false text else None) with
          | Some (S n) => sub_page_numbers n (is_newline c) rest
          | _ => c :: sub_page_numbers 0 (is_newline c) rest
          end
      end
  end.

(** [re.sub(r'[.]{3,}', '...', text)]: [dots] full stops of the current run
    have been read; the fourth and later ones are dropped *)
Fixpoint sub_dots (dots : nat) (text : str) : str :=
  match text with
  | [] => []
  | c :: rest =>
      if is_char "." c
      then if (dots <? 3)%nat then c :: sub_dots (S dots) rest
           else sub_dots (S dots) rest
      else c :: sub_dots 0 rest
  end.

(** length of the run of whitespace at the head of [text] *)
Fixpoint space_run (text : str) : nat :=
  match text with
  | [] => 0%nat
  | c :: rest => if is_space c then S (space_run rest) else 0%nat
  end.

(** [[.!?]+\s+] at the head of [text]: the number of characters matched *)
Fixpoint sentence_break (text : str) : option nat :=
  match text with
  | [] => None
  | c :: rest =>
      if is_terminator c
      then match sentence_break rest with
           | Some n => Some (S n)
           | None => match space_run rest with
                     | O => None
                     | S m => Some (S (S m))
                     end
           end
      else None
  end.

(** [re.split(r'[.!?]+\s+', text)] *)
Fixpoint split_sentence_breaks (skip : nat) (text : str) : list str :=
  match text with
  | [] => [[]]
  | c :: rest =>
      match skip with
      | S k => split_sentence_breaks k rest
      | O =>
          match sentence_break text with
          | Some (S n) => [] :: split_sentence_breaks n rest
          | _ => push c (split_sentence_breaks 0 rest)
          end
      end
  end.

(** [m = re.search(r'[.!?]\s+', text)] followed by [text[m.end():]] *)
Fixpoint after_boundary (text : str) : option str :=
  match text with
  | [] => None
  | c :: rest =>
      if is_terminator c && (0 <? space_run rest)%nat
      then Some (drop (space_run rest) rest)
      else after_boundary rest
  end.

(** *** Patterns used with [re.match]

    Only the truth value of the match is used, so a pattern is run by
    derivatives: [matches r text] holds when some prefix of [text] is in
    the language of [r]. *)

Inductive regex : Type :=
| Never
| Empty
| Class (p : ascii -> bool)
| Seq (r1 r2 : regex)
| Alt (r1 r2 : regex)
| Star (r : regex)
| Eol.                       (* [$] without MULTILINE *)

Definition seq (r1 r2 : regex) : regex :=
  match r1 with
  | Never => Never
  | Empty => r2
  | _ => Seq r1 r2
  end.

Definition alt (r1 r2 : regex) : regex :=
  match r1, r2 with
  | Never, _ => r2
  | _, Never => r1
  | _, _ => Alt r1 r2
  end.

Definition plus (r : regex) : regex := Seq r (Star r).

Fixpoint word (s : str) : regex :=
  match s with
  | [] => Empty
  | c :: rest => Seq (Class (is_char c)) (word rest)
  end.

Fixpoint seqs (rs : list regex) : regex :=
  match rs with
  | [] => Empty
  | [r] => r
  | r :: rest => Seq r (seqs rest)
  end.

Fixpoint alts (rs : list regex) : regex :=
  match rs with
  | [] => Never
  | [r] => r
  | r :: rest => Alt r (alts rest)
  end.

(** can [r] match the empty string in front of [rest]? *)
Fixpoint nullable (rest : str) (r : regex) : bool :=
  match r with
  | Never => false
  | Empty => true
  | Class _ => false
  | Seq r1 r2 => nullable rest r1 && nullable rest r2
  | Alt r1 r2 => nullable rest r1 || nullable rest r2
  | Star _ => true
  | Eol => match rest with
           | [] => true
           | [c] => is_newline c
           | _ => false
           end
  end.

(** what is left of [r] after reading [c], the head of [here] *)
Fixpoint deriv (here : str) (c : ascii) (r : regex) : regex :=
  match r with
  | Never | Empty | Eol => Never
  | Class p => if p c then Empty else Never
  | Seq r1 r2 =>
      alt (seq (deriv here c r1) r2)
          (if nullable here r1 then deriv here c r2 else Never)
  | Alt r1 r2 => alt (deriv here c r1) (deriv here c r2)
  | Star r1 => seq (deriv here c r1) (Star r1)
  end.

(** [bool(re.match(r, text))] *)
Fixpoint matches (r : regex) (text : str) : bool :=
  nullable text r ||
  match text with
  | [] => false
  | c :: rest => matches (deriv text c r) rest
  end.

Definition space : regex := Class is_space.
Definition digit : regex := Class is_digit.
Definition upper : regex := Class is_upper.
Definition lower : regex := Class is_lower.
Definition chr (c : ascii) : regex := Class (is_char c).
(** [.] without DOTALL *)
Definition dot : regex := Class (fun c => negb (is_newline c)).

End Re.

(** ** Exceptions and results *)

Module Py.

Inductive exn_class : Set :=
| TypeError | ValueError | NameError | IndexError | ValidationError
| RuntimeError          (* a plain [Exception] and its other subclasses *)
| CancelledError.       (* a [BaseException] that is not an [Exception] *)

Record exn : Set := mkExn { exn_class_of : exn_class; exn_msg : string }.

(** does [except Exception] catch it? *)
Definition is_Exception (e : exn) : bool :=
  match exn_class_of e with
  | CancelledError => false
  | _ => true
  end.

Inductive outcome (A : Type) : Type :=
| Return (a : A)
| Raise (e : exn).
Arguments Return {A} a.
Arguments Raise {A} e.

Definition bind {A B} (m : outcome A) (k : A -> outcome B) : outcome B :=
  match m with
  | Return a => k a
  | Raise e => Raise e
  end.

(** [try: m  except Exception as e: handler e] *)
Definition try_except {A} (m : outcome A) (handler : exn -> outcome A) : outcome A :=
  match m with
  | Return a => Return a
  | Raise e => if is_Exception e then handler e else Raise e
  end.

(** a value that reached a parameter annotated [str] *)
Inductive pyobj : Type :=
| PStr (s : PyStr.str)
| PNone.

(** [re.sub] and [re.split] refuse a subject that is not a [str] *)
Definition re_subject (o : pyobj) : outcome PyStr.str :=
  match o with
  | PStr s => Return s
  | PNone => Raise (mkExn TypeError "expected string or bytes-like object")
  end.

(** metadata values *)
Inductive value : Type :=
| VInt (z : Z)
| VStr (s : PyStr.str).

(** a [dict] with [str] keys, in insertion order *)
Definition Dict : Type := list (string * value).

Fixpoint dict_get (k : string) (d : Dict) : option value :=
  match d with
  | [] => None
  | (k', v) :: rest => if String.eqb k k' then Some v else dict_get k rest
  end.

Fixpoint dict_set (k : string) (v : value) (d : Dict) : Dict :=
  match d with
  | [] => [(k, v)]
  | (k', v') :: rest =>
      if String.eqb k k' then (k, v) :: rest else (k', v') :: dict_set k v rest
  end.

(** [d.update(items)] *)
Definition dict_update (d items : Dict) : Dict :=
  fold_left (fun acc kv => dict_set kv.1 kv.2 acc) items d.

End Py.

Notation "'do' x <- m ; k" := (Py.bind m (fun x => k))
(at level 10, x name, m at level 100, k at level 200, only parsing).

(** ** text_chunker.py *)

Module TextChunker.
Import PyStr Py.

Inductive ChunkType : Set := TITLE | PARAGRAPH | LIST_ITEM | QUOTE | FOOTNOTE.

Definition ChunkType_value (t : ChunkType) : str :=
  match t with
  | TITLE => lit "title"
  | PARAGRAPH => lit "paragraph"
  | LIST_ITEM => lit "list_item"
  | QUOTE => lit "quote"
  | FOOTNOTE => lit "footnote"
  end.

Record TextChunk : Type := mkTextChunk {
  text : str;
  chunk_type : ChunkType;
  start_pos : Z;
  end_pos : Z;
  metadata : Dict
}.

(** [TextChunk(...)], with [__post_init__] *)
Definition new_TextChunk (t : str) (ct : ChunkType) (sp ep : Z) (md : Dict) : TextChunk :=
  mkTextChunk t ct sp ep
    (dict_update md [("word_count"%string, VInt (word_count t));
                     ("char_count"%string, VInt (len t));
                     ("chunk_type"%string, VStr (ChunkType_value ct))]).

Record TextChunker : Set := mkTextChunker {
  chunk_size : Z;
  overlap_size : Z;
  min_chunk_size : Z;
  max_chunk_size : Z
}.

(** the singleton [text_chunker = TextChunker()] *)
Definition text_chunker : TextChunker := mkTextChunker 1000 200 100 2000.

Definition title_patterns : list Re.regex :=
  [ (* ^[A-Z][A-Z\s]+$ *)
    Re.seqs [Re.upper; Re.plus (Re.Alt Re.upper Re.space); Re.Eol];
    (* ^\d+\.\s+[A-Z] *)
    Re.seqs [Re.plus Re.digit; Re.chr "."; Re.plus Re.space; Re.upper];
    (* ^[A-Z][a-z]+(?:\s+[A-Z][a-z]+)*$ *)
    Re.seqs [Re.upper; Re.plus Re.lower;
             Re.Star (Re.seqs [Re.plus Re.space; Re.upper; Re.plus Re.lower]);
             Re.Eol];
    (* ^(?:Capitolo|Sezione|Parte)\s+\d+ *)
    Re.seqs [Re.alts [Re.word (lit "Capitolo"); Re.word (lit "Sezione");
                      Re.word (lit "Parte")];
             Re.plus Re.space; Re.plus Re.digit];
    (* ^(?:Chapter|Section|Part)\s+\d+ *)
    Re.seqs [Re.alts [Re.word (lit "Chapter"); Re.word (lit "Section");
                      Re.word (lit "Part")];
             Re.plus Re.space; Re.plus Re.digit] ].

Definition list_patterns : list Re.regex :=
  [ (* ^\s*[-•*]\s+ ; the bullet U+2022 lies outside the modelled code points *)
    Re.seqs [Re.Star Re.space; Re.Alt (Re.chr "-") (Re.chr "*"); Re.plus Re.space];
    (* ^\s*\d+\.\s+ *)
    Re.seqs [Re.Star Re.space; Re.plus Re.digit; Re.chr "."; Re.plus Re.space];
    (* ^\s*[a-z]\)\s+ *)
    Re.seqs [Re.Star Re.space; Re.lower; Re.chr ")"; Re.plus Re.space];
    (* ^\s*[IVX]+\.\s+ *)
    Re.seqs [Re.Star Re.space;
             Re.plus (Re.alts [Re.chr "I"; Re.chr "V"; Re.chr "X"]);
             Re.chr "."; Re.plus Re.space] ].

Definition quote_patterns : list Re.regex :=
  [ (* ^".*"$ *)
    Re.seqs [Re.chr (ascii_of_N 34); Re.Star Re.dot; Re.chr (ascii_of_N 34); Re.Eol];
    (* ^«.*»$ *)
    Re.seqs [Re.chr (ascii_of_N 171); Re.Star Re.dot; Re.chr (ascii_of_N 187); Re.Eol];
    (* ^".*"$ *)
    Re.seqs [Re.chr (ascii_of_N 34); Re.Star Re.dot; Re.chr (ascii_of_N 34); Re.Eol] ].

Definition footnote_patterns : list Re.regex :=
  [ (* ^\d+\s+ *)
    Re.seqs [Re.plus Re.digit; Re.plus Re.space];
    (* ^\*\s+ *)
    Re.seqs [Re.chr "*"; Re.plus Re.space] ].

Definition _preprocess_text (t : str) : str :=
  let t := Re.sub_whitespace false t in
  let t := Re.sub_blank_lines 0 t in
  let t := Re.sub_page_numbers 0 true t in
  let t := Re.sub_dots 0 t in
  strip t.

(** the loop of [_split_into_paragraphs] *)
Fixpoint clean_paragraphs (paragraphs : list str) : list str :=
  match paragraphs with
  | [] => []
  | para :: rest =>
      let para := strip para in
      if truthy para && (20 <? len para)
      then para :: clean_paragraphs rest
      else clean_paragraphs rest
  end.

Definition _split_into_paragraphs (t : str) : list str :=
  clean_paragraphs (Re.split_blank_lines 0 t).

Definition any_match (patterns : list Re.regex) (t : str) : bool :=
  existsb (fun pattern => Re.matches pattern t) patterns.

Definition _detect_chunk_type (t : str) : ChunkType :=
  if any_match title_patterns (strip t) then TITLE
  else if any_match list_patterns (strip t) then LIST_ITEM
  else if any_match quote_patterns (strip t) then QUOTE
  else if any_match footnote_patterns (strip t) then FOOTNOTE
  else PARAGRAPH.

(** the loop of [_split_into_sentences] *)
Fixpoint clean_sentences (sentences : list str) : list str :=
  match sentences with
  | [] => []
  | sentence :: rest =>
      let sentence := strip sentence in
      if truthy sentence && (10 <? len sentence)
      then sentence :: clean_sentences rest
      else clean_sentences rest
  end.

Definition _split_into_sentences (t : str) : list str :=
  clean_sentences (Re.split_sentence_breaks 0 t).

Definition chunk_metadata (document_id : Z) (filename : str) (chunks : list TextChunk) : Dict :=
  [("document_id"%string, VInt document_id);
   ("filename"%string, VStr filename);
   ("paragraph_index"%string, VInt (Z.of_nat (length chunks)))].

(** the sentence loop of [_create_chunks_from_paragraph]; the state is
    [(chunks, current_chunk, current_start)] *)
Fixpoint accumulate (self : TextChunker) (ct : ChunkType) (document_id : Z)
    (filename : str) (sentences : list str)
    (chunks : list TextChunk) (current_chunk : str) (current_start : Z)
    : list TextChunk * str * Z :=
  match sentences with
  | [] => (chunks, current_chunk, current_start)
  | sentence :: rest =>
      if (chunk_size self <? len current_chunk + len sentence) && truthy current_chunk
      then
        let chunk :=
          new_TextChunk (strip current_chunk) ct current_start
            (current_start + len current_chunk)
            (chunk_metadata document_id filename chunks) in
        accumulate self ct document_id filename rest
          (chunks ++ [chunk]) sentence (current_start + len (text chunk))
      else
        accumulate self ct document_id filename rest chunks
          (if truthy current_chunk
           then current_chunk ++ " "%char :: sentence
           else current_chunk ++ sentence)
          current_start
  end.

Definition _create_chunks_from_paragraph (self : TextChunker) (paragraph : str)
    (start : Z) (ct : ChunkType) (document_id : Z) (filename : str)
    : list TextChunk :=
  if len paragraph <=? chunk_size self
  then [new_TextChunk paragraph ct start (start + len paragraph)
          (chunk_metadata document_id filename [])]
  else
    let sentences := _split_into_sentences paragraph in
    let '(chunks, current_chunk, current_start) :=
      accumulate self ct document_id filename sentences [] [] start in
    if truthy current_chunk && (min_chunk_size self <=? len (strip current_chunk))
    then chunks ++
         [new_TextChunk (strip current_chunk) ct current_start
            (current_start + len current_chunk)
            (chunk_metadata document_id filename chunks)]
    else chunks.

Definition _get_overlap_text (t : str) (size : Z) : str :=
  if len t <=? size then t
  else
    let overlap_text := slice_from t (- size) in
    match Re.after_boundary overlap_text with
    | Some rest => rest
    | None => overlap_text
    end.

Definition _apply_overlap (self : TextChunker) (chunks : list TextChunk)
    : list TextChunk :=
  if (length chunks <=? 1)%nat then chunks
  else
    imap (fun i chunk =>
            match i with
            | O => chunk
            | S j =>
                match chunks !! j with
                | None => chunk
                | Some prev_chunk =>
                    let overlap_text :=
                      _get_overlap_text (text prev_chunk) (overlap_size self) in
                    if truthy overlap_text
                    then new_TextChunk (overlap_text ++ " "%char :: text chunk)
                           (chunk_type chunk) (start_pos chunk) (end_pos chunk)
                           (metadata chunk)
                    else chunk
                end
            end) chunks.

(** one turn of the loop of [_validate_and_cleanup_chunks]: [None] for a
    chunk that is skipped *)
Definition cleanup (self : TextChunker) (chunk : TextChunk) : option TextChunk :=
  if len (strip (text chunk)) <? min_chunk_size self then None
  else
    let t := if max_chunk_size self <? len (text chunk)
             then slice_to (text chunk) (max_chunk_size self)
             else text chunk in
    let t := strip t in
    Some (mkTextChunk t (chunk_type chunk) (start_pos chunk) (end_pos chunk)
            (dict_update (metadata chunk)
               [("final_word_count"%string, VInt (word_count t));
                ("final_char_count"%string, VInt (len t))])).

Definition _validate_and_cleanup_chunks (self : TextChunker)
    (chunks : list TextChunk) : list TextChunk :=
  omap (cleanup self) chunks.

(** the paragraph loop of [chunk_text]; the state is
    [(chunks, current_position)] *)
Fixpoint chunk_paragraphs (self : TextChunker) (document_id : Z) (filename : str)
    (paragraphs : list str) (chunks : list TextChunk) (current_position : Z)
    : list TextChunk :=
  match paragraphs with
  | [] => chunks
  | paragraph :: rest =>
      if len (strip paragraph) <? min_chunk_size self
      then chunk_paragraphs self document_id filename rest chunks current_position
      else
        let ct := _detect_chunk_type paragraph in
        let para_chunks :=
          _create_chunks_from_paragraph self paragraph current_position ct
            document_id filename in
        chunk_paragraphs self document_id filename rest
          (chunks ++ para_chunks) (current_position + len paragraph)
  end.

(** the chunks of [chunk_text] as they stand before overlap is applied *)
Definition segment (self : TextChunker) (t : str) (document_id : Z) (filename : str)
    : list TextChunk :=
  chunk_paragraphs self document_id filename
    (_split_into_paragraphs (_preprocess_text t)) [] 0.

(** the [try] block of [chunk_text] *)
Definition chunk_text_try (self : TextChunker) (t : pyobj) (document_id : Z)
    (filename : str) : outcome (list TextChunk) :=
  do s <- re_subject t;
  let chunks := segment self s document_id filename in
  let chunks := _apply_overlap self chunks in
  let chunks := _validate_and_cleanup_chunks self chunks in
  Return chunks.

Definition chunk_text (self : TextChunker) (t : pyobj) (document_id : Z)
    (filename : str) : outcome (list TextChunk) :=
  try_except (chunk_text_try self t document_id filename)
             (fun _ => Return []).

(** the text of the example scenario: ["Introduzione. " * 5 + "A" * 1500] *)
Definition scenario_text : str :=
  times (lit "Introduzione. ") 5 ++ times (lit "A") 1500.


#[global] Instance ChunkType_eq_dec : EqDecision ChunkType.
Proof. solve_decision. Defined.

(** what [get_chunk_metadata] returns for a list that is not empty; the
    averages are quotients of integers, and [chunk_types] is keyed by the
    member of the enumeration whose value the source uses, in the order of
    first occurrence *)
Record ChunkStats : Type := mkChunkStats {
  total_chunks : Z;
  avg_word_count : Q;
  avg_char_count : Q;
  min_word_count : Z;
  max_word_count : Z;
  chunk_types : list (ChunkType * Z)
}.

(** [chunk.metadata.get(key, 0)] as an operand of [sum] *)
Definition count_of (key : string) (chunk : TextChunk) : outcome Z :=
  match dict_get key (metadata chunk) with
  | None => Return 0
  | Some (VInt z) => Return z
  | Some (VStr _) =>
      Raise (mkExn TypeError "unsupported operand type(s) for +: 'int' and 'str'")
  end.

Fixpoint counts_of (key : string) (chunks : list TextChunk) : outcome (list Z) :=
  match chunks with
  | [] => Return []
  | chunk :: rest =>
      do z <- count_of key chunk;
      do zs <- counts_of key rest;
      Return (z :: zs)
  end.

(** [chunk_types[t] = chunk_types.get(t, 0) + 1] *)
Fixpoint bump (t : ChunkType) (types : list (ChunkType * Z)) : list (ChunkType * Z) :=
  match types with
  | [] => [(t, 0 + 1)]
  | (t', n) :: rest =>
      if decide (t = t') then (t', n + 1) :: rest else (t', n) :: bump t rest
  end.

Definition count_types (chunks : list TextChunk) : list (ChunkType * Z) :=
  fold_left (fun types chunk => bump (chunk_type chunk) types) chunks [].

(** [sum(counts) / len(counts)] *)
Definition mean (counts : list Z) : Q :=
  (inject_Z (fold_left Z.add counts 0%Z) / inject_Z (Z.of_nat (length counts)))%Q.

(** [min(counts)] and [max(counts)] of a list that is not empty *)
Definition minimum (counts : list Z) : Z :=
  match counts with
  | [] => 0
  | z :: rest => fold_left Z.min rest z
  end.

Definition maximum (counts : list Z) : Z :=
  match counts with
  | [] => 0
  | z :: rest => fold_left Z.max rest z
  end.

(** [None] stands for the empty dict *)
Definition get_chunk_metadata (chunks : list TextChunk) : outcome (option ChunkStats) :=
  match chunks with
  | [] => Return None
  | _ =>
      do word_counts <- counts_of "word_count" chunks;
      do char_counts <- counts_of "char_count" chunks;
      Return (Some (mkChunkStats (Z.of_nat (length chunks)) (mean word_counts) (mean char_counts)
                      (minimum word_counts) (maximum word_counts)
                      (count_types chunks)))
  end.

End TextChunker.


(** ** document_processor.py *)

Module DocumentProcessor.
Import PyStr.

(** [text.split('\n')] *)
Fixpoint split_lines (text : str) : list str :=
  match text with
  | [] => [[]]
  | c :: rest =>
      if is_newline c then [] :: split_lines rest
      else Re.push c (split_lines rest)
  end.

(** the loop of [clean_text] *)
Fixpoint clean_lines (lines : list str) : list str :=
  match lines with
  | [] => []
  | line :: rest =>
      let line := strip line in
      if truthy line then line :: clean_lines rest else clean_lines rest
  end.

(** ['\n'.join(lines)] *)
Fixpoint join_lines (lines : list str) : str :=
  match lines with
  | [] => []
  | [line] => line
  | line :: rest => line ++ ascii_of_N 10 :: join_lines rest
  end.

(** ['\n\n\n' in text] *)
Fixpoint has_three_newlines (text : str) : bool :=
  match text with
  | a :: rest =>
      match rest with
      | b :: c :: _ =>
          (is_newline a && is_newline b && is_newline c) || has_three_newlines rest
      | _ => false
      end
  | [] => false
  end.

(** [text.replace('\n\n\n', '\n\n')]; [skip] characters of an occurrence are
    still to be dropped *)
Fixpoint replace_three_newlines (skip : nat) (text : str) : str :=
  match text with
  | [] => []
  | a :: rest =>
      match skip with
      | S k => replace_three_newlines k rest
      | O =>
          match rest with
          | b :: c :: _ =>
              if is_newline a && is_newline b && is_newline c
              then a :: b :: replace_three_newlines 2 rest
              else a :: replace_three_newlines 0 rest
          | _ => a :: replace_three_newlines 0 rest
          end
      end
  end.

(** [while '\n\n\n' in text: text = text.replace('\n\n\n', '\n\n')]; a turn
    of the loop shortens the text, so that [length text] turns are enough *)
Fixpoint squeeze (turns : nat) (text : str) : str :=
  match turns with
  | O => text
  | S n =>
      if has_three_newlines text
      then squeeze n (replace_three_newlines 0 text)
      else text
  end.

Definition clean_text (text : str) : str :=
  let cleaned_text := join_lines (clean_lines (split_lines text)) in
  squeeze (length cleaned_text) cleaned_text.

End DocumentProcessor.


(** ** models/document.py *)

Module Model.
Import PyStr Py.

Inductive DocumentStatus : Set :=
| UPLOADING | UPLOADED | PROCESSING | PROCESSED | ANALYZED | ERROR.

#[global] Instance DocumentStatus_eq_dec : EqDecision DocumentStatus.
Proof. solve_decision. Defined.

(** [func.now()] is evaluated by the database, [datetime.now()] by the
    interpreter *)
Inductive timestamp : Set :=
| SqlNow
| At (t : Z).

Record Document : Type := mkDocument {
  id : Z;
  filename : str;
  original_filename : str;
  file_path : str;
  file_type : str;
  extracted_text : option str;
  page_count : option Z;
  status : DocumentStatus;
  is_analyzed : bool;
  analysis_result : option Dict;
  central_thesis : option value;
  key_concepts : option value;
  argumentative_structure : option value;
  cited_sources : option value;
  error_message : option string;
  analyzed_at : option timestamp;
  project_id : Z
}.

(** attribute assignments *)
Definition set_extracted_text (v : option str) (d : Document) : Document :=
  mkDocument (id d) (filename d) (original_filename d) (file_path d) (file_type d)
    v (page_count d) (status d) (is_analyzed d) (analysis_result d)
    (central_thesis d) (key_concepts d) (argumentative_structure d) (cited_sources d)
    (error_message d) (analyzed_at d) (project_id d).

Definition set_page_count (v : option Z) (d : Document) : Document :=
  mkDocument (id d) (filename d) (original_filename d) (file_path d) (file_type d)
    (extracted_text d) v (status d) (is_analyzed d) (analysis_result d)
    (central_thesis d) (key_concepts d) (argumentative_structure d) (cited_sources d)
    (error_message d) (analyzed_at d) (project_id d).

Definition set_status (v : DocumentStatus) (d : Document) : Document :=
  mkDocument (id d) (filename d) (original_filename d) (file_path d) (file_type d)
    (extracted_text d) (page_count d) v (is_analyzed d) (analysis_result d)
    (central_thesis d) (key_concepts d) (argumentative_structure d) (cited_sources d)
    (error_message d) (analyzed_at d) (project_id d).

Definition set_is_analyzed (v : bool) (d : Document) : Document :=
  mkDocument (id d) (filename d) (original_filename d) (file_path d) (file_type d)
    (extracted_text d) (page_count d) (status d) v (analysis_result d)
    (central_thesis d) (key_concepts d) (argumentative_structure d) (cited_sources d)
    (error_message d) (analyzed_at d) (project_id d).

Definition set_analysis_result (v : option Dict) (d : Document) : Document :=
  mkDocument (id d) (filename d) (original_filename d) (file_path d) (file_type d)
    (extracted_text d) (page_count d) (status d) (is_analyzed d) v
    (central_thesis d) (key_concepts d) (argumentative_structure d) (cited_sources d)
    (error_message d) (analyzed_at d) (project_id d).

Definition set_central_thesis (v : option value) (d : Document) : Document :=
  mkDocument (id d) (filename d) (original_filename d) (file_path d) (file_type d)
    (extracted_text d) (page_count d) (status d) (is_analyzed d) (analysis_result d)
    v (key_concepts d) (argumentative_structure d) (cited_sources d)
    (error_message d) (analyzed_at d) (project_id d).

Definition set_key_concepts (v : option value) (d : Document) : Document :=
  mkDocument (id d) (filename d) (original_filename d) (file_path d) (file_type d)
    (extracted_text d) (page_count d) (status d) (is_analyzed d) (analysis_result d)
    (central_thesis d) v (argumentative_structure d) (cited_sources d)
    (error_message d) (analyzed_at d) (project_id d).

Definition set_argumentative_structure (v : option value) (d : Document) : Document :=
  mkDocument (id d) (filename d) (original_filename d) (file_path d) (file_type d)
    (extracted_text d) (page_count d) (status d) (is_analyzed d) (analysis_result d)
    (central_thesis d) (key_concepts d) v (cited_sources d)
    (error_message d) (analyzed_at d) (project_id d).

Definition set_cited_sources (v : option value) (d : Document) : Document :=
  mkDocument (id d) (filename d) (original_filename d) (file_path d) (file_type d)
    (extracted_text d) (page_count d) (status d) (is_analyzed d) (analysis_result d)
    (central_thesis d) (key_concepts d) (argumentative_structure d) v
    (error_message d) (analyzed_at d) (project_id d).

Definition set_error_message (v : option string) (d : Document) : Document :=
  mkDocument (id d) (filename d) (original_filename d) (file_path d) (file_type d)
    (extracted_text d) (page_count d) (status d) (is_analyzed d) (analysis_result d)
    (central_thesis d) (key_concepts d) (argumentative_structure d) (cited_sources d)
    v (analyzed_at d) (project_id d).

Definition set_analyzed_at (v : option timestamp) (d : Document) : Document :=
  mkDocument (id d) (filename d) (original_filename d) (file_path d) (file_type d)
    (extracted_text d) (page_count d) (status d) (is_analyzed d) (analysis_result d)
    (central_thesis d) (key_concepts d) (argumentative_structure d) (cited_sources d)
    (error_message d) v (project_id d).

Definition is_pdf (d : Document) : bool :=
  bool_decide (lower (file_type d) = lit ".pdf").

Definition is_docx (d : Document) : bool :=
  bool_decide (lower (file_type d) = lit ".docx").

Definition set_error (message : string) (d : Document) : Document :=
  set_error_message (Some message) (set_status ERROR d).

(** [if key in analysis_data: setter(analysis_data[key])] *)
Definition copy_key (key : string) (setter : option value -> Document -> Document)
    (analysis_data : Dict) (d : Document) : Document :=
  match dict_get key analysis_data with
  | Some v => setter (Some v) d
  | None => d
  end.

Definition mark_as_analyzed (analysis_data : Dict) (d : Document) : Document :=
  let d := set_status ANALYZED d in
  let d := set_is_analyzed true d in
  let d := set_analyzed_at (Some SqlNow) d in
  let d := set_analysis_result (Some analysis_data) d in
  let d := copy_key "central_thesis" set_central_thesis analysis_data d in
  let d := copy_key "key_concepts" set_key_concepts analysis_data d in
  let d := copy_key "argumentative_structure" set_argumentative_structure analysis_data d in
  copy_key "cited_sources" set_cited_sources analysis_data d.

End Model.

(** ** State with exceptions *)

Module StateExn.
Import Py.

Definition M (S A : Type) : Type := S -> outcome A * S.

Definition ret {S A} (a : A) : M S A := fun s => (Return a, s).

Definition raise {S A} (e : exn) : M S A := fun s => (Raise e, s).

Definition bind {S A B} (m : M S A) (k : A -> M S B) : M S B :=
  fun s =>
    match m s with
    | (Return a, s') => k a s'
    | (Raise e, s') => (Raise e, s')
    end.

Definition get {S} : M S S := fun s => (Return s, s).

Definition modify {S} (f : S -> S) : M S unit := fun s => (Return tt, f s).

Definition lift {S A} (r : outcome A) : M S A := fun s => (r, s).

(** [try: m  except Exception as e: handler e] *)
Definition try_except {S A} (m : M S A) (handler : exn -> M S A) : M S A :=
  fun s =>
    match m s with
    | (Return a, s') => (Return a, s')
    | (Raise e, s') => if is_Exception e then handler e s' else (Raise e, s')
    end.

(** [try: m  finally: final] *)
Definition try_finally {S A} (m : M S A) (final : M S unit) : M S A :=
  fun s =>
    match m s with
    | (r, s') =>
        match final s' with
        | (Return _, s'') => (r, s'')
        | (Raise e, s'') => (Raise e, s'')
        end
    end.

(** run [m] on one component of the state *)
Definition zoom {S T A} (proj : S -> T) (inj : T -> S -> S) (m : M T A) : M S A :=
  fun s =>
    match m (proj s) with
    | (r, t') => (r, inj t' s)
    end.

End StateExn.

Notation "'step' x <- m ; k" := (StateExn.bind m (fun x => k))
(at level 10, x name, m at level 100, k at level 200, only parsing).

(** ** vector_service.py *)

Module VectorService.
Import PyStr Py StateExn.

Definition Embedding : Type := list Q.

(** one entry of a collection; the id [doc_{document_id}_chunk_{i}] is kept
    as the pair it is formatted from *)
Record Entry : Type := mkEntry {
  entry_id : Z * nat;
  entry_document : str;
  entry_metadata : Dict;
  entry_embedding : Embedding
}.

(** the result of [collection.query] with
    [include=['documents', 'metadatas', 'distances']] *)
Record QueryResult : Type := mkQueryResult {
  documents : list (list (option str));
  metadatas : list (list (option Dict));
  distances : list (list Q)
}.

Inductive backend_op : Set :=
| GetCollection | CreateCollection | Encode | Add | Delete | Query.

(** the collaborators beneath the service: the embedding model and the
    similarity-search engine *)
Record Backend : Type := mkBackend {
  fault : backend_op -> option exn;
  encode : str -> Embedding;
  nearest : list Entry -> Embedding -> Z -> QueryResult
}.

(** the client: the collection [project_{project_id}] of every project that
    has one *)
Abbreviation Client := (gmap Z (list Entry)).

Definition guard (b : Backend) (op : backend_op) : M Client unit :=
  match fault b op with
  | Some e => raise e
  | None => ret tt
  end.

Definition get_or_create_collection (b : Backend) (project_id : Z)
    : M Client (list Entry) :=
  fun client =>
    match fault b GetCollection, client !! project_id with
    | None, Some collection => (Return collection, client)
    | _, _ =>
        match fault b CreateCollection, client !! project_id with
        | Some e, _ => (Raise e, client)
        | None, Some _ =>
            (Raise (mkExn RuntimeError "collection already exists"), client)
        | None, None => (Return [], <[project_id := []]> client)
        end
    end.

Definition generate_embeddings (b : Backend) (texts : list str)
    : M Client (list Embedding) :=
  match texts with
  | [] => ret []
  | _ => step _ <- guard b Encode; ret (map (encode b) texts)
  end.

(** [collection.add(embeddings=..., documents=..., metadatas=..., ids=...)] *)
Definition collection_add (b : Backend) (project_id : Z) (entries : list Entry)
    : M Client unit :=
  step _ <- guard b Add;
  modify (fun client =>
            <[project_id := default [] (client !! project_id) ++ entries]> client).

Fixpoint make_entries (document_id : Z) (i : nat) (chunks : list str)
    (metas : list Dict) (embeddings : list Embedding) : list Entry :=
  match chunks, metas, embeddings with
  | c :: chunks', m :: metas', e :: embeddings' =>
      mkEntry (document_id, i) c m e
      :: make_entries document_id (S i) chunks' metas' embeddings'
  | _, _, _ => []
  end.

Definition add_document_embeddings (b : Backend) (project_id document_id : Z)
    (chunks : list str) (metas : list Dict) : M Client bool :=
  try_except
    (match chunks, metas with
     | [], _ | _, [] => ret false
     | _, _ =>
         step _ <- get_or_create_collection b project_id;
         step embeddings <- generate_embeddings b chunks;
         step _ <- collection_add b project_id
                     (make_entries document_id 0 chunks metas embeddings);
         ret true
     end)
    (fun _ => ret false).

Definition about (document_id : Z) (e : Entry) : bool :=
  match dict_get "document_id" (entry_metadata e) with
  | Some (VInt z) => (z =? document_id)
  | _ => false
  end.

(** [collection.delete(where={"document_id": document_id})] *)
Definition collection_delete (b : Backend) (project_id document_id : Z)
    : M Client unit :=
  step _ <- guard b Delete;
  modify (fun client =>
            <[project_id :=
                List.filter (fun e => negb (about document_id e))
                            (default [] (client !! project_id))]> client).

Definition delete_document_embeddings (b : Backend) (project_id document_id : Z)
    : M Client bool :=
  try_except
    (step _ <- get_or_create_collection b project_id;
     step _ <- collection_delete b project_id document_id;
     ret true)
    (fun _ => ret false).

Definition search_similar_chunks (b : Backend) (project_id : Z) (query : str)
    (n_results : Z) : M Client QueryResult :=
  try_except
    (step collection <- get_or_create_collection b project_id;
     step embeddings <- generate_embeddings b [query];
     match embeddings with
     | [] => raise (mkExn IndexError "list index out of range")
     | query_embedding :: _ =>
         step _ <- guard b Query;
         ret (nearest b collection query_embedding n_results)
     end)
    (fun _ => ret (mkQueryResult [[]] [[]] [[]])).


(** [f"project_{project_id}"] *)
Definition collection_name (project_id : Z) : str :=
  lit ("project_" +:+ pretty project_id).

(** [count_fault] is what [collection.count()] raises, if it does *)
Definition get_collection_stats (b : Backend) (count_fault : option exn)
    (project_id : Z) : M Client Dict :=
  try_except
    (step collection <- get_or_create_collection b project_id;
     step count <- match count_fault with
                   | Some e => raise e
                   | None => ret (Z.of_nat (length collection))
                   end;
     ret [("total_chunks"%string, VInt count);
          ("collection_name"%string, VStr (collection_name project_id))])
    (fun _ => ret [("total_chunks"%string, VInt 0);
                   ("collection_name"%string, VStr (collection_name project_id))]).

End VectorService.

(** ** ai_service.py *)

Module AIService.
Import PyStr Py StateExn.

(** [schemas/chat.py] *)
Record ChatContextChunk : Type := mkChatContextChunk {
  document_id : Z;
  chunk_text : str;
  similarity_score : Q;
  metadata : Dict
}.

(** collaborators: the language model behind [analyze_document] and the
    coercion of a metadata string to the [int] field of the schema *)
Record Provider : Type := mkProvider {
  run_analysis : str -> str -> outcome Dict;
  int_of_str : str -> option Z
}.

Definition analyze_document (p : Provider) (document_text filename : str)
    : outcome Dict :=
  if negb (truthy document_text) || (len (strip document_text) <? 100)
  then Raise (mkExn ValueError "Document text is too short for meaningful analysis")
  else run_analysis p document_text filename.

(** [x[0]] *)
Definition first {A} (l : list A) : outcome A :=
  match l with
  | [] => Raise (mkExn IndexError "list index out of range")
  | x :: _ => Return x
  end.

(** truth value of an optional [str] and of an optional [dict] *)
Definition has_text (t : option str) : bool :=
  match t with Some (_ :: _) => true | _ => false end.

Definition has_items (m : option Dict) : bool :=
  match m with Some (_ :: _) => true | _ => false end.

(** validation of the [document_id: int] field *)
Definition as_int (p : Provider) (v : value) : outcome Z :=
  match v with
  | VInt z => Return z
  | VStr s =>
      match int_of_str p s with
      | Some z => Return z
      | None => Raise (mkExn ValidationError "document_id: value is not a valid integer")
      end
  end.

Definition similarity (distance : Q) : Q :=
  if Qlt_le_dec distance 1 then (1 - distance)%Q else 0%Q.

(** the loop over [zip(documents, metadatas, distances)] *)
Fixpoint context_loop (p : Provider) (docs : list (option str))
    (metas : list (option Dict)) (dists : list Q)
    (context_chunks : list ChatContextChunk) : outcome (list ChatContextChunk) :=
  match docs, metas, dists with
  | doc_text :: docs', meta :: metas', distance :: dists' =>
      match doc_text, meta with
      | Some t, Some m =>
          if has_text doc_text && has_items meta
          then
            let similarity_score := similarity distance in
            do doc_id <- as_int p (default (VInt 0) (dict_get "document_id" m));
            context_loop p docs' metas' dists'
              (context_chunks ++ [mkChatContextChunk doc_id t similarity_score m])
          else context_loop p docs' metas' dists' context_chunks
      | _, _ => context_loop p docs' metas' dists' context_chunks
      end
  | _, _, _ => Return context_chunks
  end.

Definition retrieve_context (p : Provider) (b : VectorService.Backend)
    (project_id : Z) (query : str) (max_chunks : Z)
    : M VectorService.Client (list ChatContextChunk) :=
  try_except
    (step search_results <-
       VectorService.search_similar_chunks b project_id query max_chunks;
     match VectorService.documents search_results with
     | [] => ret []
     | _ =>
         step docs <- lift (first (VectorService.documents search_results));
         step metas <- lift (first (VectorService.metadatas search_results));
         step dists <- lift (first (VectorService.distances search_results));
         lift (context_loop p docs metas dists [])
     end)
    (fun _ => ret []).

End AIService.

(** ** core/database.py *)

Module Database.
Import Py StateExn.

(** what a call leaves in the hands of an [async with] statement *)
Inductive object_kind : Set :=
| AsyncContextManager
| AsyncGenerator.

(** [get_async_session] is an [async def] with a [yield] in its body and no
    decorator: calling it makes an async generator *)
Definition get_async_session : object_kind := AsyncGenerator.

(** [async with cm as db: body]: [__aenter__] is looked up before the body
    is entered *)
Definition async_with {S A} (cm : object_kind) (body : M S A) : M S A :=
  match cm with
  | AsyncContextManager => body
  | AsyncGenerator =>
      raise (mkExn TypeError
        "'async_generator' object does not support the asynchronous context manager protocol")
  end.

End Database.

(** ** background_processor.py *)

Module BackgroundProcessor.
Import PyStr Py StateExn Model.

(** the names bound at module level: the imports and the definitions of the
    file, each with what calling it gives to [async with] *)
Definition module_globals : list (string * option Database.object_kind) :=
  [("asyncio", None); ("logging", None); ("Optional", None); ("Dict", None);
   ("List", None); ("datetime", None); ("AsyncSession", None); ("select", None);
   ("json", None);
   ("get_async_session", Some Database.get_async_session);
   ("Document", None); ("DocumentStatus", None); ("Project", None);
   ("document_processor", None); ("text_chunker", None); ("TextChunk", None);
   ("vector_service", None); ("ai_service", None); ("ChatContextChunk", None);
   ("logger", None); ("BackgroundProcessor", None); ("background_processor", None);
   ("process_document", None); ("reprocess_document", None);
   ("process_project_documents", None); ("get_processing_status", None);
   ("health_check", None)]%string.

Fixpoint lookup_global (name : string)
    (globals : list (string * option Database.object_kind))
    : option (option Database.object_kind) :=
  match globals with
  | [] => None
  | (n, v) :: rest => if String.eqb name n then Some v else lookup_global name rest
  end.

(** [async with name() as db: body] for a module-level [name] *)
Definition async_with_global {S A} (name : string) (body : M S A) : M S A :=
  match lookup_global name module_globals with
  | None => raise (mkExn NameError ("name '" +:+ name +:+ "' is not defined"))
  | Some None => raise (mkExn TypeError "object is not callable")
  | Some (Some cm) => Database.async_with cm body
  end.

Record Job : Set := mkJob { job_document_id : Z; priority : Z; queued_at : Z }.

(** what a session or the index has made durable, in order *)
Inductive event : Type :=
| Committed (d : Document)
| Indexed (project document : Z) (entries : nat).

Record State : Type := mkState {
  rows : gmap Z Document;              (* the documents table *)
  client : VectorService.Client;       (* the vector database *)
  processing_queue : list Job;
  current_tasks : gset Z;              (* the keys of the dict *)
  scheduled : list Z;                  (* tasks created and not yet run *)
  is_running : bool;
  trace : list event
}.

Definition set_rows (v : gmap Z Document) (s : State) : State :=
  mkState v (client s) (processing_queue s) (current_tasks s) (scheduled s)
    (is_running s) (trace s).
Definition set_client (v : VectorService.Client) (s : State) : State :=
  mkState (rows s) v (processing_queue s) (current_tasks s) (scheduled s)
    (is_running s) (trace s).
Definition set_processing_queue (v : list Job) (s : State) : State :=
  mkState (rows s) (client s) v (current_tasks s) (scheduled s)
    (is_running s) (trace s).
Definition set_current_tasks (v : gset Z) (s : State) : State :=
  mkState (rows s) (client s) (processing_queue s) v (scheduled s)
    (is_running s) (trace s).
Definition set_scheduled (v : list Z) (s : State) : State :=
  mkState (rows s) (client s) (processing_queue s) (current_tasks s) v
    (is_running s) (trace s).
Definition set_is_running (v : bool) (s : State) : State :=
  mkState (rows s) (client s) (processing_queue s) (current_tasks s) (scheduled s)
    v (trace s).
Definition log (e : event) (s : State) : State :=
  mkState (rows s) (client s) (processing_queue s) (current_tasks s) (scheduled s)
    (is_running s) (trace s ++ [e]).

(** the collaborators of a run *)
Record Collaborators : Type := mkCollaborators {
  now : Z;                                         (* [datetime.now()] *)
  isoformat : Z -> str;
  extract_text_from_pdf : str -> outcome (str * Z);
  extract_text_from_docx : str -> outcome (str * Z);
  provider : AIService.Provider;
  backend : VectorService.Backend;
  commit_fault : list event -> option exn          (* a failing [db.commit()] *)
}.

(** the local variable [document] of a job next to the processor's state *)
Definition Frame : Type := Document * State.

Definition the_document : M Frame Document := fun f => (Return f.1, f).

Definition assign (setter : Document -> Document) : M Frame unit :=
  modify (fun f : Frame => (setter f.1, f.2)).

Definition on_state {A} (m : M State A) : M Frame A :=
  zoom (fun f : Frame => f.2) (fun s f => (f.1, s)) m.

Definition on_client {A} (m : M VectorService.Client A) : M State A :=
  zoom client set_client m.

(** [await db.commit()] with [document] attached to the session *)
Definition db_commit (env : Collaborators) : M Frame unit :=
  fun f =>
    match commit_fault env (trace f.2) with
    | Some e => (Raise e, f)
    | None =>
        (Return tt, (f.1, log (Committed f.1) (set_rows (<[id f.1 := f.1]> (rows f.2)) f.2)))
    end.

Definition queue_document_for_processing (env : Collaborators) (document_id : Z)
    (prio : Z) : M State unit :=
  modify (fun s =>
            set_processing_queue
              (processing_queue s ++ [mkJob document_id prio (now env)]) s).

Definition _get_document (document_id : Z) : M State (option Document) :=
  fun s => (Return (rows s !! document_id), s).

Definition _extract_text (env : Collaborators) (document : Document)
    : M State (str * Z) :=
  if is_pdf document then lift (extract_text_from_pdf env (file_path document))
  else if is_docx document then lift (extract_text_from_docx env (file_path document))
  else raise (mkExn ValueError
                ("Unsupported file type: " +:+ string_of_list_ascii (file_type document))).

Definition _chunk_text (document : Document) : M State (list TextChunker.TextChunk) :=
  match extracted_text document with
  | None | Some [] => raise (mkExn ValueError "No extracted text available")
  | Some t =>
      lift (TextChunker.chunk_text TextChunker.text_chunker (PStr t)
              (id document) (filename document))
  end.

(** the metadata stored with chunk [i] *)
Definition entry_metadata (env : Collaborators) (document : Document) (i : nat)
    (chunk : TextChunker.TextChunk) : Dict :=
  dict_update (TextChunker.metadata chunk)
    [("chunk_id", VInt (Z.of_nat i));
     ("document_id", VInt (id document));
     ("project_id", VInt (project_id document));
     ("filename", VStr (filename document));
     ("file_type", VStr (file_type document));
     ("chunk_type", VStr (TextChunker.ChunkType_value (TextChunker.chunk_type chunk)));
     ("start_pos", VInt (TextChunker.start_pos chunk));
     ("end_pos", VInt (TextChunker.end_pos chunk));
     ("created_at", VStr (isoformat env (now env)))]%string.

Definition _store_embeddings (env : Collaborators) (document : Document)
    (chunks : list TextChunker.TextChunk) : M State bool :=
  try_except
    (match chunks with
     | [] => ret false
     | _ =>
         let chunk_texts := map TextChunker.text chunks in
         let chunk_metadatas := imap (entry_metadata env document) chunks in
         step success <-
           on_client (VectorService.add_document_embeddings (backend env)
                        (project_id document) (id document)
                        chunk_texts chunk_metadatas);
         if (success : bool)
         then step _ <- modify (log (Indexed (project_id document) (id document)
                                      (length chunks)));
              ret true
         else ret false
     end)
    (fun _ => ret false).

(** step 3 of [_process_document]: the inner [try] with its [except] *)
Definition analyse (env : Collaborators) (extracted_text : str) : M Frame unit :=
  try_except
    (step document <- the_document;
     step analysis_result <-
       lift (AIService.analyze_document (provider env) extracted_text
               (original_filename document));
     step _ <- assign (mark_as_analyzed analysis_result);
     db_commit env)
    (fun _ => ret tt).

(** the end of the [try] of [_process_document]: [if success: ... else: raise] *)
Definition finish (env : Collaborators) (success : bool) : M Frame unit :=
  if success
  then
    step document <- the_document;
    if bool_decide (status document <> ANALYZED)
    then step _ <- assign (set_status ANALYZED);
         step _ <- assign (set_analyzed_at (Some (At (now env))));
         db_commit env
    else ret tt
  else raise (mkExn RuntimeError "Failed to store embeddings").

(** steps 1 to 5 of [_process_document]: the body of its [try] *)
Definition pipeline (env : Collaborators) (document_id : Z) : M Frame unit :=
  step _ <- assign (set_status PROCESSING);
  step _ <- db_commit env;
  step document <- the_document;
  step extracted <- on_state (_extract_text env document);
  step _ <- assign (set_extracted_text (Some extracted.1));
  step _ <- assign (set_page_count (Some extracted.2));
  step _ <- assign (set_status PROCESSED);
  step _ <- db_commit env;
  step _ <- analyse env extracted.1;
  step document <- the_document;
  step chunks <- on_state (_chunk_text document);
  step document <- the_document;
  step success <- on_state (_store_embeddings env document chunks);
  finish env success.

(** the [except Exception as e] clause of [_process_document] *)
Definition on_error (env : Collaborators) (e : exn) : M Frame unit :=
  step _ <- assign (set_status ERROR);
  step _ <- assign (set_error_message (Some (exn_msg e)));
  db_commit env.

(** the [finally] clause of [_process_document] *)
Definition release (document_id : Z) : M State unit :=
  modify (fun s =>
            if bool_decide (document_id ∈ current_tasks s)
            then set_current_tasks (current_tasks s ∖ {[document_id]}) s
            else s).

(** the block under [async with] in [_process_document] *)
Definition job (env : Collaborators) (document_id : Z) : M State unit :=
  try_finally
    (step found <- _get_document document_id;
     match found with
     | None => ret tt
     | Some document =>
         fun s =>
           match try_except (pipeline env document_id) (on_error env) (document, s) with
           | (r, f) => (r, f.2)
           end
     end)
    (release document_id).

Definition _process_document (env : Collaborators) (document_id : Z) : M State unit :=
  async_with_global "get_async_session" (job env document_id).

(** one turn of [_processing_loop] with the queue answering at once; an
    empty queue is the [asyncio.TimeoutError] branch *)
Definition _processing_loop_turn (s : State) : State :=
  if is_running s
  then
    match processing_queue s with
    | [] => s
    | task :: rest =>
        let s := set_processing_queue rest s in
        let document_id := job_document_id task in
        if bool_decide (document_id ∈ current_tasks s)
        then s
        else set_scheduled (scheduled s ++ [document_id])
               (set_current_tasks ({[document_id]} ∪ current_tasks s) s)
    end
  else s.

(** the block under [async with] in [reprocess_document] *)
Definition reprocess (env : Collaborators) (document_id : Z) : M State unit :=
  try_except
    (step found <- _get_document document_id;
     match found with
     | None => ret tt
     | Some document =>
         step _ <- on_client (VectorService.delete_document_embeddings (backend env)
                                (project_id document) document_id);
         fun s =>
           match
             (step _ <- assign (set_status UPLOADED);
              step _ <- assign (set_extracted_text None);
              step _ <- assign (set_page_count None);
              step _ <- assign (set_analyzed_at None);
              step _ <- assign (set_error_message None);
              step _ <- db_commit env;
              on_state (queue_document_for_processing env document_id 1))
             (document, s)
           with
           | (r, f) => (r, f.2)
           end
     end)
    (fun _ => ret tt).

Definition reprocess_document (env : Collaborators) (document_id : Z) : M State unit :=
  async_with_global "get_db" (reprocess env document_id).







(** what [health_check] returns: the report of its [try] block or the one of
    its [except] clause *)
Inductive Health : Type :=
| Report (health_status : str) (queue_size active_tasks : Z)
    (vector_db_accessible : bool) (timestamp : str)
| Failure (error : string) (timestamp : str).

(** [bool(d)] for a dict *)
Definition dict_truthy (d : Dict) : bool :=
  match d with [] => false | _ :: _ => true end.

Definition health_check (env : Collaborators) (count_fault : option exn)
    : M State Health :=
  try_except
    (step vector_stats <-
       on_client (VectorService.get_collection_stats (backend env) count_fault 1);
     step s <- get;
     ret (Report (if is_running s then lit "healthy" else lit "stopped")
            (Z.of_nat (length (processing_queue s)))
            (Z.of_nat (size (current_tasks s)))
            (dict_truthy vector_stats)
            (isoformat env (now env))))
    (fun e => ret (Failure (exn_msg e) (isoformat env (now env)))).

End BackgroundProcessor.

(** ** Vocabulary of the statements *)

Module Spec.
Import PyStr Py TextChunker.

(** no whitespace at the front, resp. at the back *)
Definition no_lead (s : str) : Prop :=
  match s with
  | [] => True
  | c :: _ => is_space c = false
  end.

Definition no_trail (s : str) : Prop := no_lead (rev s).

(** a non-empty text that [strip] leaves alone *)
Definition clean (s : str) : Prop := s <> [] /\ no_lead s /\ no_trail s.

(** a text with a character that is not whitespace *)
Definition solid (s : str) : Prop := Exists (fun c => is_space c = false) s.

(** a sentence boundary [[.!?]\s] occurs in [w] *)
Definition has_boundary (w : str) : Prop :=
  exists a p s b, w = a ++ p :: s :: b /\ is_terminator p = true /\ is_space s = true.

(** the chunks made of the paragraphs that reach chunk creation, the first
    of them starting at [pos] *)
Fixpoint created (self : TextChunker) (document_id : Z) (filename : str)
    (kept : list str) (pos : Z) : list TextChunk :=
  match kept with
  | [] => []
  | paragraph :: rest =>
      _create_chunks_from_paragraph self paragraph pos (_detect_chunk_type paragraph)
        document_id filename
      ++ created self document_id filename rest (pos + len paragraph)
  end.

(** a paragraph of exactly twenty characters, and one of fifty *)
Definition twenty : str := lit "abcdefghijklmnopqrst".
Definition fifty : str := times (lit "a") 50.

(** a text of two sentences; the 200 characters that end the first one
    begin with a space *)
Definition two_sentences : str :=
  times (lit "A") 700 ++ lit " " ++ times (lit "B") 199 ++ lit ". " ++ times (lit "C") 500.

Definition five_words : str :=
  lit "Introduzione Introduzione Introduzione Introduzione Introduzione".

End Spec.

(** ** Vocabulary of the pipeline statements *)

Module PipelineSpec.
Import PyStr Py Model BackgroundProcessor.

(** the state after [document] has been committed *)
Definition persist (document : Document) (s : State) : State :=
  log (Committed document) (set_rows (<[id document := document]> (rows s)) s).

(** the document as the stages leave it *)
Definition processing (d : Document) : Document := set_status PROCESSING d.

Definition processed (t : str) (pages : Z) (d : Document) : Document :=
  set_status PROCESSED
    (set_page_count (Some pages) (set_extracted_text (Some t) (processing d))).

Definition analyzed_now (env : Collaborators) (d : Document) : Document :=
  set_analyzed_at (Some (At (now env))) (set_status ANALYZED d).

Definition failed (e : exn) (d : Document) : Document :=
  set_error_message (Some (exn_msg e)) (set_status ERROR d).

(** every [db.commit()] succeeds *)
Definition commits (env : Collaborators) : Prop :=
  forall tr, commit_fault env tr = None.

(** whatever a collaborator raises is an [Exception] *)
Definition ordinary_outcome {A} (r : outcome A) : Prop :=
  match r with
  | Return _ => True
  | Raise e => is_Exception e = true
  end.

Definition ordinary (env : Collaborators) : Prop :=
  (forall path, ordinary_outcome (extract_text_from_pdf env path)) /\
  (forall path, ordinary_outcome (extract_text_from_docx env path)) /\
  (forall t f, ordinary_outcome (AIService.run_analysis (provider env) t f)) /\
  (forall op e, VectorService.fault (backend env) op = Some e -> is_Exception e = true).

(** the embedding model and the index answer every call *)
Definition index_works (env : Collaborators) : Prop :=
  forall op, VectorService.fault (backend env) op = None.

(** what an observer of the database and of the index sees of an event *)
Inductive tag : Set :=
| Status (s : DocumentStatus)
| Index.

Definition shape (e : event) : option tag :=
  match e with
  | Committed d => Some (Status (status d))
  | Indexed _ _ _ => Some Index
  end.

Definition shapes (tr : list event) : list tag := omap shape tr.

(** what a run that finds its document can leave in the database and in the
    index, in order *)
Definition run_shapes : list (list tag) :=
  [ [Status PROCESSING; Status ERROR];
    [Status PROCESSING; Status PROCESSED; Status ERROR];
    [Status PROCESSING; Status PROCESSED; Index; Status ANALYZED];
    [Status PROCESSING; Status PROCESSED; Status ANALYZED; Status ERROR];
    [Status PROCESSING; Status PROCESSED; Status ANALYZED; Index] ].

(** the entries of a project that belong to a document *)
Definition entries_of (c : VectorService.Client) (project document : Z)
    : list VectorService.Entry :=
  List.filter (VectorService.about document) (default [] (c !! project)).

End PipelineSpec.

(** ** Vocabulary of the retrieval statements *)

Module RetrievalSpec.
Import PyStr Py.

(** the entries of a query result that have a text and a metadata mapping,
    in order *)
Fixpoint kept_entries (docs : list (option str)) (metas : list (option Dict))
    (dists : list Q) : list (str * Dict * Q) :=
  match docs, metas, dists with
  | doc_text :: docs', meta :: metas', distance :: dists' =>
      match doc_text, meta with
      | Some (c :: t), Some (kv :: m) =>
          (c :: t, kv :: m, distance) :: kept_entries docs' metas' dists'
      | _, _ => kept_entries docs' metas' dists'
      end
  | _, _, _ => []
  end.

(** the [document_id] that the schema is given for a metadata mapping *)
Definition id_field (m : Dict) : value :=
  default (VInt 0) (dict_get "document_id" m).

(** how a chunk of the result stands to the entry it is made of *)
Definition made_of (p : AIService.Provider) (entry : str * Dict * Q)
    (chunk : AIService.ChatContextChunk) : Prop :=
  AIService.chunk_text chunk = entry.1.1 /\
  AIService.metadata chunk = entry.1.2 /\
  AIService.similarity_score chunk = Qmax 0 (1 - entry.2) /\
  AIService.as_int p (id_field entry.1.2) = Return (AIService.document_id chunk).

(** the schema refuses the [document_id] of the entry *)
Definition rejected (p : AIService.Provider) (entry : str * Dict * Q) : Prop :=
  exists e, AIService.as_int p (id_field entry.1.2) = Raise e.

End RetrievalSpec.

(** ** Example data *)

Module Example.
Import PyStr Py Model BackgroundProcessor.

Definition chroma : VectorService.Backend :=
  VectorService.mkBackend (fun _ => None) (fun _ => [])
    (fun _ _ _ => VectorService.mkQueryResult [[]] [[]] [[]]).


Definition working_provider : AIService.Provider :=
  AIService.mkProvider
    (fun _ _ => Return [("central_thesis"%string, VStr (lit "thesis"))])
    (fun _ => None).

(** 280 characters: one paragraph, one chunk *)
Definition long_text : str := times (lit "Lorem ipsum dolor sit amet. ") 10.

(** 19 characters: a paragraph too short to keep *)
Definition thin_text : str := lit "Too short to index.".

Definition env (p : AIService.Provider) (b : VectorService.Backend) (t : str)
    : Collaborators :=
  mkCollaborators 0 (fun _ => lit "2024-01-01T00:00:00")
    (fun _ => Return (t, 1)) (fun _ => Return (t, 1)) p b (fun _ => None).

Definition doc : Document :=
  mkDocument 1 (lit "a.pdf") (lit "a.pdf") (lit "uploads/1/a.pdf") (lit ".pdf")
    None None UPLOADED false None None None None None None None 1.

Definition start : State := mkState {[1 := doc]} ∅ [] ∅ [] true [].

(** an index that refuses to write *)
Definition broken_chroma : VectorService.Backend :=
  VectorService.mkBackend
    (fun op => match op with
               | VectorService.Add => Some (mkExn RuntimeError "IndexWriteError")
               | _ => None
               end)
    (fun _ => [])
    (fun _ _ _ => VectorService.mkQueryResult [[]] [[]] [[]]).

(** [start] with one job for document 1 in the queue *)
Definition queued : State := set_processing_queue [mkJob 1 1 0] start.

(** [queued] after one turn of the processing loop: the task of document 1
    is created and the document is among the current tasks *)
Definition dispatched : State := _processing_loop_turn queued.

(** document 1 after a complete run, next to an entry of document 2 *)
Definition analyzed_doc : Document :=
  mkDocument 1 (lit "a.pdf") (lit "a.pdf") (lit "uploads/1/a.pdf") (lit ".pdf")
    (Some long_text) (Some 1) ANALYZED true
    (Some [("central_thesis"%string, VStr (lit "thesis"))])
    (Some (VStr (lit "thesis"))) None None None None (Some SqlNow) 1.

Definition entry (document : Z) : VectorService.Entry :=
  VectorService.mkEntry (document, 0%nat) long_text
    [("document_id"%string, VInt document)] [].

Definition indexed : State :=
  mkState {[1 := analyzed_doc]} {[1 := [entry 1; entry 2]]} [] ∅ [] true [].

(** an index that answers every query with four entries: one complete, one
    without text and with a [document_id] that is no number, one without
    metadata, and one complete and farther away than 1 *)
Definition answering : VectorService.Backend :=
  VectorService.mkBackend (fun _ => None) (fun _ => [])
    (fun _ _ _ =>
       VectorService.mkQueryResult
         [[Some (lit "Lorem ipsum"); Some []; Some (lit "dolor"); Some (lit "sit amet")]]
         [[Some [("document_id"%string, VInt 1)];
           Some [("document_id"%string, VStr (lit "one"))]; None;
           Some [("document_id"%string, VInt 2)]]]
         [[(1 # 4)%Q; (1 # 2)%Q; (3 # 2)%Q; (5 # 4)%Q]]).

End Example.

(** ** Vocabulary of the statements about normalized text *)

Module TextSpec.
Import PyStr Py TextChunker.

(** every whitespace character of [s] is a plain space that does not follow
    another one; [after_space] says that a whitespace character precedes [s] *)
Fixpoint single_spaced (after_space : bool) (s : str) : Prop :=
  match s with
  | [] => True
  | c :: rest =>
      (is_space c = true -> c = " "%char /\ after_space = false) /\
      single_spaced (is_space c) rest
  end.

(** the chunks lie end to end from [pos] to [stop], each as long as its
    text *)
Fixpoint tiles (pos : Z) (chunks : list TextChunk) (stop : Z) : Prop :=
  match chunks with
  | [] => pos = stop
  | c :: rest =>
      start_pos c = pos /\ end_pos c = pos + len (text c) /\ tiles (end_pos c) rest stop
  end.

(** an empty line: two line feeds in a row *)
Fixpoint has_blank_line (s : str) : bool :=
  match s with
  | [] => false
  | c :: rest =>
      match rest with
      | d :: _ => (is_newline c && is_newline d) || has_blank_line rest
      | [] => false
      end
  end.

(** a line as [clean_text] leaves them: not empty, no whitespace at either
    end, no line feed inside *)
Definition tidy (line : str) : Prop :=
  Spec.clean line /\ Forall (fun c => is_newline c = false) line.

(** [types.get(t, 0)] *)
Fixpoint tally (t : ChunkType) (types : list (ChunkType * Z)) : Z :=
  match types with
  | [] => 0
  | (t', n) :: rest => if decide (t = t') then n else tally t rest
  end.

(** the number of chunks of type [t] *)
Definition occurrences (t : ChunkType) (chunks : list TextChunk) : Z :=
  Z.of_nat (length (List.filter (fun c => bool_decide (chunk_type c = t)) chunks)).

(** the metadata of [c] has a [str] under [key] *)
Definition has_str (key : string) (c : TextChunk) : Prop :=
  exists s, dict_get key (metadata c) = Some (VStr s).

(** what overlap and validation keep of a chunk *)
Definition place (c : TextChunk) : ChunkType * Z * Z :=
  (chunk_type c, start_pos c, end_pos c).

End TextSpec.

(** ** Vocabulary of the statements about what a job leaves alone *)

Module FrameSpec.
Import PyStr Py StateExn Model BackgroundProcessor PipelineSpec.

(** from a state in [P], [m] ends in a state in [Q], whether it returns or
    raises *)
Definition hoare {S A} (P : S -> Prop) (m : M S A) (Q : S -> Prop) : Prop :=
  forall s, P s -> Q (m s).2.

(** [d] is the file that [d0] is: the columns that are set at upload *)
Definition same_file (d0 d : Document) : Prop :=
  id d = id d0 /\ filename d = filename d0 /\
  original_filename d = original_filename d0 /\ file_path d = file_path d0 /\
  file_type d = file_type d0 /\ project_id d = project_id d0.

(** the error message of [d] is the one of [d0], unless [d] is in ERROR *)
Definition message_kept (d0 d : Document) : Prop :=
  error_message d = error_message d0 \/ status d = ERROR.

(** what a job for [d0], started in [s0], never touches in the processor *)
Definition untouched (d0 : Document) (s0 s : State) : Prop :=
  (forall k, k <> id d0 -> rows s !! k = rows s0 !! k) /\
  (exists r, rows s !! id d0 = Some r /\ same_file d0 r /\ message_kept d0 r) /\
  (forall p, p <> project_id d0 -> client s !! p = client s0 !! p) /\
  (forall d2, d2 <> id d0 ->
     entries_of (client s) (project_id d0) d2
     = entries_of (client s0) (project_id d0) d2) /\
  processing_queue s = processing_queue s0 /\
  scheduled s = scheduled s0 /\
  is_running s = is_running s0 /\
  current_tasks s ∖ {[id d0]} = current_tasks s0 ∖ {[id d0]} /\
  trace s0 `prefix_of` trace s.

(** the frame of a job for [d0] while its pipeline runs, and once the job
    is over *)
Definition working (d0 : Document) (s0 : State) (f : Frame) : Prop :=
  same_file d0 f.1 /\ error_message f.1 = error_message d0 /\ untouched d0 s0 f.2.

Definition settled (d0 : Document) (s0 : State) (f : Frame) : Prop :=
  same_file d0 f.1 /\ message_kept d0 f.1 /\ untouched d0 s0 f.2.

End FrameSpec.

(** ** Vocabulary of the statements about the queue *)

Module DispatchSpec.
Import Model BackgroundProcessor.

(** the documents of [ids], in order, that are not among [tasks] and have
    not occurred before *)
Fixpoint fresh (tasks : gset Z) (ids : list Z) : list Z :=
  match ids with
  | [] => []
  | i :: rest =>
      if bool_decide (i ∈ tasks) then fresh tasks rest
      else i :: fresh ({[i]} ∪ tasks) rest
  end.

(** [n] turns of the processing loop *)
Definition turns (n : nat) (s : State) : State :=
  Nat.iter n _processing_loop_turn s.

(** the row that [reprocess_document] commits *)
Definition reset (d : Document) : Document :=
  set_error_message None
    (set_analyzed_at None
       (set_page_count None (set_extracted_text None (set_status UPLOADED d)))).

End DispatchSpec.

(** ** Vocabulary of the statements about retrieval *)

Module ContextSpec.
Import PyStr Py.

(** a chunk of a context as [retrieve_context] makes them: a similarity
    that is not negative, a text and a metadata mapping that are not empty *)
Definition well_formed (chunk : AIService.ChatContextChunk) : Prop :=
  (0 <= AIService.similarity_score chunk)%Q /\
  AIService.chunk_text chunk <> [] /\
  AIService.metadata chunk <> [].

(** the schema refuses the [document_id] of the entry *)
Definition refused (p : AIService.Provider) (entry : str * Dict * Q) : Prop :=
  forall z, AIService.as_int p (RetrievalSpec.id_field entry.1.2) <> Return z.

(** the collections hold the same entries in [c'] as in [c] *)
Definition same_entries (c c' : VectorService.Client) : Prop :=
  forall project, default [] (c' !! project) = default [] (c !! project).

End ContextSpec.

(** ** Further example data *)

Module Sample.
Import PyStr Py TextChunker Model BackgroundProcessor.

(** the chunker with overlap set to zero *)
Definition no_overlap : TextChunker := mkTextChunker 1000 0 100 2000.

(** a text file that reached the documents table *)
Definition notes : Document :=
  mkDocument 7 (lit "notes.txt") (lit "notes.txt") (lit "uploads/1/notes.txt")
    (lit ".TXT") None None UPLOADED false None None None None None None None 1.

Definition desk : State := mkState {[7 := notes]} ∅ [] ∅ [] true [].

(** collaborators whose database refuses every commit *)
Definition locked : Collaborators :=
  mkCollaborators 0 (fun _ => lit "2024-01-01T00:00:00")
    (fun _ => Return (Example.long_text, 1)) (fun _ => Return (Example.long_text, 1))
    Example.working_provider Example.chroma
    (fun _ => Some (mkExn RuntimeError "database is locked")).

(** a vector database that refuses every call *)
Definition dead_chroma : VectorService.Backend :=
  VectorService.mkBackend (fun _ => Some (mkExn RuntimeError "unreachable"))
    (fun _ => []) (fun _ _ _ => VectorService.mkQueryResult [[]] [[]] [[]]).

(** an index whose second entry carries a [document_id] that is no number *)
Definition spoiled : VectorService.Backend :=
  VectorService.mkBackend (fun _ => None) (fun _ => [])
    (fun _ _ _ =>
       VectorService.mkQueryResult
         [[Some (lit "Lorem ipsum"); Some (lit "dolor")]]
         [[Some [("document_id"%string, VInt 1)];
           Some [("document_id"%string, VStr (lit "one"))]]]
         [[(1 # 4)%Q; (1 # 2)%Q]]).



End Sample.

(** * Properties *)

Import PyStr Py TextChunker Spec.

(** ** Facts about [strip] *)

Lemma lstrip_no_lead (s : str) : no_lead (lstrip s).
Proof.
  induction s as [|c s IH]; simpl; [exact I|].
  destruct (is_space c) eqn:E; [exact IH | simpl; exact E].
Qed.

Lemma lstrip_id (s : str) : no_lead s -> lstrip s = s.
Proof. destruct s as [|c s]; simpl; [reflexivity|]. intros ->. reflexivity. Qed.

Lemma lstrip_suffix (s : str) : lstrip s `suffix_of` s.
Proof.
  induction s as [|c s IH]; simpl; [reflexivity|].
  destruct (is_space c); [|reflexivity].
  by apply suffix_cons_r.
Qed.

Lemma solid_lstrip (s : str) : solid s -> solid (lstrip s).
Proof.
  unfold solid. induction s as [|c s IH]; simpl; intros H; [exact H|].
  destruct (is_space c) eqn:E; [|exact H].
  apply Exists_cons in H as [H|H]; [congruence | auto].
Qed.

Lemma solid_rev (s : str) : solid s -> solid (rev s).
Proof.
  unfold solid. rewrite !Exists_exists. intros (c & Hc & E).
  exists c. split; [|exact E]. apply list_elem_of_In, in_rev.
  rewrite rev_involutive. by apply list_elem_of_In.
Qed.

Lemma solid_nonempty (s : str) : solid s -> s <> [].
Proof. intros H ->. by apply Exists_nil in H. Qed.

Lemma solid_of_clean (s : str) : clean s -> solid s.
Proof.
  intros (Hne & Hl & _). destruct s as [|c s]; [done|].
  apply Exists_cons_hd. exact Hl.
Qed.

(** [lstrip] in front of a text that starts with a visible character *)
Lemma lstrip_app_keep (x z : str) :
  z <> [] -> no_lead z -> exists x', lstrip (x ++ z) = x' ++ z.
Proof.
  intros Hz Hl. induction x as [|c x IH]; simpl.
  - exists []. simpl. by apply lstrip_id.
  - destruct (is_space c); [exact IH|]. by exists (c :: x).
Qed.

Lemma lstrip_app_solid (a b : str) : solid a -> lstrip (a ++ b) = lstrip a ++ b.
Proof.
  unfold solid. induction a as [|c a IH]; simpl; intros H.
  - by apply Exists_nil in H.
  - destruct (is_space c) eqn:E; [|reflexivity].
    apply Exists_cons in H as [H|H]; [congruence | auto].
Qed.

Lemma rstrip_app_keep (a y : str) :
  a <> [] -> no_trail a -> exists y', rstrip (a ++ y) = a ++ y'.
Proof.
  intros Ha Ht. unfold rstrip. rewrite rev_app_distr.
  destruct (lstrip_app_keep (rev y) (rev a)) as [x' Hx]; [|exact Ht|].
  - intros E. apply Ha. by rewrite <- (rev_involutive a), E.
  - exists (rev x'). by rewrite Hx, rev_app_distr, rev_involutive.
Qed.

Lemma rstrip_no_trail (s : str) : no_trail (rstrip s).
Proof. unfold no_trail, rstrip. rewrite rev_involutive. apply lstrip_no_lead. Qed.

Lemma no_trail_suffix (s t : str) : t `suffix_of` s -> t <> [] -> no_trail s -> no_trail t.
Proof.
  intros [k ->] Ht. unfold no_trail. rewrite rev_app_distr.
  destruct (rev t) as [|c r] eqn:E.
  - exfalso. apply Ht. by rewrite <- (rev_involutive t), E.
  - simpl. auto.
Qed.

Lemma strip_solid (s : str) : solid s -> clean (strip s).
Proof.
  intros H. unfold strip.
  assert (Hr : solid (rstrip s)).
  { unfold rstrip. by apply solid_rev, solid_lstrip, solid_rev. }
  assert (Hne : lstrip (rstrip s) <> []) by by apply solid_nonempty, solid_lstrip.
  repeat split; [exact Hne | apply lstrip_no_lead |].
  eapply no_trail_suffix; [apply lstrip_suffix | exact Hne | apply rstrip_no_trail].
Qed.

Lemma solid_of_strip (s : str) : strip s <> [] -> solid s.
Proof.
  intros H. unfold solid.
  assert (Hs : forall t : str, lstrip t <> [] -> Exists (fun c => is_space c = false) t).
  { induction t as [|c t IH]; simpl; [done|].
    destruct (is_space c) eqn:E; intros Ht.
    - apply Exists_cons_tl. auto.
    - by apply Exists_cons_hd. }
  unfold strip in H. apply Hs in H. unfold rstrip in H.
  apply Exists_exists in H as (c & Hc & E).
  apply list_elem_of_In, in_rev, list_elem_of_In in Hc.
  assert (Hin : c ∈ rev s).
  { destruct (lstrip_suffix (rev s)) as [k Hk]. rewrite Hk. set_solver. }
  apply list_elem_of_In, in_rev, list_elem_of_In in Hin.
  apply Exists_exists. eauto.
Qed.

Lemma truthy_nonempty (s : str) : truthy s = true <-> s <> [].
Proof. destruct s; simpl; split; done. Qed.

Lemma strip_truthy_clean (s : str) : truthy (strip s) = true -> clean (strip s).
Proof. intros H. apply strip_solid, solid_of_strip. by apply truthy_nonempty. Qed.

Lemma strip_clean (s : str) : clean s -> strip s = s.
Proof.
  intros (Hne & Hl & Ht). unfold strip.
  assert (rstrip s = s) as ->; [|by apply lstrip_id].
  unfold rstrip. rewrite lstrip_id by exact Ht. apply rev_involutive.
Qed.

(** ** The example scenario *)

(** C1 (as amended).  For the text ["Introduzione. " * 5 + "A" * 1500] and the
    sizes 1000, 200, 100 the sentence loop makes two chunks, the five words
    (64 characters) and the 1500 letters; overlap puts the whole first chunk,
    which is no longer than 200 characters, and a space in front of the
    second; validation then skips the first chunk, which is shorter than
    [min_chunk_size], so that [chunk_text] returns exactly one chunk: the
    five words, a space and the 1500 letters. *)
Theorem C1_scenario_single_chunk (document_id : Z) (filename : str) :
  let chunks := segment text_chunker scenario_text document_id filename in
  map text chunks = [five_words; times (lit "A") 1500] /\
  len five_words = 64 /\
  _get_overlap_text five_words (overlap_size text_chunker) = five_words /\
  map text (_apply_overlap text_chunker chunks)
    = [five_words; five_words ++ lit " " ++ times (lit "A") 1500] /\
  map (cleanup text_chunker) (take 1 (_apply_overlap text_chunker chunks)) = [None] /\
  exists c,
    chunk_text text_chunker (PStr scenario_text) document_id filename = Return [c] /\
    text c = five_words ++ lit " " ++ times (lit "A") 1500.
Proof.
  split; [vm_compute; reflexivity|].
  split; [vm_compute; reflexivity|].
  split; [vm_compute; reflexivity|].
  split; [vm_compute; reflexivity|].
  split; [vm_compute; reflexivity|].
  eexists. split; vm_compute; reflexivity.
Qed.

Lemma scenario_chunk_count :
  match chunk_text text_chunker (PStr scenario_text) 1 (lit "doc.pdf") with
  | Return chunks => length chunks
  | Raise _ => 0%nat
  end = 1%nat.
Proof. vm_compute. reflexivity. Qed.

(** The scenario does not give two chunks. *)
Lemma C1_counterexample :
  ~ exists chunks,
      chunk_text text_chunker (PStr scenario_text) 1 (lit "doc.pdf") = Return chunks /\
      (2 <= length chunks)%nat.
Proof.
  intros (chunks & H & Hlen). pose proof scenario_chunk_count as L.
  rewrite H in L. lia.
Qed.

(** ** Paragraph thresholds *)

Lemma clean_paragraphs_filter (paragraphs : list str) :
  clean_paragraphs paragraphs
  = List.filter (fun p => 20 <? len p) (map strip paragraphs).
Proof.
  induction paragraphs as [|p ps IH]; simpl; [reflexivity|].
  rewrite IH. destruct (strip p); simpl; reflexivity.
Qed.

Lemma chunk_paragraphs_created (self : TextChunker) (document_id : Z) (filename : str)
    (paragraphs : list str) :
  forall chunks pos,
    chunk_paragraphs self document_id filename paragraphs chunks pos
    = chunks ++
      created self document_id filename
        (List.filter (fun p => min_chunk_size self <=? len (strip p)) paragraphs) pos.
Proof.
  induction paragraphs as [|p ps IH]; intros chunks pos; simpl.
  - by rewrite app_nil_r.
  - destruct (Z.ltb_spec (len (strip p)) (min_chunk_size self)) as [Hlt|Hge].
    + assert ((min_chunk_size self <=? len (strip p)) = false) as -> by lia.
      apply IH.
    + assert ((min_chunk_size self <=? len (strip p)) = true) as -> by lia.
      simpl. rewrite IH. by rewrite <- app_assoc.
Qed.

(** C2 (as amended).  [_split_into_paragraphs] keeps the pieces between blank
    lines, stripped, whose length is above 20 and drops every other one, so a
    piece is discarded exactly when its stripped length is at most 20.  Of the
    paragraphs kept, the loop of [chunk_text] skips those whose stripped
    length is below [min_chunk_size] (no chunk, no advance of the position);
    each other one is classified and chunked, in order. *)
Theorem C2_paragraph_thresholds (self : TextChunker) (document_id : Z) (filename t : str) :
  _split_into_paragraphs t
  = List.filter (fun p => 20 <? len p) (map strip (Re.split_blank_lines 0 t)) /\
  segment self t document_id filename
  = created self document_id filename
      (List.filter (fun p => min_chunk_size self <=? len (strip p))
         (_split_into_paragraphs (_preprocess_text t))) 0.
Proof.
  split.
  - apply clean_paragraphs_filter.
  - unfold segment. by rewrite chunk_paragraphs_created.
Qed.

(** A paragraph of exactly 20 characters is discarded although it is not
    shorter than 20, and a paragraph of 50 characters, kept by the split,
    is discarded before classification and chunk creation. *)
Lemma C2_counterexample :
  (len twenty = 20 /\ Re.split_blank_lines 0 twenty = [twenty] /\
   _split_into_paragraphs twenty = []) /\
  (len fifty = 50 /\ _split_into_paragraphs (_preprocess_text fifty) = [fifty] /\
   segment text_chunker fifty 1 (lit "doc.pdf") = []).
Proof. repeat split; vm_compute; reflexivity. Qed.

(** ** Totality of [chunk_text] *)

(** C10.  [chunk_text] returns a list on every input: what the [try] block
    returns when it returns, and the empty list when it raises; an argument
    that makes [re.sub] raise gives the same result as the empty text. *)
Theorem C10_chunk_text_total (self : TextChunker) (t : pyobj) (document_id : Z)
    (filename : str) :
  (exists chunks, chunk_text self t document_id filename = Return chunks) /\
  match chunk_text_try self t document_id filename with
  | Return chunks => chunk_text self t document_id filename = Return chunks
  | Raise _ => chunk_text self t document_id filename = Return []
  end /\
  chunk_text self PNone document_id filename = Return [] /\
  chunk_text self (PStr []) document_id filename = Return [].
Proof.
  destruct t as [s|]; unfold chunk_text, chunk_text_try; simpl;
    repeat split; eauto.
Qed.

(** ** Sentence boundaries *)

Lemma space_run_take (r : str) :
  Forall (fun c => is_space c = true) (take (Re.space_run r) r).
Proof.
  induction r as [|c r IH]; simpl; [constructor|].
  destruct (is_space c) eqn:E; simpl; [|constructor].
  constructor; assumption.
Qed.

Lemma space_run_drop (r : str) : no_lead (drop (Re.space_run r) r).
Proof.
  induction r as [|c r IH]; simpl; [exact I|].
  destruct (is_space c) eqn:E; simpl; [exact IH | exact E].
Qed.

Lemma space_run_head (s : ascii) (b : str) :
  is_space s = true -> (0 <? Re.space_run (s :: b))%nat = true.
Proof. simpl. intros ->. reflexivity. Qed.

Lemma no_boundary_short (p : ascii) : ~ has_boundary [p].
Proof. intros (a & q & s & b & E & _). destruct a as [|x [|y a]]; discriminate. Qed.

Lemma after_boundary_none (w : str) : Re.after_boundary w = None -> ~ has_boundary w.
Proof.
  induction w as [|c w IH]; intros H (a & p & s & b & E & Hp & Hs).
  - destruct a; discriminate.
  - simpl in H.
    destruct (is_terminator c && (0 <? Re.space_run w)%nat) eqn:T; [discriminate|].
    destruct a as [|x a]; simpl in E; injection E as -> ->.
    + rewrite Hp, (space_run_head _ _ Hs) in T. discriminate.
    + apply (IH H). exists a, p, s, b. done.
Qed.

Lemma after_boundary_some (w ov : str) :
  Re.after_boundary w = Some ov ->
  exists pre p ws,
    w = pre ++ p :: ws ++ ov /\ is_terminator p = true /\ ws <> [] /\
    Forall (fun c => is_space c = true) ws /\ no_lead ov /\
    ~ has_boundary (pre ++ [p]).
Proof.
  revert ov. induction w as [|c w IH]; intros ov; simpl; [discriminate|].
  destruct (is_terminator c && (0 <? Re.space_run w)%nat) eqn:T.
  - intros [= <-]. apply andb_true_iff in T as [Hc Hn].
    exists [], c, (take (Re.space_run w) w). simpl.
    rewrite take_drop. repeat split; try done.
    + destruct w as [|x w]; simpl in *; [discriminate|].
      destruct (is_space x); simpl in *; [discriminate | discriminate].
    + apply space_run_take.
    + apply space_run_drop.
    + apply no_boundary_short.
  - intros H. destruct (IH _ H) as (pre & p & ws & E & Hp & Hws & Hall & Hov & Hnb).
    exists (c :: pre), p, ws. simpl. rewrite <- E. repeat split; try done.
    intros (a & q & s & b & E' & Hq & Hs).
    destruct a as [|x a]; simpl in E'; injection E' as -> E'.
    + assert (Hw : w = s :: b ++ ws ++ ov).
      { rewrite E. change (p :: ws ++ ov) with ([p] ++ ws ++ ov).
        rewrite app_assoc, E'. reflexivity. }
      rewrite Hq, Hw, (space_run_head _ _ Hs) in T. discriminate.
    + apply Hnb. exists a, q, s, b. done.
Qed.


Lemma no_trail_last_solid (s : str) : s <> [] -> no_trail s -> solid s.
Proof.
  intros Hne Ht. unfold no_trail in Ht. unfold solid.
  destruct (rev s) as [|c r] eqn:E.
  - exfalso. apply Hne. by rewrite <- (rev_involutive s), E.
  - apply Exists_exists. exists c. split; [|exact Ht].
    apply list_elem_of_In, in_rev. rewrite E. by left.
Qed.


Lemma solid_app_r (a b : str) : solid b -> solid (a ++ b).
Proof. unfold solid. intros H. apply Exists_app. by right. Qed.


(** the tail that follows a boundary inside a text without trailing
    whitespace is not empty *)
Lemma after_boundary_nonempty (w ov : str) :
  no_trail w -> Re.after_boundary w = Some ov -> ov <> [].
Proof.
  intros Ht H.
  destruct (after_boundary_some _ _ H) as (pre & p & ws & E & _ & Hws & Hall & _ & _).
  intros ->. rewrite app_nil_r in E.
  unfold no_trail in Ht. rewrite E in Ht.
  change (p :: ws) with ([p] ++ ws) in Ht. rewrite !rev_app_distr in Ht.
  destruct (rev ws) as [|c r] eqn:Er.
  - apply Hws. by rewrite <- (rev_involutive ws), Er.
  - assert (Hc : is_space c = true).
    { rewrite Forall_forall in Hall. apply Hall.
      apply list_elem_of_In, in_rev. rewrite Er. by left. }
    simpl in Ht. congruence.
Qed.

(** ** The overlap text *)

Lemma len_nonneg (s : str) : 0 <= len s.
Proof. unfold len. lia. Qed.

Lemma window_is_drop (t : str) (size : Z) :
  0 < size < len t ->
  slice_from t (- size) = drop (length t - Z.to_nat size) t /\
  len (slice_from t (- size)) = size.
Proof.
  intros H. unfold slice_from, clip, len in *.
  assert ((- size <? 0) = true) as -> by lia.
  assert (Z.to_nat (Z.max (- size + Z.of_nat (length t)) 0)
          = (length t - Z.to_nat size)%nat) as -> by lia.
  split; [reflexivity|]. rewrite length_drop. lia.
Qed.

(** [_get_overlap_text] on a text that [strip] leaves alone *)
Lemma overlap_text_spec (t : str) (size : Z) :
  clean t -> 0 < size ->
  let ov := _get_overlap_text t size in
  ov <> [] /\ no_trail ov /\ ov `suffix_of` t /\ len ov <= size /\
  (len t <= size -> ov = t) /\
  (size < len t ->
   let window := drop (length t - Z.to_nat size) t in
   len window = size /\
   ((exists pre p ws,
        window = pre ++ p :: ws ++ ov /\ is_terminator p = true /\ ws <> [] /\
        Forall (fun c => is_space c = true) ws /\ no_lead ov /\
        ~ has_boundary (pre ++ [p]))
    \/ (~ has_boundary window /\ ov = window))).
Proof.
  intros (Hne & Hl & Ht) Hsize. unfold _get_overlap_text.
  destruct (Z.leb_spec (len t) size) as [Hle|Hgt]; simpl.
  - repeat split; try done; lia.
  - destruct (window_is_drop t size) as [Hw Hlen]; [lia|].
    rewrite Hw in *. set (window := drop (length t - Z.to_nat size) t) in *.
    assert (Hwne : window <> []).
    { intros E. rewrite E in Hlen. unfold len in Hlen. simpl in Hlen. lia. }
    assert (Hws : window `suffix_of` t) by apply suffix_drop.
    assert (Hwt : no_trail window) by by eapply no_trail_suffix.
    destruct (Re.after_boundary window) as [ov|] eqn:E.
    + pose proof (after_boundary_nonempty _ _ Hwt E) as Hov.
      destruct (after_boundary_some _ _ E) as (pre & p & ws & Ew & Hp & Hn & Hall & Hlead & Hnb).
      assert (Hsuf : ov `suffix_of` window).
      { exists (pre ++ p :: ws). rewrite Ew. by rewrite <- app_assoc. }
      repeat split.
      * exact Hov.
      * by eapply no_trail_suffix.
      * by etrans.
      * destruct Hsuf as [k Hk]. rewrite <- Hlen, Hk. unfold len.
        rewrite length_app. lia.
      * lia.
      * exact Hlen.
      * left. exists pre, p, ws. done.
    + repeat split; try done.
      * lia.
      * lia.
      * right. split; [by apply after_boundary_none | reflexivity].
Qed.

(** ** Chunks before overlap *)

Lemma clean_paragraphs_clean (paragraphs : list str) :
  Forall clean (clean_paragraphs paragraphs).
Proof.
  induction paragraphs as [|p ps IH]; simpl; [constructor|].
  destruct (truthy (strip p) && (20 <? len (strip p))) eqn:E; [|exact IH].
  apply andb_true_iff in E as [E _]. constructor; [|exact IH].
  by apply strip_truthy_clean.
Qed.

Lemma clean_sentences_clean (sentences : list str) :
  Forall clean (clean_sentences sentences).
Proof.
  induction sentences as [|p ps IH]; simpl; [constructor|].
  destruct (truthy (strip p) && (10 <? len (strip p))) eqn:E; [|exact IH].
  apply andb_true_iff in E as [E _]. constructor; [|exact IH].
  by apply strip_truthy_clean.
Qed.

Lemma accumulate_clean (self : TextChunker) (ct : ChunkType) (document_id : Z)
    (filename : str) (sentences : list str) :
  Forall clean sentences ->
  forall chunks current_chunk current_start,
    Forall (fun c => clean (text c)) chunks ->
    (current_chunk = [] \/ solid current_chunk) ->
    Forall (fun c => clean (text c))
      (accumulate self ct document_id filename sentences chunks current_chunk
         current_start).1.1 /\
    let cur := (accumulate self ct document_id filename sentences chunks current_chunk
                  current_start).1.2 in
    cur = [] \/ solid cur.
Proof.
  induction 1 as [|s ss Hs Hss IH]; intros chunks cur start Hch Hcur; simpl.
  - split; assumption.
  - destruct ((chunk_size self <? len cur + len s) && truthy cur) eqn:E.
    + apply andb_true_iff in E as [_ E]. apply truthy_nonempty in E.
      destruct Hcur as [->|Hcur]; [done|].
      apply IH.
      * apply Forall_app. split; [exact Hch|].
        constructor; [|constructor]. simpl. by apply strip_solid.
      * right. by apply solid_of_clean.
    + apply IH; [exact Hch|]. right.
      destruct (truthy cur); apply solid_app_r.
      * apply (solid_app_r [" "%char]). by apply solid_of_clean.
      * by apply solid_of_clean.
Qed.

Lemma create_chunks_clean (self : TextChunker) (paragraph : str) (start : Z)
    (ct : ChunkType) (document_id : Z) (filename : str) :
  clean paragraph ->
  Forall (fun c => clean (text c))
    (_create_chunks_from_paragraph self paragraph start ct document_id filename).
Proof.
  intros Hp. unfold _create_chunks_from_paragraph.
  destruct (len paragraph <=? chunk_size self).
  - constructor; [exact Hp | constructor].
  - pose proof (accumulate_clean self ct document_id filename
                  (_split_into_sentences paragraph)
                  (clean_sentences_clean _) [] [] start
                  (Forall_nil_2 _) (or_introl eq_refl)) as [H1 H2].
    destruct (accumulate self ct document_id filename
                (_split_into_sentences paragraph) [] [] start) as [[chunks cur] pos].
    simpl in *.
    destruct (truthy cur && (min_chunk_size self <=? len (strip cur))) eqn:E;
      [|exact H1].
    apply andb_true_iff in E as [E _]. apply truthy_nonempty in E.
    destruct H2 as [->|H2]; [done|].
    apply Forall_app. split; [exact H1|].
    constructor; [|constructor]. simpl. by apply strip_solid.
Qed.

Lemma created_clean (self : TextChunker) (document_id : Z) (filename : str)
    (kept : list str) :
  Forall clean kept ->
  forall pos, Forall (fun c => clean (text c)) (created self document_id filename kept pos).
Proof.
  induction 1 as [|p ps Hp Hps IH]; intros pos; simpl; [constructor|].
  apply Forall_app. split; [by apply create_chunks_clean | apply IH].
Qed.

Lemma Forall_list_filter {A} (P : A -> Prop) (f : A -> bool) (l : list A) :
  Forall P l -> Forall P (List.filter f l).
Proof.
  induction 1 as [|x l Hx Hl IH]; simpl; [constructor|].
  destruct (f x); [constructor|]; assumption.
Qed.

(** every chunk of [segment] has a non-empty text without leading or
    trailing whitespace *)
Lemma segment_clean (self : TextChunker) (t : str) (document_id : Z) (filename : str) :
  Forall (fun c => clean (text c)) (segment self t document_id filename).
Proof.
  unfold segment. rewrite chunk_paragraphs_created. simpl.
  apply created_clean, Forall_list_filter, clean_paragraphs_clean.
Qed.

(** ** Overlap and validation *)

Lemma apply_overlap_lookup (self : TextChunker) (chunks : list TextChunk) (i : nat)
    (prev cur : TextChunk) :
  chunks !! i = Some prev -> chunks !! S i = Some cur ->
  _apply_overlap self chunks !! S i
  = Some (let ov := _get_overlap_text (text prev) (overlap_size self) in
          if truthy ov
          then new_TextChunk (ov ++ " "%char :: text cur) (chunk_type cur)
                 (start_pos cur) (end_pos cur) (metadata cur)
          else cur).
Proof.
  intros Hp Hc. unfold _apply_overlap.
  pose proof (lookup_lt_Some _ _ _ Hc) as Hlen.
  assert ((length chunks <=? 1)%nat = false) as ->.
  { apply Nat.leb_gt. lia. }
  rewrite list_lookup_imap, Hc. simpl. rewrite Hp. reflexivity.
Qed.

(** what validation keeps of a chunk begins with the overlap text, up to
    the whitespace in front of it *)
Lemma cleanup_prefix (self : TextChunker) (c c' : TextChunk) (ov rest : str) :
  text c = ov ++ rest -> ov <> [] -> no_trail ov -> len ov <= max_chunk_size self ->
  cleanup self c = Some c' ->
  lstrip ov `prefix_of` text c'.
Proof.
  intros Et Hne Htr Hmax. unfold cleanup.
  destruct (len (strip (text c)) <? min_chunk_size self); [discriminate|].
  intros [= <-]. simpl.
  assert (Hy : exists y,
             (if max_chunk_size self <? len (text c)
              then slice_to (text c) (max_chunk_size self) else text c) = ov ++ y).
  { destruct (Z.ltb_spec (max_chunk_size self) (len (text c))) as [Hlt|Hge].
    - unfold slice_to, clip. pose proof (len_nonneg ov).
      assert ((max_chunk_size self <? 0) = false) as -> by lia.
      rewrite Z.min_l by lia.
      rewrite Et. eexists. apply take_app_ge. unfold len in *. lia.
    - rewrite Et. eauto. }
  destruct Hy as [y ->]. unfold strip.
  destruct (rstrip_app_keep ov y Hne Htr) as [y' ->].
  rewrite lstrip_app_solid by by apply no_trail_last_solid.
  by exists y'.
Qed.

(** C3 (as amended).  Let [prev] and [cur] be consecutive chunks of
    [chunk_text] as they stand before overlap, with
    [0 < overlap_size <= max_chunk_size].  The overlap text taken from [prev]
    is a non-empty suffix of its text: the whole text when that is no longer
    than [overlap_size]; otherwise the last [overlap_size] characters, cut
    after the first sentence boundary [[.!?]\s+] of that window when there is
    one, and the window itself when there is none.  After overlap the chunk
    of [cur] reads overlap text, space, text of [cur]; and the chunk that
    [chunk_text] returns for it, when validation keeps it, begins with the
    overlap text less its leading whitespace, still a non-empty suffix of the
    text of [prev]. *)
Theorem C3_overlap_prefix (self : TextChunker) (t : str) (document_id : Z)
    (filename : str) (i : nat) (prev cur : TextChunk) :
  0 < overlap_size self <= max_chunk_size self ->
  segment self t document_id filename !! i = Some prev ->
  segment self t document_id filename !! S i = Some cur ->
  let ov := _get_overlap_text (text prev) (overlap_size self) in
  (ov <> [] /\ ov `suffix_of` text prev /\
   (len (text prev) <= overlap_size self -> ov = text prev) /\
   (overlap_size self < len (text prev) ->
    let window := drop (length (text prev) - Z.to_nat (overlap_size self)) (text prev) in
    len window = overlap_size self /\
    ((exists pre p ws,
         window = pre ++ p :: ws ++ ov /\ is_terminator p = true /\ ws <> [] /\
         Forall (fun c => is_space c = true) ws /\ no_lead ov /\
         ~ has_boundary (pre ++ [p]))
     \/ (~ has_boundary window /\ ov = window)))) /\
  (lstrip ov <> [] /\ lstrip ov `suffix_of` text prev) /\
  exists c,
    _apply_overlap self (segment self t document_id filename) !! S i = Some c /\
    text c = ov ++ " "%char :: text cur /\
    forall c', cleanup self c = Some c' -> lstrip ov `prefix_of` text c'.
Proof.
  intros [Hpos Hmax] Hp Hc ov.
  pose proof (Forall_lookup_1 _ _ _ _ (segment_clean self t document_id filename) Hp)
    as Hclean. simpl in Hclean.
  destruct (overlap_text_spec (text prev) (overlap_size self) Hclean Hpos)
    as (Hne & Htr & Hsuf & Hlen & Hwhole & Hwin).
  fold ov in Hne, Htr, Hsuf, Hlen, Hwhole, Hwin.
  split; [exact (conj Hne (conj Hsuf (conj Hwhole Hwin)))|].
  split.
  - split.
    + by apply solid_nonempty, solid_lstrip, no_trail_last_solid.
    + etrans; [apply lstrip_suffix | exact Hsuf].
  - rewrite (apply_overlap_lookup self _ i prev cur Hp Hc). simpl. fold ov.
    assert (truthy ov = true) as -> by by apply truthy_nonempty.
    eexists. split; [reflexivity|]. split; [reflexivity|].
    intros c' Hc'. eapply cleanup_prefix; [| | |  | exact Hc'].
    + simpl. reflexivity.
    + exact Hne.
    + exact Htr.
    + lia.
Qed.

(** On [two_sentences] the first chunk is 900 characters long and has no
    sentence boundary in its last 200 characters, yet the second chunk that
    [chunk_text] returns does not begin with those 200 characters: it begins
    with the last 199, the leading space being stripped. *)
Lemma C3_counterexample :
  exists c0 c1,
    chunk_text text_chunker (PStr two_sentences) 1 (lit "doc.pdf") = Return [c0; c1] /\
    map text (segment text_chunker two_sentences 1 (lit "doc.pdf"))
      = [text c0; times (lit "C") 500] /\
    overlap_size text_chunker <= len (text c0) /\
    Re.after_boundary (slice_from (text c0) (- overlap_size text_chunker)) = None /\
    slice_from (text c0) (- overlap_size text_chunker) = lit " " ++ times (lit "B") 199 /\
    text c1 = times (lit "B") 199 ++ lit " " ++ times (lit "C") 500 /\
    ~ slice_from (text c0) (- overlap_size text_chunker) `prefix_of` text c1.
Proof.
  eexists _, _. split; [vm_compute; reflexivity|].
  split; [vm_compute; reflexivity|].
  split; [vm_compute; discriminate|].
  split; [vm_compute; reflexivity|].
  split; [vm_compute; reflexivity|].
  split; [vm_compute; reflexivity|].
  intros [k Hk]. vm_compute in Hk. discriminate.
Qed.

Lemma C3_witness :
  exists prev cur,
    segment text_chunker two_sentences 1 (lit "doc.pdf") !! 0%nat = Some prev /\
    segment text_chunker two_sentences 1 (lit "doc.pdf") !! 1%nat = Some cur /\
    let ov := _get_overlap_text (text prev) (overlap_size text_chunker) in
    lstrip ov <> [] /\ lstrip ov `suffix_of` text prev.
Proof.
  eexists _, _. split; [vm_compute; reflexivity|].
  split; [vm_compute; reflexivity|].
  refine (proj1 (proj2 (C3_overlap_prefix text_chunker two_sentences 1 (lit "doc.pdf")
                          0 _ _ _ _ _))).
  - unfold text_chunker. simpl. lia.
  - vm_compute. reflexivity.
  - vm_compute. reflexivity.
Defined.


(** ** The pipeline, stage by stage *)

Import StateExn Model BackgroundProcessor PipelineSpec.

Lemma chunk_text_returns (self : TextChunker) (t : pyobj) (document_id : Z)
    (filename : str) :
  exists chunks, chunk_text self t document_id filename = Return chunks.
Proof. destruct t; unfold chunk_text, chunk_text_try; simpl; eauto. Qed.

Lemma chunk_text_empty (self : TextChunker) (document_id : Z) (filename : str) :
  chunk_text self (PStr []) document_id filename = Return [].
Proof. reflexivity. Qed.

(** [add_document_embeddings] answers [True] or [False] *)
Lemma add_document_embeddings_total (b : VectorService.Backend) (project document : Z)
    (chunks : list str) (metas : list Dict) (c : VectorService.Client) :
  (forall op e, VectorService.fault b op = Some e -> is_Exception e = true) ->
  exists r c',
    VectorService.add_document_embeddings b project document chunks metas c
    = (Return r, c').
Proof.
  intros Hord. unfold VectorService.add_document_embeddings, try_except.
  destruct chunks as [|ch chunks]; [simpl; eauto|].
  destruct metas as [|m metas]; [simpl; eauto|].
  unfold bind, VectorService.get_or_create_collection,
    VectorService.generate_embeddings, VectorService.collection_add,
    VectorService.guard, bind, raise, ret, modify.
  destruct (VectorService.fault b VectorService.GetCollection) eqn:E1;
  destruct (VectorService.fault b VectorService.CreateCollection) eqn:E2;
  destruct (VectorService.fault b VectorService.Encode) eqn:E3;
  destruct (VectorService.fault b VectorService.Add) eqn:E4;
  destruct (c !! project) eqn:E5; simpl;
  repeat match goal with
         | H : VectorService.fault b _ = Some ?e |- _ =>
             rewrite (Hord _ _ H); clear H
         end; simpl; eauto.
Qed.

Lemma add_document_embeddings_works (b : VectorService.Backend) (project document : Z)
    (chunks : list str) (metas : list Dict) (c : VectorService.Client) :
  (forall op, VectorService.fault b op = None) ->
  chunks <> [] -> metas <> [] ->
  exists c',
    VectorService.add_document_embeddings b project document chunks metas c
    = (Return true, c').
Proof.
  intros Hok Hc Hm. unfold VectorService.add_document_embeddings, try_except.
  destruct chunks as [|ch chunks]; [done|].
  destruct metas as [|m metas]; [done|].
  unfold bind, VectorService.get_or_create_collection,
    VectorService.generate_embeddings, VectorService.collection_add,
    VectorService.guard, bind, raise, ret, modify.
  rewrite !Hok. destruct (c !! project); simpl; eauto.
Qed.

(** [_store_embeddings] answers [True] after the index took the entries and
    [False] otherwise; nothing but the index changes *)
Lemma store_embeddings_total (env : Collaborators) (document : Document)
    (chunks : list TextChunk) (s : State) :
  ordinary env ->
  exists r c',
    _store_embeddings env document chunks s
    = (Return r,
       if (r : bool)
       then log (Indexed (project_id document) (id document) (length chunks))
              (set_client c' s)
       else set_client c' s) /\
    (chunks = [] -> r = false /\ c' = client s).
Proof.
  intros (_ & _ & _ & Hord). unfold _store_embeddings, try_except.
  destruct chunks as [|ch chunks].
  - exists false, (client s). destruct s. simpl. done.
  - unfold bind at 1, on_client, zoom.
    destruct (add_document_embeddings_total (backend env) (project_id document)
                (id document) (map text (ch :: chunks))
                (imap (entry_metadata env document) (ch :: chunks)) (client s) Hord)
      as (r & c' & ->).
    exists r, c'. destruct r; simpl; split; done.
Qed.

Lemma store_embeddings_works (env : Collaborators) (document : Document)
    (chunks : list TextChunk) (s : State) :
  index_works env -> chunks <> [] ->
  exists c',
    _store_embeddings env document chunks s
    = (Return true,
       log (Indexed (project_id document) (id document) (length chunks))
         (set_client c' s)).
Proof.
  intros Hok Hne. unfold _store_embeddings, try_except.
  destruct chunks as [|ch chunks]; [done|].
  unfold bind at 1, on_client, zoom.
  destruct (add_document_embeddings_works (backend env) (project_id document)
              (id document) (map text (ch :: chunks))
              (imap (entry_metadata env document) (ch :: chunks)) (client s) Hok)
    as (c' & ->); [done | done |].
  exists c'. reflexivity.
Qed.

(** *** Rewriting the steps of a job *)

Lemma run_assign {A} (f : Document -> Document) (k : unit -> M Frame A)
    (d : Document) (s : State) :
  bind (assign f) k (d, s) = k tt (f d, s).
Proof. reflexivity. Qed.

Lemma run_the_document {A} (k : Document -> M Frame A) (d : Document) (s : State) :
  bind the_document k (d, s) = k d (d, s).
Proof. reflexivity. Qed.

Lemma commit_ok (env : Collaborators) (d : Document) (s : State) :
  commits env -> db_commit env (d, s) = (Return tt, (d, persist d s)).
Proof. intros H. unfold db_commit. simpl. by rewrite H. Qed.

Lemma run_commit {A} (env : Collaborators) (k : unit -> M Frame A)
    (d : Document) (s : State) :
  commits env -> bind (db_commit env) k (d, s) = k tt (d, persist d s).
Proof. intros H. unfold bind. by rewrite commit_ok. Qed.

Lemma run_on_state {A B} (m : M State A) (k : A -> M Frame B) (d : Document)
    (s s' : State) (r : outcome A) :
  m s = (r, s') ->
  bind (on_state m) k (d, s)
  = match r with
    | Return a => k a (d, s')
    | Raise e => (Raise e, (d, s'))
    end.
Proof. intros H. unfold bind, on_state, zoom. simpl. rewrite H. by destruct r. Qed.

Lemma run_on_state_ok {A B} (m : M State A) (k : A -> M Frame B) (d : Document)
    (s s' : State) (a : A) :
  m s = (Return a, s') -> bind (on_state m) k (d, s) = k a (d, s').
Proof. intros H. by rewrite (run_on_state _ _ _ _ _ _ H). Qed.

Lemma run_on_state_raise {A B} (m : M State A) (k : A -> M Frame B) (d : Document)
    (s s' : State) (e : exn) :
  m s = (Raise e, s') -> bind (on_state m) k (d, s) = (Raise e, (d, s')).
Proof. intros H. by rewrite (run_on_state _ _ _ _ _ _ H). Qed.

Lemma run_step {S A B} (m : M S A) (k : A -> M S B) (s s' : S) (a : A) :
  m s = (Return a, s') -> bind m k s = k a s'.
Proof. intros H. unfold bind. by rewrite H. Qed.


(** *** The stages *)

Lemma extract_text_frame (env : Collaborators) (document : Document) :
  exists r, (forall s, _extract_text env document s = (r, s)) /\
            (ordinary env -> ordinary_outcome r).
Proof.
  unfold _extract_text.
  destruct (is_pdf document).
  { eexists. split; [reflexivity|]. intros (H & _). apply H. }
  destruct (is_docx document).
  { eexists. split; [reflexivity|]. intros (_ & H & _). apply H. }
  eexists. split; [reflexivity|]. intros _. reflexivity.
Qed.

Lemma analyze_document_ordinary (env : Collaborators) (t f : str) :
  ordinary env -> ordinary_outcome (AIService.analyze_document (provider env) t f).
Proof.
  intros (_ & _ & H & _). unfold AIService.analyze_document.
  destruct (negb (truthy t) || (len (strip t) <? 100)); [reflexivity | apply H].
Qed.

Lemma analyse_failed (env : Collaborators) (t : str) (d : Document) (s : State) (e : exn) :
  AIService.analyze_document (provider env) t (original_filename d) = Raise e ->
  is_Exception e = true ->
  analyse env t (d, s) = (Return tt, (d, s)).
Proof.
  intros H He. unfold analyse, try_except. rewrite run_the_document.
  unfold bind, lift. rewrite H, He. reflexivity.
Qed.

Lemma analyse_done (env : Collaborators) (t : str) (d : Document) (s : State) (a : Dict) :
  commits env ->
  AIService.analyze_document (provider env) t (original_filename d) = Return a ->
  analyse env t (d, s)
  = (Return tt, (mark_as_analyzed a d, persist (mark_as_analyzed a d) s)).
Proof.
  intros Hc H. unfold analyse, try_except. rewrite run_the_document.
  unfold bind at 1, lift. rewrite H. rewrite run_assign, commit_ok by done.
  reflexivity.
Qed.

Lemma chunk_text_stage (document : Document) (t : str) (s : State)
    (r : outcome (list TextChunk)) :
  extracted_text document = Some t -> t <> [] ->
  chunk_text text_chunker (PStr t) (id document) (filename document) = r ->
  _chunk_text document s = (r, s).
Proof.
  intros H Ht <-. unfold _chunk_text. rewrite H. destruct t; [done|reflexivity].
Qed.

Lemma chunk_text_stage_empty (document : Document) (s : State) :
  extracted_text document = Some [] ->
  _chunk_text document s
  = (Raise (mkExn ValueError "No extracted text available"), s).
Proof. intros H. unfold _chunk_text. by rewrite H. Qed.

Lemma finish_fresh (env : Collaborators) (d : Document) (s : State) :
  commits env -> status d <> ANALYZED ->
  finish env true (d, s)
  = (Return tt, (analyzed_now env d, persist (analyzed_now env d) s)).
Proof.
  intros Hc Hs. unfold finish. rewrite run_the_document.
  rewrite bool_decide_eq_true_2 by done.
  rewrite !run_assign, commit_ok by done. reflexivity.
Qed.

Lemma finish_already (env : Collaborators) (d : Document) (s : State) :
  status d = ANALYZED -> finish env true (d, s) = (Return tt, (d, s)).
Proof.
  intros Hs. unfold finish. rewrite run_the_document.
  rewrite bool_decide_eq_false_2; [reflexivity|]. by intros H.
Qed.

Lemma on_error_ok (env : Collaborators) (e : exn) (d : Document) (s : State) :
  commits env ->
  on_error env e (d, s) = (Return tt, (failed e d, persist (failed e d) s)).
Proof.
  intros Hc. unfold on_error. rewrite !run_assign, commit_ok by done. reflexivity.
Qed.

Lemma release_spec (document_id : Z) (s : State) :
  exists s',
    release document_id s = (Return tt, s') /\
    (document_id ∉ current_tasks s') /\
    rows s' = rows s /\ client s' = client s /\ trace s' = trace s /\
    processing_queue s' = processing_queue s.
Proof.
  unfold release, modify. eexists. split; [reflexivity|].
  destruct (bool_decide (document_id ∈ current_tasks s)) eqn:E.
  - destruct s; simpl in *. split; [|repeat split; reflexivity].
    intros H. apply elem_of_difference in H as [_ H].
    apply H, elem_of_singleton. reflexivity.
  - apply bool_decide_eq_false in E. split; [exact E|]. repeat split; reflexivity.
Qed.

(** a job is the guarded pipeline followed by [release] *)
Lemma job_found (env : Collaborators) (document_id : Z) (document : Document)
    (s : State) (r : outcome unit) (f : Frame) :
  rows s !! document_id = Some document ->
  try_except (pipeline env document_id) (on_error env) (document, s) = (r, f) ->
  exists s',
    job env document_id s = (r, s') /\
    (document_id ∉ current_tasks s') /\
    rows s' = rows f.2 /\ client s' = client f.2 /\ trace s' = trace f.2.
Proof.
  intros Hrow Hrun. unfold job, try_finally, bind at 1, _get_document.
  rewrite Hrow, Hrun.
  destruct (release_spec document_id f.2) as (s' & -> & Hout & Hr & Hc & Ht & _).
  exists s'. by repeat split.
Qed.

(** whatever happens in it, a job leaves the set of current tasks without
    its document *)
Lemma job_releases (env : Collaborators) (document_id : Z) (s : State) :
  document_id ∉ current_tasks (job env document_id s).2.
Proof.
  unfold job, try_finally.
  match goal with |- context [match ?m s with _ => _ end] => destruct (m s) as [r s1] end.
  destruct (release_spec document_id s1) as (s' & -> & Hout & _). exact Hout.
Qed.

(** a job whose document is being processed is dropped: the queue loses it
    and nothing else changes *)
Lemma duplicate_job_discarded (s : State) (task : Job) (rest : list Job) :
  is_running s = true ->
  processing_queue s = task :: rest ->
  job_document_id task ∈ current_tasks s ->
  _processing_loop_turn s = set_processing_queue rest s.
Proof.
  intros Hrun Hq Hin. unfold _processing_loop_turn. rewrite Hrun, Hq.
  rewrite bool_decide_eq_true_2; [reflexivity|]. destruct s; exact Hin.
Qed.

(** a job whose document is not being processed is registered and
    scheduled *)
Lemma fresh_job_started (s : State) (task : Job) (rest : list Job) :
  is_running s = true ->
  processing_queue s = task :: rest ->
  job_document_id task ∉ current_tasks s ->
  _processing_loop_turn s
  = set_scheduled (scheduled s ++ [job_document_id task])
      (set_current_tasks ({[job_document_id task]} ∪ current_tasks s)
         (set_processing_queue rest s)).
Proof.
  intros Hrun Hq Hin. unfold _processing_loop_turn. rewrite Hrun, Hq.
  rewrite bool_decide_eq_false_2; [reflexivity|]. destruct s; exact Hin.
Qed.

(** ** The runs of a job *)

Local Opaque chunk_text.

Lemma trace_persist (d : Document) (s : State) :
  trace (persist d s) = trace s ++ [Committed d].
Proof. reflexivity. Qed.

Lemma rows_persist (d : Document) (s : State) :
  rows (persist d s) = <[id d := d]> (rows s).
Proof. reflexivity. Qed.

Lemma mark_as_analyzed_frame (a : Dict) (d : Document) :
  id (mark_as_analyzed a d) = id d /\
  filename (mark_as_analyzed a d) = filename d /\
  project_id (mark_as_analyzed a d) = project_id d /\
  extracted_text (mark_as_analyzed a d) = extracted_text d /\
  status (mark_as_analyzed a d) = ANALYZED /\
  analysis_result (mark_as_analyzed a d) = Some a.
Proof.
  unfold mark_as_analyzed, copy_key.
  destruct (dict_get "central_thesis" a), (dict_get "key_concepts" a),
    (dict_get "argumentative_structure" a), (dict_get "cited_sources" a);
    repeat split; reflexivity.
Qed.

Lemma mark_id (a : Dict) (d : Document) : id (mark_as_analyzed a d) = id d.
Proof. apply mark_as_analyzed_frame. Qed.

Lemma mark_filename (a : Dict) (d : Document) :
  filename (mark_as_analyzed a d) = filename d.
Proof. apply mark_as_analyzed_frame. Qed.

Lemma mark_extracted_text (a : Dict) (d : Document) :
  extracted_text (mark_as_analyzed a d) = extracted_text d.
Proof. apply mark_as_analyzed_frame. Qed.

Lemma mark_status (a : Dict) (d : Document) : status (mark_as_analyzed a d) = ANALYZED.
Proof. apply mark_as_analyzed_frame. Qed.

(** The block when semantic analysis fails.  Let a job find its document,
    and let extraction return a text, semantic analysis raise an [Exception],
    segmentation return at least one chunk and the index take the entries,
    every commit succeeding.  Then the job ends normally with the document
    ANALYZED; its analysis result is what it was when the job began; and
    ERROR is not among the states the job commits. *)
Lemma job_analysis_failure_not_fatal (env : Collaborators) (s : State)
    (document_id : Z) (document : Document) (t : str) (pages : Z) (e : exn)
    (chunks : list TextChunk) :
  commits env ->
  index_works env ->
  rows s !! document_id = Some document ->
  (forall s0, _extract_text env document s0 = (Return (t, pages), s0)) ->
  AIService.analyze_document (provider env) t (original_filename document) = Raise e ->
  is_Exception e = true ->
  chunk_text text_chunker (PStr t) (id document) (filename document) = Return chunks ->
  chunks <> [] ->
  exists s' d' new,
    job env document_id s = (Return tt, s') /\
    rows s' !! id document = Some d' /\
    status d' = ANALYZED /\
    analysis_result d' = analysis_result document /\
    trace s' = trace s ++ new /\
    shapes new = [Status PROCESSING; Status PROCESSED; Index; Status ANALYZED] /\
    (document_id ∉ current_tasks s').
Proof.
  intros Hcommit Hindex Hrow Hext Hana He Hchunk Hne.
  assert (Ht : t <> []).
  { intros ->. rewrite chunk_text_empty in Hchunk. congruence. }
  destruct (store_embeddings_works env (processed t pages document) chunks
              (persist (processed t pages document)
                 (persist (processing document) s)) Hindex Hne) as [c' Hstore].
  eassert (Hrun : try_except (pipeline env document_id) (on_error env) (document, s)
                  = (Return tt, _)).
  { unfold try_except, pipeline.
    rewrite run_assign, run_commit, run_the_document by done.
    rewrite (run_on_state_ok _ _ _ _ _ _ (Hext _)).
    rewrite !run_assign, run_commit by done. cbn [fst snd].
    erewrite run_step; [|by apply (analyse_failed _ _ _ _ e)].
    rewrite run_the_document.
    erewrite run_on_state_ok;
      [|apply (chunk_text_stage _ t); [reflexivity | exact Ht | exact Hchunk]].
    rewrite run_the_document.
    erewrite run_on_state_ok; [|exact Hstore].
    rewrite finish_fresh by done. reflexivity. }
  destruct (job_found _ _ _ _ _ _ Hrow Hrun) as (s' & Hjob & Hout & Hr & _ & Htr).
  exists s', (analyzed_now env (processed t pages document)). eexists.
  split; [exact Hjob|].
  split; [rewrite Hr; cbn [snd]; rewrite rows_persist; apply lookup_insert_eq|].
  split; [reflexivity|].
  split; [reflexivity|].
  split; [rewrite Htr; cbn [snd]; rewrite !trace_persist; cbn [trace log set_client];
          rewrite !trace_persist, <- !app_assoc; reflexivity|].
  split; [reflexivity | exact Hout].
Qed.

(** C4 (as amended).  Let the table hold the document, and let extraction
    return a non-empty text on which segmentation returns no chunk, semantic
    analysis returning or raising an [Exception] and every commit
    succeeding.  Then no vector entry is written: the vector database is
    after [_process_document] what it was before, and so it is after the
    block under its [async with]; and that block ends normally with the
    document in ERROR, its message being "Failed to store embeddings". *)
Theorem C4_no_chunks_is_an_error (env : Collaborators) (s : State)
    (document_id : Z) (document : Document) (t : str) (pages : Z) :
  commits env ->
  rows s !! document_id = Some document ->
  (forall s0, _extract_text env document s0 = (Return (t, pages), s0)) ->
  t <> [] ->
  ordinary_outcome
    (AIService.analyze_document (provider env) t (original_filename document)) ->
  chunk_text text_chunker (PStr t) (id document) (filename document) = Return [] ->
  client (_process_document env document_id s).2 = client s /\
  exists s' d' new,
    job env document_id s = (Return tt, s') /\
    rows s' !! id document = Some d' /\
    status d' = ERROR /\
    error_message d' = Some "Failed to store embeddings"%string /\
    client s' = client s /\
    trace s' = trace s ++ new /\
    (Index ∉ shapes new) /\
    (document_id ∉ current_tasks s').
Proof.
  intros Hcommit Hrow Hext Ht Hana Hchunk.
  split; [reflexivity|].
  set (boom := mkExn RuntimeError "Failed to store embeddings").
  destruct (AIService.analyze_document (provider env) t (original_filename document))
    as [a|e] eqn:Ea; simpl in Hana.
  - eassert (Hrun : try_except (pipeline env document_id) (on_error env) (document, s)
                    = (Return tt, _)).
    { unfold try_except, pipeline.
      rewrite run_assign, run_commit, run_the_document by done.
      rewrite (run_on_state_ok _ _ _ _ _ _ (Hext _)).
      rewrite !run_assign, run_commit by done. cbn [fst snd].
      erewrite run_step; [|by apply (analyse_done _ _ _ _ a)].
      rewrite run_the_document.
      erewrite run_on_state_ok;
        [|apply (chunk_text_stage _ t);
          [rewrite mark_extracted_text; reflexivity | exact Ht
          | rewrite mark_id, mark_filename; exact Hchunk]].
      rewrite run_the_document.
      erewrite run_on_state_ok; [|reflexivity].
      unfold finish, raise. cbn [is_Exception exn_class_of].
      rewrite on_error_ok by done. reflexivity. }
    destruct (job_found _ _ _ _ _ _ Hrow Hrun) as (s' & Hjob & Hout & Hr & Hc & Htr).
    exists s', (failed boom (mark_as_analyzed a (processed t pages document))). eexists.
    split; [exact Hjob|].
    split; [rewrite Hr; cbn [snd]; rewrite rows_persist;
            change (id document) with (id (processed t pages document));
            rewrite <- (mark_id a); apply lookup_insert_eq|].
    split; [reflexivity|].
    split; [reflexivity|].
    split; [rewrite Hc; reflexivity|].
    split; [rewrite Htr; cbn [snd]; rewrite !trace_persist, <- !app_assoc; reflexivity|].
    split; [|exact Hout].
    cbn. intros H. repeat (apply elem_of_cons in H as [H|H]; [discriminate|]).
    by apply elem_of_nil in H.
  - eassert (Hrun : try_except (pipeline env document_id) (on_error env) (document, s)
                    = (Return tt, _)).
    { unfold try_except, pipeline.
      rewrite run_assign, run_commit, run_the_document by done.
      rewrite (run_on_state_ok _ _ _ _ _ _ (Hext _)).
      rewrite !run_assign, run_commit by done. cbn [fst snd].
      erewrite run_step; [|by apply (analyse_failed _ _ _ _ e)].
      rewrite run_the_document.
      erewrite run_on_state_ok;
        [|apply (chunk_text_stage _ t); [reflexivity | exact Ht | exact Hchunk]].
      rewrite run_the_document.
      erewrite run_on_state_ok; [|reflexivity].
      unfold finish, raise. cbn [is_Exception exn_class_of].
      rewrite on_error_ok by done. reflexivity. }
    destruct (job_found _ _ _ _ _ _ Hrow Hrun) as (s' & Hjob & Hout & Hr & Hc & Htr).
    exists s', (failed boom (processed t pages document)). eexists.
    split; [exact Hjob|].
    split; [rewrite Hr; cbn [snd]; rewrite rows_persist; apply lookup_insert_eq|].
    split; [reflexivity|].
    split; [reflexivity|].
    split; [rewrite Hc; reflexivity|].
    split; [rewrite Htr; cbn [snd]; rewrite !trace_persist, <- !app_assoc; reflexivity|].
    split; [|exact Hout].
    cbn. intros H. repeat (apply elem_of_cons in H as [H|H]; [discriminate|]).
    by apply elem_of_nil in H.
Qed.

(** the steps of the pipeline up to the extraction of the text *)
Ltac enter_pipeline :=
  unfold try_except, pipeline;
  rewrite run_assign, run_commit, run_the_document by done.

(** the steps from the extracted text to the analysis *)
Ltac after_extraction :=
  rewrite !run_assign, run_commit by done; cbn [fst snd].

Ltac close_trace Htr :=
  rewrite Htr; cbn [snd]; cbn [trace log set_client];
  rewrite ?trace_persist; cbn [trace log set_client];
  rewrite ?trace_persist, <- ?app_assoc; reflexivity.

(** C6 (as amended).  [mark_as_analyzed], by which a successful analysis is
    stored, sets the status ANALYZED in the same call.  So in the block under
    the [async with] of [_process_document]: let the job find its document,
    every commit succeeding and the collaborators raising nothing but
    [Exception]s.  What the job commits and indexes is, in order:
    PROCESSING, ERROR when extraction raises; PROCESSING, PROCESSED, ERROR or
    PROCESSING, PROCESSED, index write, ANALYZED when semantic analysis
    raises; and PROCESSING, PROCESSED, ANALYZED, ERROR or PROCESSING,
    PROCESSED, ANALYZED, index write when semantic analysis returns.  A
    successful analysis sets ANALYZED at once, before segmentation and
    indexing, and ERROR can then follow ANALYZED; only after a failed
    analysis is ANALYZED set after the index write. *)
Theorem C6_run_shapes (env : Collaborators) (s : State) (document_id : Z)
    (document : Document) (r : outcome (str * Z)) :
  commits env ->
  ordinary env ->
  rows s !! document_id = Some document ->
  (forall s0, _extract_text env document s0 = (r, s0)) ->
  (forall a d,
     analysis_result (mark_as_analyzed a d) = Some a /\
     status (mark_as_analyzed a d) = ANALYZED) /\
  exists s' new,
    job env document_id s = (Return tt, s') /\
    trace s' = trace s ++ new /\
    In (shapes new) run_shapes /\
    match r with
    | Raise _ => shapes new = [Status PROCESSING; Status ERROR]
    | Return (t, _) =>
        match AIService.analyze_document (provider env) t (original_filename document) with
        | Raise _ =>
            shapes new = [Status PROCESSING; Status PROCESSED; Status ERROR] \/
            shapes new = [Status PROCESSING; Status PROCESSED; Index; Status ANALYZED]
        | Return _ =>
            shapes new = [Status PROCESSING; Status PROCESSED; Status ANALYZED; Status ERROR] \/
            shapes new = [Status PROCESSING; Status PROCESSED; Status ANALYZED; Index]
        end
    end.
Proof.
  intros Hcommit Hord Hrow Hext.
  split; [intros a d; split; apply mark_as_analyzed_frame|].
  assert (Hr : ordinary_outcome r).
  { destruct (extract_text_frame env document) as (r' & Hr' & Ho).
    specialize (Hext s). rewrite Hr' in Hext. injection Hext as <-. by apply Ho. }
  destruct r as [[t pages]|e]; simpl in Hr.
  2:{ (* extraction raises *)
    eassert (Hrun : try_except (pipeline env document_id) (on_error env) (document, s)
                    = (Return tt, _)).
    { enter_pipeline. rewrite (run_on_state_raise _ _ _ _ _ _ (Hext _)).
      rewrite Hr, on_error_ok by done. reflexivity. }
    destruct (job_found _ _ _ _ _ _ Hrow Hrun) as (s' & Hjob & _ & _ & _ & Htr).
    exists s'. eexists. split; [exact Hjob|].
    split; [close_trace Htr|]. split; [left|]; reflexivity. }
  pose proof (analyze_document_ordinary env t (original_filename document) Hord) as Ha.
  destruct (AIService.analyze_document (provider env) t (original_filename document))
    as [a|e] eqn:Ea; simpl in Ha.
  - (* analysis returns *)
    destruct t as [|ch t'].
    { eassert (Hrun : try_except (pipeline env document_id) (on_error env) (document, s)
                      = (Return tt, _)).
      { enter_pipeline. rewrite (run_on_state_ok _ _ _ _ _ _ (Hext _)).
        after_extraction.
        erewrite run_step; [|by apply (analyse_done _ _ _ _ a)].
        rewrite run_the_document.
        erewrite run_on_state_raise;
          [|apply chunk_text_stage_empty; rewrite mark_extracted_text; reflexivity].
        cbn [is_Exception exn_class_of]. rewrite on_error_ok by done. reflexivity. }
      destruct (job_found _ _ _ _ _ _ Hrow Hrun) as (s' & Hjob & _ & _ & _ & Htr).
      exists s'. eexists. split; [exact Hjob|].
      split; [close_trace Htr|].
      cbn. rewrite mark_status. split; [right; right; right; left|left]; reflexivity. }
    set (t := ch :: t') in *.
    destruct (chunk_text_returns text_chunker (PStr t) (id document) (filename document))
      as [chunks Hchunk].
    destruct (store_embeddings_total env
                (mark_as_analyzed a (processed t pages document)) chunks
                (persist (mark_as_analyzed a (processed t pages document))
                   (persist (processed t pages document)
                      (persist (processing document) s))) Hord)
      as (ok & c' & Hstore & _).
    assert (Hpre :
      pipeline env document_id (document, s)
      = bind (on_state (_store_embeddings env
                          (mark_as_analyzed a (processed t pages document)) chunks))
          (finish env)
          (mark_as_analyzed a (processed t pages document),
           persist (mark_as_analyzed a (processed t pages document))
             (persist (processed t pages document)
                (persist (processing document) s)))).
    { unfold pipeline.
      rewrite run_assign, run_commit, run_the_document by done.
      rewrite (run_on_state_ok _ _ _ _ _ _ (Hext _)).
      after_extraction.
      erewrite run_step; [|by apply (analyse_done _ _ _ _ a)].
      rewrite run_the_document.
      erewrite run_on_state_ok;
        [|apply (chunk_text_stage _ t);
          [rewrite mark_extracted_text; reflexivity | done
          | rewrite mark_id, mark_filename; exact Hchunk]].
      rewrite run_the_document. reflexivity. }
    destruct ok.
    + eassert (Hrun : try_except (pipeline env document_id) (on_error env) (document, s)
                      = (Return tt, _)).
      { unfold try_except. rewrite Hpre.
        erewrite run_on_state_ok; [|exact Hstore].
        rewrite finish_already by apply mark_status. reflexivity. }
      destruct (job_found _ _ _ _ _ _ Hrow Hrun) as (s' & Hjob & _ & _ & _ & Htr).
      exists s'. eexists. split; [exact Hjob|].
      split; [close_trace Htr|].
      cbn. rewrite mark_status.
      split; [right; right; right; right; left|right]; reflexivity.
    + eassert (Hrun : try_except (pipeline env document_id) (on_error env) (document, s)
                      = (Return tt, _)).
      { unfold try_except. rewrite Hpre.
        erewrite run_on_state_ok; [|exact Hstore].
        unfold finish, raise. cbn [is_Exception exn_class_of].
        rewrite on_error_ok by done. reflexivity. }
      destruct (job_found _ _ _ _ _ _ Hrow Hrun) as (s' & Hjob & _ & _ & _ & Htr).
      exists s'. eexists. split; [exact Hjob|].
      split; [close_trace Htr|].
      cbn. rewrite mark_status. split; [right; right; right; left|left]; reflexivity.
  - (* analysis raises *)
    destruct t as [|ch t'].
    { eassert (Hrun : try_except (pipeline env document_id) (on_error env) (document, s)
                      = (Return tt, _)).
      { enter_pipeline. rewrite (run_on_state_ok _ _ _ _ _ _ (Hext _)).
        after_extraction.
        erewrite run_step; [|by apply (analyse_failed _ _ _ _ e)].
        rewrite run_the_document.
        erewrite run_on_state_raise; [|apply chunk_text_stage_empty; reflexivity].
        cbn [is_Exception exn_class_of]. rewrite on_error_ok by done. reflexivity. }
      destruct (job_found _ _ _ _ _ _ Hrow Hrun) as (s' & Hjob & _ & _ & _ & Htr).
      exists s'. eexists. split; [exact Hjob|].
      split; [close_trace Htr|].
      split; [right; left|left]; reflexivity. }
    set (t := ch :: t') in *.
    destruct (chunk_text_returns text_chunker (PStr t) (id document) (filename document))
      as [chunks Hchunk].
    destruct (store_embeddings_total env (processed t pages document) chunks
                (persist (processed t pages document)
                   (persist (processing document) s)) Hord)
      as (ok & c' & Hstore & _).
    assert (Hpre :
      pipeline env document_id (document, s)
      = bind (on_state (_store_embeddings env (processed t pages document) chunks))
          (finish env)
          (processed t pages document,
           persist (processed t pages document) (persist (processing document) s))).
    { unfold pipeline.
      rewrite run_assign, run_commit, run_the_document by done.
      rewrite (run_on_state_ok _ _ _ _ _ _ (Hext _)).
      after_extraction.
      erewrite run_step; [|by apply (analyse_failed _ _ _ _ e)].
      rewrite run_the_document.
      erewrite run_on_state_ok;
        [|apply (chunk_text_stage _ t); [reflexivity | done | exact Hchunk]].
      rewrite run_the_document. reflexivity. }
    destruct ok.
    + eassert (Hrun : try_except (pipeline env document_id) (on_error env) (document, s)
                      = (Return tt, _)).
      { unfold try_except. rewrite Hpre.
        erewrite run_on_state_ok; [|exact Hstore].
        rewrite finish_fresh by done. reflexivity. }
      destruct (job_found _ _ _ _ _ _ Hrow Hrun) as (s' & Hjob & _ & _ & _ & Htr).
      exists s'. eexists. split; [exact Hjob|].
      split; [close_trace Htr|].
      split; [right; right; left|right]; reflexivity.
    + eassert (Hrun : try_except (pipeline env document_id) (on_error env) (document, s)
                      = (Return tt, _)).
      { unfold try_except. rewrite Hpre.
        erewrite run_on_state_ok; [|exact Hstore].
        unfold finish, raise. cbn [is_Exception exn_class_of].
        rewrite on_error_ok by done. reflexivity. }
      destruct (job_found _ _ _ _ _ _ Hrow Hrun) as (s' & Hjob & _ & _ & _ & Htr).
      exists s'. eexists. split; [exact Hjob|].
      split; [close_trace Htr|].
      split; [right; left|left]; reflexivity.
Qed.

Lemma example_commits (p : AIService.Provider) (b : VectorService.Backend) (t : str) :
  commits (Example.env p b t).
Proof. intros tr. reflexivity. Qed.

Lemma example_extracts (p : AIService.Provider) (b : VectorService.Backend) (t : str)
    (s0 : State) :
  _extract_text (Example.env p b t) Example.doc s0 = (Return (t, 1), s0).
Proof. reflexivity. Qed.

(** The text of document 1 has no indexable paragraph.  The task that the
    loop creates for it raises [TypeError] and leaves the document UPLOADED
    with no message; the block under the [async with], run on the same
    state, ends with the document in ERROR and the message
    "Failed to store embeddings", not "no indexable content". *)
Lemma C4_counterexample :
  let env := Example.env Example.working_provider Example.chroma Example.thin_text in
  chunk_text text_chunker (PStr Example.thin_text) 1 (lit "a.pdf") = Return [] /\
  (let run := _process_document env 1 Example.dispatched in
   run.1 = Raise (mkExn TypeError
     "'async_generator' object does not support the asynchronous context manager protocol") /\
   (status <$> rows run.2 !! 1) = Some UPLOADED /\
   (error_message <$> rows run.2 !! 1) = Some None) /\
  (let block := job env 1 Example.dispatched in
   block.1 = Return tt /\
   (status <$> rows block.2 !! 1) = Some ERROR /\
   (error_message <$> rows block.2 !! 1)
   = Some (Some "Failed to store embeddings"%string) /\
   (error_message <$> rows block.2 !! 1) <> Some (Some "no indexable content"%string) /\
   client block.2 = client Example.dispatched).
Proof.
  cbn zeta.
  split; [vm_compute; reflexivity|].
  split; [split; [reflexivity | split; vm_compute; reflexivity]|].
  split; [vm_compute; reflexivity|].
  split; [vm_compute; reflexivity|].
  split; [vm_compute; reflexivity|].
  split; [vm_compute; discriminate|].
  vm_compute. reflexivity.
Qed.

Lemma C4_witness :
  client (_process_document
            (Example.env Example.working_provider Example.chroma Example.thin_text)
            1 Example.dispatched).2
  = client Example.dispatched /\
  exists s' d' new,
    job (Example.env Example.working_provider Example.chroma Example.thin_text)
      1 Example.dispatched = (Return tt, s') /\
    rows s' !! id Example.doc = Some d' /\
    status d' = ERROR /\
    error_message d' = Some "Failed to store embeddings"%string /\
    client s' = client Example.dispatched /\
    trace s' = trace Example.dispatched ++ new /\
    (Index ∉ shapes new) /\
    (1 ∉ current_tasks s').
Proof.
  eapply (C4_no_chunks_is_an_error
            (Example.env Example.working_provider Example.chroma Example.thin_text)
            Example.dispatched 1 Example.doc Example.thin_text 1).
  - apply example_commits.
  - vm_compute. reflexivity.
  - apply example_extracts.
  - discriminate.
  - vm_compute. reflexivity.
  - vm_compute. reflexivity.
Defined.

(** The call that stores a successful analysis sets the terminal state:
    document 1, PROCESSED, is ANALYZED once its analysis is stored.  In the
    block under the [async with], ANALYZED is therefore committed before the
    index is written when analysis succeeds, and ERROR follows ANALYZED when
    the index then refuses the entries, the index holding nothing of the
    document. *)
Lemma C6_counterexample :
  (let document := processed Example.long_text 1 Example.doc in
   let analysis := [("central_thesis"%string, VStr (lit "thesis"))] in
   status document = PROCESSED /\
   analysis_result (mark_as_analyzed analysis document) = Some analysis /\
   status (mark_as_analyzed analysis document) = ANALYZED) /\
  (let block := job (Example.env Example.working_provider Example.chroma Example.long_text)
                  1 Example.dispatched in
   block.1 = Return tt /\
   shapes (trace block.2)
   = [Status PROCESSING; Status PROCESSED; Status ANALYZED; Index]) /\
  (let block := job (Example.env Example.working_provider Example.broken_chroma
                       Example.long_text) 1 Example.dispatched in
   block.1 = Return tt /\
   shapes (trace block.2)
   = [Status PROCESSING; Status PROCESSED; Status ANALYZED; Status ERROR] /\
   entries_of (client block.2) 1 1 = []).
Proof.
  split; [repeat split|].
  split; [split|split; [|split]]; vm_compute; reflexivity.
Qed.

Lemma C6_witness :
  (forall a d,
     analysis_result (mark_as_analyzed a d) = Some a /\
     status (mark_as_analyzed a d) = ANALYZED) /\
  exists s' new,
    job (Example.env Example.working_provider Example.broken_chroma Example.long_text)
      1 Example.dispatched = (Return tt, s') /\
    trace s' = trace Example.dispatched ++ new /\
    In (shapes new) run_shapes /\
    match AIService.analyze_document Example.working_provider Example.long_text
            (original_filename Example.doc) with
    | Raise _ =>
        shapes new = [Status PROCESSING; Status PROCESSED; Status ERROR] \/
        shapes new = [Status PROCESSING; Status PROCESSED; Index; Status ANALYZED]
    | Return _ =>
        shapes new = [Status PROCESSING; Status PROCESSED; Status ANALYZED; Status ERROR] \/
        shapes new = [Status PROCESSING; Status PROCESSED; Status ANALYZED; Index]
    end.
Proof.
  apply (C6_run_shapes
           (Example.env Example.working_provider Example.broken_chroma Example.long_text)
           Example.dispatched 1 Example.doc (Return (Example.long_text, 1))).
  - apply example_commits.
  - repeat split.
    + intros op e. simpl. destruct op; intros H; try discriminate.
      injection H as <-. reflexivity.
  - vm_compute. reflexivity.
  - apply example_extracts.
Defined.

(** ** The set of current tasks *)

(** C9.  [async with get_async_session() as db] raises before the [try] of
    [_process_document] is entered, for [get_async_session] makes an async
    generator: the job ends with a [TypeError] and the state as it was, so
    the document registered by the dispatch loop stays among the current
    tasks, the document is not touched, and a later job for it is dropped. *)
Theorem C9_session_fault_keeps_task (env : Collaborators) (document_id : Z) (s : State) :
  _process_document env document_id s
  = (Raise (mkExn TypeError
       "'async_generator' object does not support the asynchronous context manager protocol"),
     s) /\
  (let s1 := _processing_loop_turn Example.queued in
   scheduled s1 = [1] /\ (1 ∈ current_tasks s1) /\
   let s2 := (_process_document env 1 s1).2 in
   (1 ∈ current_tasks s2) /\ rows s2 = rows Example.start /\
   _processing_loop_turn (set_processing_queue [mkJob 1 1 0] s2) = s2).
Proof.
  split; [reflexivity|].
  cbn zeta. change ((_process_document env 1 (_processing_loop_turn Example.queued)).2)
    with (_processing_loop_turn Example.queued).
  split; [vm_compute; reflexivity|].
  assert (H1 : 1 ∈ current_tasks (_processing_loop_turn Example.queued)).
  { erewrite fresh_job_started; [| reflexivity | reflexivity | apply not_elem_of_empty].
    apply elem_of_union_l, elem_of_singleton. reflexivity. }
  split; [exact H1|]. split; [exact H1|].
  split; [vm_compute; reflexivity|].
  erewrite duplicate_job_discarded; [| reflexivity | reflexivity | exact H1].
  reflexivity.
Qed.


(** ** Reprocessing *)

(** C8.  [get_db] is not a name of the module, so [reprocess_document] raises
    [NameError] before its [try] is entered and leaves the state as it was:
    no entry is deleted, the document is not reset and nothing is queued.
    The block under the [async with], run on document 1 after a complete
    run, deletes its entries and no others, sets UPLOADED, clears the
    extracted text, the page count, the analysis time and the error message,
    keeps the analysis result, and queues the document. *)
Theorem C8_reprocess_raises (env : Collaborators) (document_id : Z) (s : State) :
  reprocess_document env document_id s
  = (Raise (mkExn NameError "name 'get_db' is not defined"), s) /\
  (let run := reprocess (Example.env Example.working_provider Example.chroma
                           Example.long_text) 1 Example.indexed in
   run.1 = Return tt /\
   entries_of (client run.2) 1 1 = [] /\
   entries_of (client run.2) 1 2 = [Example.entry 2] /\
   (status <$> rows run.2 !! 1) = Some UPLOADED /\
   (extracted_text <$> rows run.2 !! 1) = Some None /\
   (page_count <$> rows run.2 !! 1) = Some None /\
   (analyzed_at <$> rows run.2 !! 1) = Some None /\
   (error_message <$> rows run.2 !! 1) = Some None /\
   (analysis_result <$> rows run.2 !! 1)
   = Some (Some [("central_thesis"%string, VStr (lit "thesis"))]) /\
   (is_analyzed <$> rows run.2 !! 1) = Some true /\
   processing_queue run.2 = [mkJob 1 1 0]).
Proof.
  split; [reflexivity|].
  cbn zeta. repeat (split; [vm_compute; reflexivity|]). vm_compute. reflexivity.
Qed.

(** ** Retrieval *)

Import RetrievalSpec.

Lemma similarity_max (distance : Q) :
  AIService.similarity distance = Qmax 0 (1 - distance).
Proof.
  unfold AIService.similarity, Qmax, GenericMinMax.gmax.
  destruct (Qlt_le_dec distance 1) as [Hlt|Hge];
    destruct (0 ?= 1 - distance)%Q eqn:E; try reflexivity; exfalso.
  - apply Qeq_alt in E. lra.
  - apply Qgt_alt in E. lra.
  - apply Qlt_alt in E. lra.
Qed.

(** the loop of [retrieve_context] is decided by the entries that have a
    text and a metadata mapping: it returns one chunk for each of them, or
    raises the [Exception] of the schema at the first one it refuses *)
Lemma context_loop_kept (p : AIService.Provider) (docs : list (option str)) :
  forall (metas : list (option Dict)) (dists : list Q)
         (acc : list AIService.ChatContextChunk),
    (exists chunks,
       AIService.context_loop p docs metas dists acc = Return (acc ++ chunks) /\
       Forall2 (made_of p) (kept_entries docs metas dists) chunks) \/
    (exists e,
       AIService.context_loop p docs metas dists acc = Raise e /\
       is_Exception e = true /\
       Exists (rejected p) (kept_entries docs metas dists)).
Proof.
  assert (Hnone : forall acc : list AIService.ChatContextChunk,
             exists chunks, Return acc = Return (acc ++ chunks) /\
                            Forall2 (made_of p) [] chunks).
  { intros acc. exists []. rewrite app_nil_r. split; [reflexivity | constructor]. }
  induction docs as [|doc docs IH]; intros metas dists acc; [left; apply Hnone|].
  destruct metas as [|meta metas]; [left; apply Hnone|].
  destruct dists as [|distance dists]; [left; apply Hnone|].
  simpl.
  destruct doc as [[|c t]|]; try apply IH;
    destruct meta as [[|kv m]|]; try apply IH.
  cbn [AIService.has_text AIService.has_items andb].
  change (default (VInt 0) (dict_get "document_id" (kv :: m)))
    with (id_field (kv :: m)).
  destruct (AIService.as_int p (id_field (kv :: m))) as [z|e] eqn:Hz; cbn [Py.bind].
  - destruct (IH metas dists
                (acc ++ [AIService.mkChatContextChunk z (c :: t)
                           (AIService.similarity distance) (kv :: m)]))
      as [(chunks & -> & Hall)|(e & -> & He & Hbad)].
    + left. eexists (_ :: chunks). split; [by rewrite <- app_assoc|].
      constructor; [|exact Hall].
      repeat split; simpl; [apply similarity_max | exact Hz].
    + right. exists e. split; [reflexivity|]. split; [exact He|].
      apply Exists_cons_tl. exact Hbad.
  - right. exists e. split; [reflexivity|]. split.
    + unfold AIService.as_int in Hz. destruct (id_field (kv :: m)) as [i|v]; [discriminate|].
      destruct (AIService.int_of_str p v); [discriminate|]. by injection Hz as <-.
    + apply Exists_cons_hd. exists e. exact Hz.
Qed.

(** a chunk made of an entry has the score of one of the distances *)
Lemma made_of_distances (p : AIService.Provider) (docs : list (option str)) :
  forall (metas : list (option Dict)) (dists : list Q)
         (chunks : list AIService.ChatContextChunk),
    Forall2 (made_of p) (kept_entries docs metas dists) chunks ->
    Forall (fun chunk =>
              exists distance,
                In distance dists /\
                AIService.similarity_score chunk = Qmax 0 (1 - distance)) chunks.
Proof.
  induction docs as [|doc docs IH]; intros metas dists chunks Hall.
  { simpl in Hall. inversion Hall. constructor. }
  destruct metas as [|meta metas]; [simpl in Hall; inversion Hall; constructor|].
  destruct dists as [|distance dists]; [simpl in Hall; inversion Hall; constructor|].
  assert (Hweak : forall chunks',
             Forall (fun chunk => exists d, In d dists /\
                       AIService.similarity_score chunk = Qmax 0 (1 - d)) chunks' ->
             Forall (fun chunk => exists d, In d (distance :: dists) /\
                       AIService.similarity_score chunk = Qmax 0 (1 - d)) chunks').
  { intros chunks' H. eapply Forall_impl; [exact H|].
    intros chunk (d & Hin & E). exists d. split; [by right | exact E]. }
  simpl in Hall.
  destruct doc as [[|ch t]|]; try (apply Hweak, (IH metas dists); exact Hall);
    destruct meta as [[|kv m]|]; try (apply Hweak, (IH metas dists); exact Hall).
  inversion Hall as [|entry chunk entries chunks' Hmade Hrest]; subst.
  constructor.
  - exists distance. split; [by left|]. apply Hmade.
  - apply Hweak, (IH metas dists). exact Hrest.
Qed.

(** C7.  Let the search return a result.  [retrieve_context] returns, and
    what it returns is decided by the entries of the result that have a
    non-empty text and a non-empty metadata mapping, whatever the other
    entries hold: one chunk for each of them, in order, with the text and the
    metadata of the entry and the similarity score [max(0, 1 - distance)];
    or no chunk at all, when the schema refuses the [document_id] of one of
    them.  Either way every chunk of the context has the score
    [max(0, 1 - distance)] of an entry, and the entries without text or
    without metadata are left out and raise nothing. *)
Theorem C7_similarity_of_context (p : AIService.Provider) (b : VectorService.Backend)
    (project : Z) (query : str) (max_chunks : Z) (c c' : VectorService.Client)
    (r : VectorService.QueryResult)
    (docs : list (option str)) (metas : list (option Dict)) (dists : list Q)
    (dtl : list (list (option str))) (mtl : list (list (option Dict)))
    (stl : list (list Q)) :
  VectorService.search_similar_chunks b project query max_chunks c = (Return r, c') ->
  VectorService.documents r = docs :: dtl ->
  VectorService.metadatas r = metas :: mtl ->
  VectorService.distances r = dists :: stl ->
  exists chunks,
    AIService.retrieve_context p b project query max_chunks c = (Return chunks, c') /\
    (Forall2 (made_of p) (kept_entries docs metas dists) chunks \/
     chunks = [] /\ Exists (rejected p) (kept_entries docs metas dists)) /\
    Forall (fun chunk =>
              exists distance,
                In distance dists /\
                AIService.similarity_score chunk = Qmax 0 (1 - distance)) chunks.
Proof.
  intros Hsearch Hd Hm Hs.
  assert (Hrun : AIService.retrieve_context p b project query max_chunks c
                 = (match AIService.context_loop p docs metas dists [] with
                    | Return chunks => Return chunks
                    | Raise e => if is_Exception e then Return [] else Raise e
                    end, c')).
  { unfold AIService.retrieve_context, try_except.
    erewrite run_step; [|exact Hsearch].
    rewrite Hd, Hm, Hs. unfold bind, lift. simpl.
    destruct (AIService.context_loop p docs metas dists []) as [chunks|e];
      [reflexivity|]. by destruct (is_Exception e). }
  destruct (context_loop_kept p docs metas dists [])
    as [(chunks & Hloop & Hall)|(e & Hloop & He & Hbad)];
    rewrite Hloop in Hrun; [|rewrite He in Hrun].
  - exists chunks. split; [exact Hrun|]. split; [by left|].
    by apply (made_of_distances p docs metas dists).
  - exists []. split; [exact Hrun|]. split; [by right | constructor].
Qed.

Lemma C7_witness :
  exists chunks,
    AIService.retrieve_context Example.working_provider Example.answering 1
      (lit "ipsum") 5 ∅ = (Return chunks, {[1 := []]}) /\
    (Forall2 (made_of Example.working_provider)
       [(lit "Lorem ipsum", [("document_id"%string, VInt 1)], (1 # 4)%Q);
        (lit "sit amet", [("document_id"%string, VInt 2)], (5 # 4)%Q)] chunks \/
     chunks = [] /\
     Exists (rejected Example.working_provider)
       [(lit "Lorem ipsum", [("document_id"%string, VInt 1)], (1 # 4)%Q);
        (lit "sit amet", [("document_id"%string, VInt 2)], (5 # 4)%Q)]) /\
    Forall (fun chunk =>
              exists distance,
                In distance [(1 # 4)%Q; (1 # 2)%Q; (3 # 2)%Q; (5 # 4)%Q] /\
                AIService.similarity_score chunk = Qmax 0 (1 - distance)) chunks.
Proof.
  apply (C7_similarity_of_context Example.working_provider Example.answering 1
           (lit "ipsum") 5 ∅ {[1 := []]}
           (VectorService.nearest Example.answering [] [] 5)
           [Some (lit "Lorem ipsum"); Some []; Some (lit "dolor"); Some (lit "sit amet")]
           [Some [("document_id"%string, VInt 1)];
            Some [("document_id"%string, VStr (lit "one"))]; None;
            Some [("document_id"%string, VInt 2)]]
           [(1 # 4)%Q; (1 # 2)%Q; (3 # 2)%Q; (5 # 4)%Q] [] [] []).
  - vm_compute. reflexivity.
  - reflexivity.
  - reflexivity.
  - reflexivity.
Defined.

(** * Further properties

    Properties of the code beyond the claims of the specification: of the
    functions of the files above that the claims do not reach, and of what
    the functions they do reach guarantee besides. *)

Import TextSpec.

Local Transparent chunk_text.

(** ** Normalized text *)

Lemma single_spaced_weaken (b : bool) (s : str) :
  single_spaced b s -> single_spaced false s.
Proof. destruct s as [|c s]; simpl; [done|]. intros [H1 H2]. split; [|done]. intros E. destruct (H1 E). done. Qed.

Lemma single_spaced_app (b : bool) (x y : str) :
  single_spaced b (x ++ y) -> single_spaced b x /\ single_spaced false y.
Proof.
  revert b. induction x as [|c x IH]; intros b; simpl.
  - intros H. split; [done|]. by eapply single_spaced_weaken.
  - intros [H1 H2]. destruct (IH _ H2). done.
Qed.

Lemma single_spaced_suffix (s t : str) :
  t `suffix_of` s -> single_spaced false s -> single_spaced false t.
Proof. intros [k ->] H. by apply single_spaced_app in H as [_ H]. Qed.

Lemma single_spaced_prefix (s t : str) :
  t `prefix_of` s -> single_spaced false s -> single_spaced false t.
Proof. intros [k ->] H. by apply single_spaced_app in H as [H _]. Qed.

Lemma single_spaced_plain (b : bool) (s : str) :
  single_spaced b s -> Forall (fun c => is_newline c = false) s.
Proof.
  revert b. induction s as [|c s IH]; intros b; simpl; [constructor|].
  intros [H1 H2]. constructor; [|by eapply IH].
  destruct (is_space c) eqn:E; [destruct (H1 eq_refl) as [-> _]; reflexivity|].
  destruct (is_newline c) eqn:N; [|reflexivity].
  unfold is_newline in N. apply N.eqb_eq in N.
  unfold is_space, in_range in E. rewrite N in E. discriminate.
Qed.

Lemma sub_whitespace_single_spaced (in_run : bool) (t : str) :
  single_spaced in_run (Re.sub_whitespace in_run t).
Proof.
  revert in_run. induction t as [|c t IH]; intros in_run; simpl; [done|].
  destruct (is_space c) eqn:E.
  - destruct in_run; [apply IH|]. simpl. split; [done|]. apply IH.
  - simpl. rewrite E. split; [done|]. apply IH.
Qed.

Lemma sub_blank_lines_plain (t : str) :
  Forall (fun c => is_newline c = false) t -> Re.sub_blank_lines 0 t = t.
Proof.
  induction 1 as [|c t Hc Ht IH]; simpl; [reflexivity|].
  rewrite Hc. by rewrite IH.
Qed.

Lemma sub_page_numbers_skip (k : nat) (t : str) :
  Forall (fun c => is_newline c = false) t ->
  Re.sub_page_numbers k false t = drop k t.
Proof.
  intros H. revert k. induction H as [|c t Hc Ht IH]; intros k; simpl.
  - by destruct k.
  - destruct k as [|k]; simpl; rewrite Hc, IH; [by rewrite drop_0 | reflexivity].
Qed.

Lemma sub_page_numbers_plain (t : str) :
  Forall (fun c => is_newline c = false) t ->
  Re.sub_page_numbers 0 true t `suffix_of` t.
Proof.
  intros H. destruct H as [|c t Hc Ht]; simpl; [reflexivity|].
  rewrite Hc.
  destruct (if is_digit c then S <$> Re.page_number true t
            else None) as [[|n]|] eqn:E.
  - rewrite sub_page_numbers_skip by done. rewrite drop_0. reflexivity.
  - rewrite sub_page_numbers_skip by done. apply suffix_cons_r, suffix_drop.
  - rewrite sub_page_numbers_skip by done. rewrite drop_0. reflexivity.
Qed.

Lemma dot_not_space (c : ascii) : is_char "." c = true -> is_space c = false.
Proof. unfold is_char. intros H. apply Ascii.eqb_eq in H as <-. reflexivity. Qed.

Lemma sub_dots_single_spaced (dots : nat) (b : bool) (t : str) :
  ((0 < dots)%nat -> b = false) ->
  single_spaced b t -> single_spaced b (Re.sub_dots dots t).
Proof.
  revert dots b. induction t as [|c t IH]; intros dots b Hb; [done|].
  intros [H1 H2]. cbn [Re.sub_dots]. destruct (is_char "." c) eqn:E.
  - pose proof (dot_not_space _ E) as Hs.
    destruct (dots <? 3)%nat eqn:D.
    + split; [exact H1|]. apply IH; [done | exact H2].
    + rewrite Hb by (apply Nat.ltb_ge in D; lia).
      rewrite Hs in H2. apply IH; [done | exact H2].
  - split; [exact H1|]. apply IH; [lia | exact H2].
Qed.

Lemma sub_dots_Forall (P : ascii -> Prop) (dots : nat) (t : str) :
  Forall P t -> Forall P (Re.sub_dots dots t).
Proof.
  intros H. revert dots. induction H as [|c t Hc Ht IH]; intros dots; [constructor|].
  cbn [Re.sub_dots]. destruct (is_char "." c); [destruct (dots <? 3)%nat|];
    first [apply IH | constructor; [exact Hc | apply IH]].
Qed.

Lemma sub_whitespace_Forall (P : ascii -> Prop) (in_run : bool) (t : str) :
  P " "%char -> Forall P t -> Forall P (Re.sub_whitespace in_run t).
Proof.
  intros Hsp H. revert in_run. induction H as [|c t Hc Ht IH]; intros in_run; simpl;
    [constructor|].
  destruct (is_space c); [destruct in_run|];
    first [apply IH | constructor; [first [exact Hsp | exact Hc] | apply IH]].
Qed.

Lemma Forall_suffix {A} (P : A -> Prop) (s t : list A) :
  t `suffix_of` s -> Forall P s -> Forall P t.
Proof. intros [k ->] H. by apply Forall_app in H as [_ H]. Qed.

Lemma rstrip_prefix (s : str) : rstrip s `prefix_of` s.
Proof.
  unfold rstrip. destruct (lstrip_suffix (rev s)) as [k Hk].
  exists (rev k). rewrite <- rev_app_distr, <- Hk. by rewrite rev_involutive.
Qed.

Lemma strip_Forall (P : ascii -> Prop) (s : str) : Forall P s -> Forall P (strip s).
Proof.
  intros H. unfold strip. eapply Forall_suffix; [apply lstrip_suffix|].
  destruct (rstrip_prefix s) as [k Hk]. rewrite Hk in H. by apply Forall_app in H as [H _].
Qed.

Lemma strip_single_spaced (s : str) : single_spaced false s -> single_spaced false (strip s).
Proof.
  intros H. unfold strip. eapply single_spaced_suffix; [apply lstrip_suffix|].
  eapply single_spaced_prefix; [apply rstrip_prefix | exact H].
Qed.

Lemma strip_idempotent (s : str) : strip (strip s) = strip s.
Proof.
  destruct (strip s) as [|c r] eqn:E; [reflexivity|]. rewrite <- E.
  apply strip_clean, strip_solid, solid_of_strip. by rewrite E.
Qed.

Lemma strip_blank (s : str) : ~ solid s -> strip s = [].
Proof.
  intros H. destruct (strip s) as [|c r] eqn:E; [reflexivity|].
  exfalso. apply H, solid_of_strip. by rewrite E.
Qed.

(** *** Lengths *)

Lemma suffix_len (s t : str) : t `suffix_of` s -> len t <= len s.
Proof. intros [k ->]. unfold len. rewrite length_app. lia. Qed.

Lemma prefix_len (s t : str) : t `prefix_of` s -> len t <= len s.
Proof. intros [k ->]. unfold len. rewrite length_app. lia. Qed.

Lemma strip_len (s : str) : len (strip s) <= len s.
Proof.
  unfold strip. etrans; [apply suffix_len, lstrip_suffix | apply prefix_len, rstrip_prefix].
Qed.

Lemma sub_whitespace_len (in_run : bool) (t : str) :
  len (Re.sub_whitespace in_run t) <= len t.
Proof.
  unfold len. revert in_run. induction t as [|c t IH]; intros in_run; [simpl; lia|].
  cbn [Re.sub_whitespace]. pose proof (IH true). pose proof (IH false).
  destruct (is_space c); [destruct in_run|]; cbn [length]; lia.
Qed.

Lemma sub_dots_len (dots : nat) (t : str) : len (Re.sub_dots dots t) <= len t.
Proof.
  unfold len. revert dots. induction t as [|c t IH]; intros dots; [simpl; lia|].
  cbn [Re.sub_dots]. pose proof (IH (S dots)). pose proof (IH 0%nat).
  destruct (is_char "." c); [destruct (dots <? 3)%nat|]; cbn [length]; lia.
Qed.

(** *** The passes of [_preprocess_text], one after the other *)

Lemma preprocess_passes (t : str) :
  let s := Re.sub_whitespace false t in
  _preprocess_text t = strip (Re.sub_dots 0 (Re.sub_page_numbers 0 true s)) /\
  single_spaced false s /\
  Re.sub_page_numbers 0 true s `suffix_of` s.
Proof.
  intros s. pose proof (sub_whitespace_single_spaced false t) as Hs. fold s in Hs.
  pose proof (single_spaced_plain _ _ Hs) as Hplain.
  split; [|split; [exact Hs | by apply sub_page_numbers_plain]].
  unfold _preprocess_text. fold s. by rewrite sub_blank_lines_plain.
Qed.

(** the normal form of [_preprocess_text] *)
Lemma preprocess_text_spec (t : str) :
  let p := _preprocess_text t in
  single_spaced false p /\
  Forall (fun c => is_newline c = false) p /\
  strip p = p /\
  len p <= len t.
Proof.
  intros p. destruct (preprocess_passes t) as (Ep & Hs & Hsuf).
  assert (Hp : single_spaced false p).
  { unfold p. rewrite Ep. apply strip_single_spaced, sub_dots_single_spaced; [lia|].
    by eapply single_spaced_suffix. }
  split; [exact Hp|]. split; [by eapply single_spaced_plain|].
  split; [unfold p; rewrite Ep; apply strip_idempotent|].
  unfold p. rewrite Ep.
  etrans; [apply strip_len|]. etrans; [apply sub_dots_len|].
  etrans; [by apply suffix_len|]. apply sub_whitespace_len.
Qed.

Lemma preprocess_text_blank (t : str) :
  Forall (fun c => is_space c = true) t -> _preprocess_text t = [].
Proof.
  intros H. destruct (preprocess_passes t) as (-> & _ & Hsuf).
  apply strip_blank. intros Hsolid. apply Exists_exists in Hsolid as (c & Hc & E).
  assert (Hall : Forall (fun c => is_space c = true)
                   (Re.sub_dots 0 (Re.sub_page_numbers 0 true (Re.sub_whitespace false t)))).
  { apply sub_dots_Forall. eapply Forall_suffix; [exact Hsuf|].
    by apply sub_whitespace_Forall. }
  rewrite Forall_forall in Hall. specialize (Hall c Hc). congruence.
Qed.

(** ** One paragraph *)

Lemma split_blank_lines_plain (t : str) :
  Forall (fun c => is_newline c = false) t -> Re.split_blank_lines 0 t = [t].
Proof.
  induction 1 as [|c t Hc Ht IH]; simpl; [reflexivity|].
  by rewrite Hc, IH.
Qed.

Lemma split_into_paragraphs_plain (p : str) :
  Forall (fun c => is_newline c = false) p -> strip p = p ->
  _split_into_paragraphs p = if 20 <? len p then [p] else [].
Proof.
  intros Hplain Hstrip. unfold _split_into_paragraphs.
  rewrite split_blank_lines_plain by done. simpl. rewrite Hstrip.
  destruct p as [|c p]; [reflexivity|]. simpl. by destruct (20 <? len (c :: p)).
Qed.

(** the normalized text is the one paragraph there is *)
Lemma segment_paragraph (self : TextChunker) (t : str) (document_id : Z)
    (filename : str) :
  let p := _preprocess_text t in
  _split_into_paragraphs p = (if 20 <? len p then [p] else []) /\
  segment self t document_id filename
  = if (20 <? len p) && (min_chunk_size self <=? len p)
    then _create_chunks_from_paragraph self p 0 (_detect_chunk_type p)
           document_id filename
    else [].
Proof.
  intros p. destruct (preprocess_text_spec t) as (_ & Hplain & Hstrip & _).
  fold p in Hplain, Hstrip.
  pose proof (split_into_paragraphs_plain p Hplain Hstrip) as Hsplit.
  split; [exact Hsplit|]. unfold segment. fold p. rewrite Hsplit.
  destruct (20 <? len p); [|reflexivity]. simpl. rewrite Hstrip.
  destruct (Z.ltb_spec (len p) (min_chunk_size self));
    destruct (Z.leb_spec (min_chunk_size self) (len p)); try lia; reflexivity.
Qed.

(** ** The sentence loop *)

(** an invariant of the loop of [_create_chunks_from_paragraph] holds of
    what the loop returns *)
Lemma accumulate_invariant (I : list TextChunk -> str -> Z -> Prop)
    (self : TextChunker) (ct : ChunkType) (document_id : Z) (filename : str)
    (sentences : list str) :
  (forall chunks cur start s,
     In s sentences -> I chunks cur start -> cur <> [] ->
     chunk_size self < len cur + len s ->
     I (chunks ++ [new_TextChunk (strip cur) ct start (start + len cur)
                     (chunk_metadata document_id filename chunks)])
       s (start + len (strip cur))) ->
  (forall chunks cur start s,
     In s sentences -> I chunks cur start ->
     cur = [] \/ len cur + len s <= chunk_size self ->
     I chunks (if truthy cur then cur ++ " "%char :: s else cur ++ s) start) ->
  forall chunks cur start,
    I chunks cur start ->
    let r := accumulate self ct document_id filename sentences chunks cur start in
    I r.1.1 r.1.2 r.2.
Proof.
  induction sentences as [|s ss IH]; intros Hemit Hjoin chunks cur start HI; [exact HI|].
  cbn [accumulate].
  destruct ((chunk_size self <? len cur + len s) && truthy cur) eqn:E.
  - apply andb_true_iff in E as [E1 E2]. apply truthy_nonempty in E2.
    apply IH.
    + intros; apply Hemit; auto. by right.
    + intros; apply Hjoin; auto. by right.
    + apply Hemit; [by left | exact HI | exact E2 | lia].
  - apply IH.
    + intros; apply Hemit; auto. by right.
    + intros; apply Hjoin; auto. by right.
    + apply Hjoin; [by left | exact HI |].
      apply andb_false_iff in E as [E|E]; [right; lia|].
      left. by destruct cur.
Qed.

(** what is joined from sentences that [strip] leaves alone is left alone
    too *)
Lemma clean_join (a b : str) : clean a -> clean b -> clean (a ++ " "%char :: b).
Proof.
  intros (Ha & Hla & _) (Hb & _ & Htb). split; [by destruct a|].
  split; [by destruct a|].
  unfold no_trail in *. rewrite rev_app_distr. simpl. rewrite <- app_assoc.
  destruct (rev b) as [|c r] eqn:E; [|exact Htb].
  exfalso. apply Hb. by rewrite <- (rev_involutive b), E.
Qed.

Lemma tiles_app (a b c : Z) (xs ys : list TextChunk) :
  tiles a xs b -> tiles b ys c -> tiles a (xs ++ ys) c.
Proof.
  revert a. induction xs as [|x xs IH]; intros a; simpl.
  - by intros ->.
  - intros (H1 & H2 & H3) H. repeat split; auto.
Qed.

Lemma split_into_sentences_clean (paragraph : str) :
  forall s, In s (_split_into_sentences paragraph) -> clean s.
Proof.
  intros s Hs. pose proof (clean_sentences_clean (Re.split_sentence_breaks 0 paragraph)) as H.
  rewrite Forall_forall in H. apply H. by apply list_elem_of_In.
Qed.

(** the chunks of a paragraph: their type, their sizes and their places *)
Lemma create_chunks_spec (self : TextChunker) (paragraph : str) (start : Z)
    (ct : ChunkType) (document_id : Z) (filename : str) :
  let chunks :=
    _create_chunks_from_paragraph self paragraph start ct document_id filename in
  Forall (fun c => chunk_type c = ct) chunks /\
  Forall (fun c => len (text c) <= chunk_size self + 1 \/
                   In (text c) (_split_into_sentences paragraph)) chunks /\
  exists stop, tiles start chunks stop.
Proof.
  unfold _create_chunks_from_paragraph.
  destruct (Z.leb_spec (len paragraph) (chunk_size self)) as [Hle|Hgt].
  { simpl. split; [by repeat constructor|].
    split; [constructor; [left; simpl; lia | constructor]|].
    eexists. repeat split; reflexivity. }
  set (sentences := _split_into_sentences paragraph).
  set (I := fun (chunks : list TextChunk) (cur : str) (pos : Z) =>
              Forall (fun c => chunk_type c = ct) chunks /\
              Forall (fun c => len (text c) <= chunk_size self + 1 \/
                               In (text c) sentences) chunks /\
              tiles start chunks pos /\
              (cur = [] \/ (clean cur /\
                            (len cur <= chunk_size self + 1 \/ In cur sentences)))).
  assert (HI : let r := accumulate self ct document_id filename sentences [] [] start in
               I r.1.1 r.1.2 r.2).
  { apply (accumulate_invariant I).
    - intros chunks cur pos s Hs (H1 & H2 & H3 & H4) Hne _.
      destruct H4 as [->|(Hclean & Hsize)]; [done|].
      rewrite (strip_clean _ Hclean).
      split; [apply Forall_app; split; [exact H1 | by repeat constructor]|].
      split; [apply Forall_app; split; [exact H2 | constructor; [exact Hsize | constructor]]|].
      split; [eapply tiles_app; [exact H3 | by cbn [tiles new_TextChunk start_pos end_pos text]]|].
      right. split; [by apply (split_into_sentences_clean paragraph) | by right].
    - intros chunks cur pos s Hs (H1 & H2 & H3 & H4) Hcase.
      repeat split; try done. right.
      pose proof (split_into_sentences_clean paragraph s Hs) as Hclean.
      destruct H4 as [->|(Hcur & Hsize)]; [simpl; split; [exact Hclean | by right]|].
      assert (truthy cur = true) as -> by (apply truthy_nonempty, Hcur).
      split; [by apply clean_join|]. left.
      destruct Hcase as [->|Hcase]; [by destruct Hcur|].
      unfold len in *. rewrite length_app. simpl. lia.
    - split; [constructor|]. split; [constructor|]. split; [reflexivity|]. by left. }
  destruct (accumulate self ct document_id filename sentences [] [] start)
    as [[chunks cur] pos].
  destruct HI as (H1 & H2 & H3 & H4). simpl in H1, H2, H3, H4.
  destruct (truthy cur && (min_chunk_size self <=? len (strip cur))) eqn:E;
    [|split; [exact H1 | split; [exact H2 | by exists pos]]].
  apply andb_true_iff in E as [E _]. apply truthy_nonempty in E.
  destruct H4 as [->|(Hclean & Hsize)]; [done|].
  rewrite (strip_clean _ Hclean).
  split; [apply Forall_app; split; [exact H1 | by repeat constructor]|].
  split; [apply Forall_app; split; [exact H2 | constructor; [exact Hsize | constructor]]|].
  exists (pos + len cur). eapply tiles_app; [exact H3|].
  by cbn [tiles new_TextChunk start_pos end_pos text].
Qed.

(** ** Overlap and validation, chunk by chunk *)

Lemma apply_overlap_length (self : TextChunker) (chunks : list TextChunk) :
  length (_apply_overlap self chunks) = length chunks.
Proof.
  unfold _apply_overlap. destruct (length chunks <=? 1)%nat; [reflexivity|].
  apply length_imap.
Qed.

Lemma apply_overlap_place (self : TextChunker) (chunks : list TextChunk) (i : nat)
    (c c' : TextChunk) :
  chunks !! i = Some c -> _apply_overlap self chunks !! i = Some c' ->
  place c' = place c /\ text c `suffix_of` text c' /\ (i = 0%nat -> c' = c).
Proof.
  intros Hc. unfold _apply_overlap.
  destruct (length chunks <=? 1)%nat.
  { rewrite Hc. intros [= <-]. done. }
  rewrite list_lookup_imap, Hc. simpl. destruct i as [|j].
  { intros [= <-]. done. }
  destruct (chunks !! j) as [prev|]; [|intros [= <-]; done].
  destruct (truthy (_get_overlap_text (text prev) (overlap_size self)));
    intros [= <-]; [|done].
  split; [reflexivity|]. split; [|done]. simpl.
  exists (_get_overlap_text (text prev) (overlap_size self) ++ [" "%char]).
  by rewrite <- app_assoc.
Qed.

Lemma apply_overlap_Forall2 (self : TextChunker) (chunks : list TextChunk) :
  Forall2 (fun c c' => place c' = place c /\ text c `suffix_of` text c')
    chunks (_apply_overlap self chunks).
Proof.
  apply Forall2_same_length_lookup_2; [by rewrite apply_overlap_length|].
  intros i c c' Hc Hc'. destruct (apply_overlap_place _ _ _ _ _ Hc Hc') as (H1 & H2 & _).
  done.
Qed.

Lemma apply_overlap_places (self : TextChunker) (chunks : list TextChunk) :
  map place (_apply_overlap self chunks) = map place chunks.
Proof.
  pose proof (apply_overlap_Forall2 self chunks) as H.
  generalize dependent (_apply_overlap self chunks). intros l H.
  induction H as [|c c' k k' [Hp _] _ IH]; simpl; [reflexivity|]. by rewrite Hp, IH.
Qed.

Lemma Forall_sublist {A} (P : A -> Prop) (k l : list A) :
  k `sublist_of` l -> Forall P l -> Forall P k.
Proof.
  rewrite !Forall_forall. intros Hsub H x Hx. apply H. by eapply elem_of_sublist.
Qed.

Lemma cleanup_spec (self : TextChunker) (c c' : TextChunk) :
  cleanup self c = Some c' ->
  place c' = place c /\ strip (text c') = text c' /\
  min_chunk_size self <= len (strip (text c)) /\
  (0 <= max_chunk_size self -> len (text c') <= max_chunk_size self).
Proof.
  unfold cleanup.
  destruct (Z.ltb_spec (len (strip (text c))) (min_chunk_size self)) as [|Hmin];
    [discriminate|].
  intros [= <-]. simpl. split; [reflexivity|]. split; [apply strip_idempotent|].
  split; [exact Hmin|]. intros Hmax.
  etrans; [apply strip_len|].
  destruct (Z.ltb_spec (max_chunk_size self) (len (text c))) as [Hlt|Hge]; [|exact Hge].
  unfold slice_to, clip, len in *. rewrite length_take.
  destruct (max_chunk_size self <? 0) eqn:E; lia.
Qed.

Lemma validate_spec (self : TextChunker) (chunks : list TextChunk) :
  map place (_validate_and_cleanup_chunks self chunks) `sublist_of` map place chunks /\
  Forall (fun c => strip (text c) = text c /\
                   (0 <= max_chunk_size self -> len (text c) <= max_chunk_size self))
    (_validate_and_cleanup_chunks self chunks).
Proof.
  unfold _validate_and_cleanup_chunks.
  induction chunks as [|c chunks [IH1 IH2]]; simpl; [split; constructor|].
  destruct (cleanup self c) as [c'|] eqn:E; simpl.
  - destruct (cleanup_spec _ _ _ E) as (Hp & Hs & _ & Hm). rewrite Hp.
    split; [by apply sublist_skip | by constructor].
  - split; [by apply sublist_cons | exact IH2].
Qed.

(** [chunk_text] on a [str]: what it returns is made from the chunks of
    [segment], some of them left out, none moved and none of another type *)
Lemma chunk_text_spec (self : TextChunker) (t : str) (document_id : Z) (filename : str) :
  exists chunks,
    chunk_text self (PStr t) document_id filename = Return chunks /\
    chunks = _validate_and_cleanup_chunks self
               (_apply_overlap self (segment self t document_id filename)) /\
    map place chunks `sublist_of` map place (segment self t document_id filename) /\
    Forall (fun c => strip (text c) = text c /\
                     (0 <= max_chunk_size self -> len (text c) <= max_chunk_size self))
      chunks.
Proof.
  eexists. split; [reflexivity|]. split; [reflexivity|].
  destruct (validate_spec self (_apply_overlap self (segment self t document_id filename)))
    as [H1 H2].
  split; [|exact H2]. by rewrite apply_overlap_places in H1.
Qed.

Lemma segment_spec (self : TextChunker) (t : str) (document_id : Z) (filename : str) :
  let p := _preprocess_text t in
  let chunks := segment self t document_id filename in
  (len p <= 20 \/ len p < min_chunk_size self -> chunks = []) /\
  Forall (fun c => chunk_type c = _detect_chunk_type p) chunks /\
  Forall (fun c => len (text c) <= chunk_size self + 1 \/
                   In (text c) (_split_into_sentences p)) chunks /\
  exists stop, tiles 0 chunks stop.
Proof.
  intros p chunks.
  destruct (segment_paragraph self t document_id filename) as [_ E].
  fold p chunks in E.
  rewrite E. split.
  { intros H. destruct (Z.ltb_spec 20 (len p)); [|reflexivity].
    destruct (Z.leb_spec (min_chunk_size self) (len p)); [lia | reflexivity]. }
  destruct ((20 <? len p) && (min_chunk_size self <=? len p)).
  - apply create_chunks_spec.
  - split; [constructor|]. split; [constructor|]. by exists 0.
Qed.

Lemma chunk_text_short (self : TextChunker) (t : str) (document_id : Z)
    (filename : str) :
  len t < min_chunk_size self \/ len t <= 20 \/ Forall (fun c => is_space c = true) t ->
  chunk_text self (PStr t) document_id filename = Return [].
Proof.
  intros H.
  destruct (chunk_text_spec self t document_id filename) as (chunks & E & -> & _).
  rewrite E. f_equal.
  destruct (segment_spec self t document_id filename) as (Hempty & _).
  destruct (preprocess_text_spec t) as (_ & _ & _ & Hlen).
  cbn zeta in Hempty. rewrite Hempty; [reflexivity|].
  destruct H as [H|[H|H]]; [right; lia | left; lia |].
  rewrite (preprocess_text_blank t H). left. simpl. unfold len. simpl. lia.
Qed.

Lemma overlap_text_zero (t : str) :
  clean t ->
  let ov := _get_overlap_text t 0 in
  ov <> [] /\ ov `suffix_of` t /\ (Re.after_boundary t = None -> ov = t).
Proof.
  intros (Hne & Hl & Ht). unfold _get_overlap_text.
  assert ((len t <=? 0) = false) as ->.
  { apply Z.leb_gt. unfold len. destruct t; [done | simpl; lia]. }
  assert (slice_from t (- 0) = t) as ->.
  { unfold slice_from, clip. simpl. rewrite Z.min_l by apply len_nonneg. reflexivity. }
  cbn zeta. destruct (Re.after_boundary t) as [ov|] eqn:E.
  - split; [by eapply after_boundary_nonempty|]. split; [|discriminate].
    destruct (after_boundary_some _ _ E) as (pre & p & ws & Ew & _).
    exists (pre ++ p :: ws). rewrite Ew at 1. by rewrite <- app_assoc.
  - done.
Qed.

(** ** Properties of the chunker *)

(** X1.  Whatever the text, [_preprocess_text] returns a text in which every
    whitespace character is a plain space standing alone: no line break, no
    tab and no run of spaces survives, so no blank line is left for the
    paragraph split to find.  The result has no whitespace at either end
    and is no longer than the text given. *)
Theorem normalized_text_form (t : str) :
  let p := _preprocess_text t in
  single_spaced false p /\
  Forall (fun c => is_newline c = false) p /\
  strip p = p /\
  len p <= len t.
Proof. apply preprocess_text_spec. Qed.

(** X2.  [chunk_text] never sees more than one paragraph: the paragraph
    split of the normalized text is that text itself when it is longer than
    20 characters and nothing otherwise, and the chunks before overlap are
    those of that one paragraph, taken at position 0 with the type detected
    on the whole normalized text, provided the text has more than 20
    characters and at least [min_chunk_size]. *)
Theorem segment_single_paragraph (self : TextChunker) (t : str) (document_id : Z)
    (filename : str) :
  let p := _preprocess_text t in
  _split_into_paragraphs p = (if 20 <? len p then [p] else []) /\
  segment self t document_id filename
  = if (20 <? len p) && (min_chunk_size self <=? len p)
    then _create_chunks_from_paragraph self p 0 (_detect_chunk_type p)
           document_id filename
    else [].
Proof. apply segment_paragraph. Qed.

(** X3.  Every chunk that [chunk_text] returns for a text carries one and
    the same type: the one [_detect_chunk_type] gives for the whole
    normalized text. *)
Theorem chunk_text_one_type (self : TextChunker) (t : str) (document_id : Z)
    (filename : str) :
  exists chunks,
    chunk_text self (PStr t) document_id filename = Return chunks /\
    Forall (fun c => chunk_type c = _detect_chunk_type (_preprocess_text t)) chunks.
Proof.
  destruct (chunk_text_spec self t document_id filename) as (chunks & E & _ & Hsub & _).
  exists chunks. split; [exact E|].
  destruct (segment_spec self t document_id filename) as (_ & Htype & _).
  assert (H : Forall (fun pl : ChunkType * Z * Z =>
                        pl.1.1 = _detect_chunk_type (_preprocess_text t))
                (map place chunks)).
  { eapply Forall_sublist; [exact Hsub|]. apply Forall_map.
    eapply Forall_impl; [exact Htype|]. by intros c Hc. }
  apply Forall_map in H. eapply Forall_impl; [exact H|]. by intros c Hc.
Qed.

(** X4.  A text shorter than [min_chunk_size], a text of at most 20
    characters and a text of nothing but whitespace give no chunk at all. *)
Theorem short_text_no_chunks (self : TextChunker) (t : str) (document_id : Z)
    (filename : str) :
  len t < min_chunk_size self \/ len t <= 20 \/ Forall (fun c => is_space c = true) t ->
  chunk_text self (PStr t) document_id filename = Return [].
Proof.
  intros H. apply chunk_text_short. exact H.
Qed.

Lemma short_text_no_chunks_witness :
  chunk_text text_chunker (PStr Example.thin_text) 1 (lit "a.pdf") = Return [].
Proof.
  apply short_text_no_chunks. left. vm_compute. reflexivity.
Defined.

(** X5.  Overlap neither drops, adds nor moves a chunk: the chunks it
    returns stand one for one for the chunks given, with the type and the
    positions of the original, whose text is the end of the new text; the
    first chunk is returned as it is. *)
Theorem apply_overlap_frame (self : TextChunker) (chunks : list TextChunk) :
  Forall2 (fun c c' => place c' = place c /\ text c `suffix_of` text c')
    chunks (_apply_overlap self chunks) /\
  head (_apply_overlap self chunks) = head chunks.
Proof.
  split; [apply apply_overlap_Forall2|].
  rewrite !head_lookup. destruct (chunks !! 0%nat) as [c|] eqn:E.
  - destruct (lookup_lt_is_Some_2 (_apply_overlap self chunks) 0) as [c' Hc'].
    { rewrite apply_overlap_length. by eapply lookup_lt_Some. }
    destruct (apply_overlap_place _ _ _ _ _ E Hc') as (_ & _ & H).
    by rewrite Hc', H.
  - apply lookup_ge_None. rewrite apply_overlap_length. by apply lookup_ge_None.
Qed.

(** X6.  With [max_chunk_size] not negative, [chunk_text] returns a
    selection of the chunks it had before overlap, in their order and with
    their types and positions, each with a text of at most [max_chunk_size]
    characters that has no whitespace at either end. *)
Theorem chunk_text_bounds (self : TextChunker) (t : str) (document_id : Z)
    (filename : str) :
  0 <= max_chunk_size self ->
  exists chunks,
    chunk_text self (PStr t) document_id filename = Return chunks /\
    map place chunks `sublist_of` map place (segment self t document_id filename) /\
    Forall (fun c => len (text c) <= max_chunk_size self /\ strip (text c) = text c)
      chunks.
Proof.
  intros Hmax.
  destruct (chunk_text_spec self t document_id filename) as (chunks & E & _ & Hsub & H).
  exists chunks. split; [exact E|]. split; [exact Hsub|].
  eapply Forall_impl; [exact H|]. intros c [H1 H2]. auto.
Qed.

Lemma chunk_text_bounds_witness :
  exists chunks,
    chunk_text text_chunker (PStr two_sentences) 1 (lit "doc.pdf") = Return chunks /\
    map place chunks
      `sublist_of` map place (segment text_chunker two_sentences 1 (lit "doc.pdf")) /\
    Forall (fun c => len (text c) <= max_chunk_size text_chunker /\
                     strip (text c) = text c) chunks.
Proof.
  apply chunk_text_bounds. unfold text_chunker. simpl. lia.
Defined.

(** X7.  Before overlap a chunk has at most [chunk_size + 1] characters (the
    space that joins two sentences is not counted by the loop), unless it is
    one whole sentence of the normalized text. *)
Theorem segment_chunk_sizes (self : TextChunker) (t : str) (document_id : Z)
    (filename : str) :
  Forall (fun c => len (text c) <= chunk_size self + 1 \/
                   In (text c) (_split_into_sentences (_preprocess_text t)))
    (segment self t document_id filename).
Proof. apply segment_spec. Qed.

(** X8.  The positions of the chunks before overlap are running totals of
    the lengths of their texts: the first chunk starts at 0, every chunk
    ends as many characters after its start as its text has, and the next
    chunk starts there. *)
Theorem segment_tiles (self : TextChunker) (t : str) (document_id : Z)
    (filename : str) :
  exists stop, tiles 0 (segment self t document_id filename) stop.
Proof. apply segment_spec. Qed.

(** X9.  Setting [overlap_size] to zero does not switch overlap off: the
    overlap text taken from a chunk is then a non-empty end of its text, the
    whole text when it has no sentence boundary, and it is put in front of
    the next chunk all the same. *)
Theorem zero_overlap_size (self : TextChunker) (t : str) (document_id : Z)
    (filename : str) (i : nat) (prev cur : TextChunk) :
  overlap_size self = 0 ->
  segment self t document_id filename !! i = Some prev ->
  segment self t document_id filename !! S i = Some cur ->
  exists ov c',
    _apply_overlap self (segment self t document_id filename) !! S i = Some c' /\
    text c' = ov ++ " "%char :: text cur /\
    ov <> [] /\ ov `suffix_of` text prev /\
    (Re.after_boundary (text prev) = None -> ov = text prev).
Proof.
  intros Hz Hprev Hcur.
  pose proof (segment_clean self t document_id filename) as Hclean.
  rewrite Forall_forall in Hclean.
  assert (Hp : clean (text prev)) by (apply Hclean; by eapply list_elem_of_lookup_2).
  destruct (overlap_text_zero (text prev) Hp) as (Hne & Hsuf & Hwhole).
  exists (_get_overlap_text (text prev) 0). eexists.
  split; [rewrite (apply_overlap_lookup _ _ _ _ _ Hprev Hcur), Hz; reflexivity|].
  cbn zeta. assert (truthy (_get_overlap_text (text prev) 0) = true) as ->
    by by apply truthy_nonempty.
  done.
Qed.

Lemma zero_overlap_size_witness :
  exists prev cur ov c',
    segment Sample.no_overlap two_sentences 1 (lit "doc.pdf") !! 0%nat = Some prev /\
    segment Sample.no_overlap two_sentences 1 (lit "doc.pdf") !! 1%nat = Some cur /\
    _apply_overlap Sample.no_overlap
      (segment Sample.no_overlap two_sentences 1 (lit "doc.pdf")) !! 1%nat = Some c' /\
    text c' = ov ++ " "%char :: text cur /\
    ov <> [] /\ ov `suffix_of` text prev /\
    (Re.after_boundary (text prev) = None -> ov = text prev).
Proof.
  eexists _, _.
  pose proof (zero_overlap_size Sample.no_overlap two_sentences 1 (lit "doc.pdf") 0) as H.
  edestruct H as (ov & c' & H1 & H2); [reflexivity | vm_compute; reflexivity
                                       | vm_compute; reflexivity |].
  exists ov, c'. split; [vm_compute; reflexivity|]. split; [vm_compute; reflexivity|].
  split; [exact H1 | exact H2].
Defined.

(** ** Classification *)

Lemma matches_cons (r : Re.regex) (c : ascii) (rest : str) :
  Re.matches (Re.deriv (c :: rest) c r) rest = true -> Re.matches r (c :: rest) = true.
Proof. intros H. cbn [Re.matches]. rewrite H. apply orb_true_r. Qed.

Lemma matches_nullable (r : Re.regex) (t : str) :
  Re.nullable t r = true -> Re.matches r t = true.
Proof. intros H. destruct t; cbn [Re.matches]; by rewrite H. Qed.

(** a run of characters of a class in front of what follows the starred
    class *)
Lemma matches_star_run (p : ascii -> bool) (T : Re.regex) (run tail : str) :
  (forall here c, p c = true -> Re.deriv here c T = Re.Never) ->
  Forall (fun c => p c = true) run ->
  Re.matches (Re.Seq (Re.Star (Re.Class p)) T) tail = true ->
  Re.matches (Re.Seq (Re.Star (Re.Class p)) T) (run ++ tail) = true.
Proof.
  intros HT Hrun Htail. induction Hrun as [|c run Hc Hrun IH]; [exact Htail|].
  cbn [app]. apply matches_cons. cbn [Re.deriv Re.nullable].
  rewrite Hc, (HT _ _ Hc). exact IH.
Qed.

Lemma digit_not_dot (c : ascii) : is_digit c = true -> is_char "." c = false.
Proof.
  intros H. destruct (is_char "." c) eqn:E; [|reflexivity].
  unfold is_char in E. apply Ascii.eqb_eq in E as <-. discriminate.
Qed.

Lemma digit_not_space (c : ascii) : is_digit c = true -> is_space c = false.
Proof.
  unfold is_digit, is_space, in_range. intros H.
  apply andb_true_iff in H as [H1 H2]. apply N.leb_le in H1, H2.
  repeat match goal with
         | |- context [(?a <=? ?b)%N] => destruct (N.leb_spec a b)
         | |- context [(?a =? ?b)%N] => destruct (N.eqb_spec a b)
         end; simpl; try reflexivity; lia.
Qed.

Lemma space_not_upper (c : ascii) : is_space c = true -> is_upper c = false.
Proof.
  unfold is_upper, is_space, in_range. intros H.
  destruct ((65 <=? code c)%N && (code c <=? 90)%N) eqn:E; [|reflexivity].
  apply andb_true_iff in E as [H1 H2]. apply N.leb_le in H1, H2.
  revert H.
  repeat match goal with
         | |- context [(?a <=? ?b)%N] => destruct (N.leb_spec a b)
         | |- context [(?a =? ?b)%N] => destruct (N.eqb_spec a b)
         end; simpl; try discriminate; lia.
Qed.

Lemma upper_not_space (c : ascii) : is_upper c = true -> is_space c = false.
Proof.
  intros H. destruct (is_space c) eqn:E; [|reflexivity].
  apply space_not_upper in E. congruence.
Qed.

(** [^\d+\.\s+[A-Z]] *)
Lemma numbered_section_matches (ds ws : str) (u : ascii) (rest : str) :
  ds <> [] -> Forall (fun c => is_digit c = true) ds ->
  ws <> [] -> Forall (fun c => is_space c = true) ws ->
  is_upper u = true ->
  Re.matches (Re.seqs [Re.plus Re.digit; Re.chr "."; Re.plus Re.space; Re.upper])
    (ds ++ "."%char :: ws ++ u :: rest) = true.
Proof.
  intros Hds Hd Hws Hs Hu.
  destruct ds as [|d ds]; [done|]. apply Forall_cons in Hd as [Hd0 Hd].
  destruct ws as [|w ws]; [done|]. apply Forall_cons in Hs as [Hs0 Hs].
  cbn [app Re.seqs]. apply matches_cons.
  unfold Re.plus, Re.digit, Re.chr, Re.space, Re.upper.
  cbn [Re.deriv Re.nullable andb]. rewrite Hd0. cbn [Re.seq Re.alt].
  apply matches_star_run; [|exact Hd|].
  { intros here c Hc. cbn [Re.deriv Re.nullable]. by rewrite (digit_not_dot _ Hc). }
  apply matches_cons. cbn [Re.deriv Re.nullable]. cbn [is_digit in_range code].
  change (is_char "." ".") with true. cbn [Re.seq Re.alt].
  change (is_digit ".") with false. cbn [Re.seq Re.alt].
  apply matches_cons. cbn [Re.deriv Re.nullable andb]. rewrite Hs0. cbn [Re.seq Re.alt].
  apply matches_star_run; [|exact Hs|].
  { intros here c Hc. cbn [Re.deriv]. by rewrite (space_not_upper _ Hc). }
  apply matches_cons. cbn [Re.deriv Re.nullable].
  rewrite (upper_not_space _ Hu), Hu. cbn [Re.seq Re.alt].
  apply matches_nullable. reflexivity.
Qed.

(** [^\s*\d+\.\s+] *)
Lemma numbered_item_matches (ds ws rest : str) :
  ds <> [] -> Forall (fun c => is_digit c = true) ds ->
  ws <> [] -> Forall (fun c => is_space c = true) ws ->
  Re.matches (Re.seqs [Re.Star Re.space; Re.plus Re.digit; Re.chr "."; Re.plus Re.space])
    (ds ++ "."%char :: ws ++ rest) = true.
Proof.
  intros Hds Hd Hws Hs.
  destruct ds as [|d ds]; [done|]. apply Forall_cons in Hd as [Hd0 Hd].
  destruct ws as [|w ws]; [done|]. apply Forall_cons in Hs as [Hs0 Hs].
  cbn [app Re.seqs]. apply matches_cons.
  unfold Re.plus, Re.digit, Re.chr, Re.space.
  cbn [Re.deriv Re.nullable andb]. rewrite (digit_not_space _ Hd0), Hd0.
  cbn [Re.seq Re.alt].
  apply matches_star_run; [|exact Hd|].
  { intros here c Hc. cbn [Re.deriv Re.nullable]. by rewrite (digit_not_dot _ Hc). }
  apply matches_cons. cbn [Re.deriv Re.nullable].
  change (is_char "." ".") with true. change (is_digit ".") with false.
  cbn [Re.seq Re.alt].
  apply matches_cons. cbn [Re.deriv Re.nullable andb]. rewrite Hs0. cbn [Re.seq Re.alt].
  apply matches_nullable. reflexivity.
Qed.

Lemma strip_numbered (ds ws : str) (u : ascii) (rest : str) :
  ds <> [] -> Forall (fun c => is_digit c = true) ds -> is_upper u = true ->
  exists rest', strip (ds ++ "."%char :: ws ++ u :: rest)
                = ds ++ "."%char :: ws ++ u :: rest'.
Proof.
  intros Hds Hd Hu.
  set (a := ds ++ "."%char :: ws ++ [u]).
  assert (Ea : forall y, ds ++ "."%char :: ws ++ u :: y = a ++ y).
  { intros y. unfold a. rewrite <- !app_assoc. simpl. by rewrite <- app_assoc. }
  assert (Hne : a <> []) by (unfold a; by destruct ds).
  assert (Htrail : no_trail a).
  { unfold no_trail, a. rewrite rev_app_distr. simpl. rewrite rev_app_distr. simpl.
    by apply upper_not_space. }
  destruct (rstrip_app_keep a rest Hne Htrail) as [y' Hy].
  exists y'. unfold strip. rewrite (Ea rest), Hy, (Ea y'). apply lstrip_id.
  destruct ds as [|d ds]; [done|]. apply Forall_cons in Hd as [Hd0 _].
  simpl. by apply digit_not_space.
Qed.

(** X10.  A text that begins with digits, a full stop, whitespace and a
    capital letter is classified TITLE.  It matches the pattern of numbered
    lists as well, but the title patterns are tried first, so that a
    numbered list item that starts with a capital letter is never
    LIST_ITEM. *)
Theorem numbered_heading_is_title (ds ws : str) (u : ascii) (rest : str) :
  ds <> [] -> Forall (fun c => is_digit c = true) ds ->
  ws <> [] -> Forall (fun c => is_space c = true) ws ->
  is_upper u = true ->
  let t := ds ++ "."%char :: ws ++ u :: rest in
  any_match list_patterns (strip t) = true /\
  _detect_chunk_type t = TITLE.
Proof.
  intros Hds Hd Hws Hs Hu t.
  destruct (strip_numbered ds ws u rest Hds Hd Hu) as [rest' E]. fold t in E.
  assert (Htitle : any_match title_patterns (strip t) = true).
  { rewrite E. unfold any_match, title_patterns. cbn [existsb].
    rewrite (numbered_section_matches ds ws u rest' Hds Hd Hws Hs Hu).
    by rewrite orb_true_r. }
  split; [|unfold _detect_chunk_type; by rewrite Htitle].
  rewrite E. unfold any_match, list_patterns. cbn [existsb].
  rewrite (numbered_item_matches ds ws (u :: rest') Hds Hd Hws Hs).
  by rewrite orb_true_r.
Qed.

Lemma numbered_heading_is_title_witness :
  let t := lit "1" ++ "."%char :: lit " " ++ "I"%char :: lit "ntroduzione" in
  any_match list_patterns (strip t) = true /\
  _detect_chunk_type t = TITLE.
Proof.
  apply (numbered_heading_is_title (lit "1") (lit " ") "I" (lit "ntroduzione")).
  - discriminate.
  - repeat constructor.
  - discriminate.
  - repeat constructor.
  - reflexivity.
Defined.

(** ** Statistics of a list of chunks *)

Lemma counts_of_spec (key : string) (chunks : list TextChunk) :
  match counts_of key chunks with
  | Return zs => length zs = length chunks
  | Raise _ => Exists (has_str key) chunks
  end.
Proof.
  induction chunks as [|c chunks IH]; [reflexivity|].
  cbn [counts_of]. unfold count_of.
  destruct (dict_get key (metadata c)) as [[z|v]|] eqn:E; simpl.
  - destruct (counts_of key chunks); simpl; [by rewrite IH | by right].
  - left. by exists v.
  - destruct (counts_of key chunks); simpl; [by rewrite IH | by right].
Qed.

Lemma tally_bump (t t' : ChunkType) (types : list (ChunkType * Z)) :
  tally t (bump t' types) = tally t types + (if decide (t = t') then 1 else 0).
Proof.
  induction types as [|[t2 n] types IH]; simpl.
  - destruct (decide (t = t')); lia.
  - destruct (decide (t' = t2)) as [->|Hne]; simpl.
    + destruct (decide (t = t2)); lia.
    + destruct (decide (t = t2)) as [->|]; [|exact IH].
      destruct (decide (t2 = t')); [congruence | lia].
Qed.

Lemma tally_count_types (t : ChunkType) (chunks : list TextChunk) :
  forall types,
    tally t (fold_left (fun types chunk => bump (chunk_type chunk) types) chunks types)
    = tally t types + occurrences t chunks.
Proof.
  unfold occurrences.
  induction chunks as [|c chunks IH]; intros types; simpl; [lia|].
  rewrite IH, tally_bump.
  destruct (decide (t = chunk_type c)) as [->|Hne].
  - rewrite bool_decide_eq_true_2 by done. simpl. lia.
  - rewrite bool_decide_eq_false_2 by congruence. lia.
Qed.

Lemma fold_left_add (l : list Z) :
  forall a, fold_left Z.add l a = a + fold_left Z.add l 0.
Proof.
  induction l as [|x l IH]; intros a; cbn [fold_left]; [lia|].
  rewrite (IH (a + x)), (IH (0 + x)). lia.
Qed.

Lemma fold_left_min (l : list Z) :
  forall a, fold_left Z.min l a <= a /\ Forall (fun x => fold_left Z.min l a <= x) l.
Proof.
  induction l as [|x l IH]; intros a; simpl; [split; [lia | constructor]|].
  destruct (IH (Z.min a x)) as [H1 H2]. split; [lia|].
  constructor; [lia | exact H2].
Qed.

Lemma fold_left_max (l : list Z) :
  forall a, a <= fold_left Z.max l a /\ Forall (fun x => x <= fold_left Z.max l a) l.
Proof.
  induction l as [|x l IH]; intros a; simpl; [split; [lia | constructor]|].
  destruct (IH (Z.max a x)) as [H1 H2]. split; [lia|].
  constructor; [lia | exact H2].
Qed.

Lemma sum_between (lo hi : Z) (l : list Z) :
  Forall (fun x => lo <= x <= hi) l ->
  lo * Z.of_nat (length l) <= fold_left Z.add l 0 <= hi * Z.of_nat (length l).
Proof.
  induction 1 as [|x l Hx Hl IH]; [simpl; lia|].
  cbn [fold_left length]. rewrite fold_left_add. simpl Z.add. lia.
Qed.

Lemma mean_between (counts : list Z) :
  counts <> [] ->
  (inject_Z (minimum counts) <= mean counts)%Q /\
  (mean counts <= inject_Z (maximum counts))%Q.
Proof.
  intros Hne. destruct counts as [|z rest]; [done|]. unfold mean.
  set (n := Z.of_nat (length (z :: rest))).
  assert (Hn : 0 < n) by (unfold n; simpl; lia).
  assert (HnQ : (0 < inject_Z n)%Q).
  { change 0%Q with (inject_Z 0). by rewrite <- Zlt_Qlt. }
  destruct (fold_left_min rest z) as [Hm1 Hm2].
  destruct (fold_left_max rest z) as [HM1 HM2].
  assert (Hall : Forall (fun x => minimum (z :: rest) <= x <= maximum (z :: rest))
                   (z :: rest)).
  { simpl. constructor; [lia|]. rewrite Forall_forall in *.
    intros x Hx. specialize (Hm2 x Hx). specialize (HM2 x Hx). lia. }
  pose proof (sum_between _ _ _ Hall) as [Hlo Hhi]. fold n in Hlo, Hhi.
  split.
  - apply Qle_shift_div_l; [exact HnQ|].
    rewrite <- inject_Z_mult, <- Zle_Qle. exact Hlo.
  - apply Qle_shift_div_r; [exact HnQ|].
    rewrite <- inject_Z_mult, <- Zle_Qle. exact Hhi.
Qed.

(** X11.  [get_chunk_metadata] returns the empty mapping for no chunks and
    raises [TypeError] only when the metadata of some chunk has a string
    where a count should be.  Otherwise [total_chunks] is the number of
    chunks, [chunk_types] gives for every type the number of chunks of that
    type, and the average word count lies between the minimum and the
    maximum. *)
Theorem chunk_statistics (chunks : list TextChunk) :
  match get_chunk_metadata chunks with
  | Return None => chunks = []
  | Return (Some stats) =>
      chunks <> [] /\
      total_chunks stats = Z.of_nat (length chunks) /\
      (forall t, tally t (chunk_types stats) = occurrences t chunks) /\
      (inject_Z (min_word_count stats) <= avg_word_count stats)%Q /\
      (avg_word_count stats <= inject_Z (max_word_count stats))%Q
  | Raise e =>
      exn_class_of e = TypeError /\
      Exists (fun c => has_str "word_count" c \/ has_str "char_count" c) chunks
  end.
Proof.
  destruct chunks as [|c chunks]; [reflexivity|].
  unfold get_chunk_metadata. cbv iota.
  set (all := c :: chunks).
  pose proof (counts_of_spec "word_count" all) as Hw.
  pose proof (counts_of_spec "char_count" all) as Hc.
  assert (Hraise : forall key e, counts_of key all = Raise e -> exn_class_of e = TypeError).
  { intros key. generalize all. induction all0 as [|x xs IH]; [discriminate|].
    cbn [counts_of]. unfold count_of.
    destruct (dict_get key (metadata x)) as [[z|v]|]; simpl.
    - destruct (counts_of key xs) eqn:E; simpl; [discriminate|].
      intros e' [= <-]. by apply IH.
    - by intros e' [= <-].
    - destruct (counts_of key xs) eqn:E; simpl; [discriminate|].
      intros e' [= <-]. by apply IH. }
  destruct (counts_of "word_count" all) as [word_counts|e] eqn:Ew; cbn [Py.bind].
  2: { split; [by apply (Hraise "word_count")|].
       eapply Exists_impl; [exact Hw|]. intros x Hx. by left. }
  destruct (counts_of "char_count" all) as [char_counts|e] eqn:Ec; cbn [Py.bind].
  2: { split; [by apply (Hraise "char_count")|].
       eapply Exists_impl; [exact Hc|]. intros x Hx. by right. }
  cbn [total_chunks chunk_types min_word_count max_word_count avg_word_count].
  split; [done|]. split; [reflexivity|].
  split; [intros t; unfold count_types; by rewrite tally_count_types|].
  apply mean_between. destruct word_counts; [discriminate | done].
Qed.

(** ** Cleaning extracted text *)

Import DocumentProcessor.

Lemma split_lines_plain (t : str) :
  Forall (Forall (fun c => is_newline c = false)) (split_lines t).
Proof.
  induction t as [|c t IH]; simpl; [by repeat constructor|].
  destruct (is_newline c) eqn:E; [by constructor|].
  destruct (split_lines t) as [|l ls]; simpl; [by repeat constructor|].
  apply Forall_cons in IH as [Hl Hls]. constructor; [by constructor | exact Hls].
Qed.

Lemma clean_lines_tidy (lines : list str) :
  Forall (Forall (fun c => is_newline c = false)) lines ->
  Forall tidy (clean_lines lines).
Proof.
  induction 1 as [|l ls Hl Hls IH]; simpl; [constructor|].
  destruct (truthy (strip l)) eqn:E; [|exact IH].
  constructor; [|exact IH]. split; [by apply strip_truthy_clean | by apply strip_Forall].
Qed.

Lemma clean_lines_tidy_id (lines : list str) :
  Forall tidy lines -> clean_lines lines = lines.
Proof.
  induction 1 as [|l ls [Hl _] Hls IH]; simpl; [reflexivity|].
  rewrite (strip_clean _ Hl), IH.
  assert (truthy l = true) as -> by (apply truthy_nonempty, Hl). reflexivity.
Qed.

Lemma split_lines_line (l m : str) :
  Forall (fun c => is_newline c = false) l ->
  split_lines (l ++ ascii_of_N 10 :: m) = l :: split_lines m.
Proof.
  induction 1 as [|c l Hc Hl IH]; [reflexivity|].
  cbn [app split_lines]. by rewrite Hc, IH.
Qed.

Lemma split_lines_last (l : str) :
  Forall (fun c => is_newline c = false) l -> split_lines l = [l].
Proof.
  induction 1 as [|c l Hc Hl IH]; simpl; [reflexivity|].
  by rewrite Hc, IH.
Qed.

Lemma split_join_lines (lines : list str) :
  Forall tidy lines -> lines <> [] -> split_lines (join_lines lines) = lines.
Proof.
  induction 1 as [|l ls [_ Hl] Hls IH]; intros Hne; [done|].
  destruct ls as [|l2 ls]; simpl; [by apply split_lines_last|].
  rewrite split_lines_line by done. f_equal. by apply IH.
Qed.

Lemma join_lines_head (lines : list str) :
  Forall tidy lines ->
  match join_lines lines with
  | [] => lines = []
  | c :: _ => is_newline c = false
  end.
Proof.
  intros H. destruct H as [|l ls [[Hne _] Hl] Hls]; [reflexivity|].
  destruct l as [|c l]; [done|]. apply Forall_cons in Hl as [Hc _].
  by destruct ls.
Qed.

Lemma blank_line_after (l m : str) :
  Forall (fun c => is_newline c = false) l -> l <> [] ->
  match m with [] => True | d :: _ => is_newline d = false end ->
  has_blank_line m = false ->
  has_blank_line (l ++ ascii_of_N 10 :: m) = false.
Proof.
  intros Hl Hne Hm Hb. induction Hl as [|c l Hc Hl IH]; [done|].
  destruct l as [|c' l].
  - cbn [app has_blank_line]. rewrite Hc. simpl.
    destruct m as [|d m]; [reflexivity|]. rewrite Hm. exact Hb.
  - change ((c :: c' :: l) ++ ascii_of_N 10 :: m)
      with (c :: (c' :: l) ++ ascii_of_N 10 :: m).
    cbn [has_blank_line]. cbn [app] in *. rewrite Hc. simpl. by apply IH.
Qed.

Lemma blank_line_plain (l : str) :
  Forall (fun c => is_newline c = false) l -> has_blank_line l = false.
Proof.
  induction 1 as [|c l Hc Hl IH]; [reflexivity|].
  cbn [has_blank_line]. destruct l; [reflexivity|]. by rewrite Hc, IH.
Qed.

Lemma join_lines_no_blank_line (lines : list str) :
  Forall tidy lines -> has_blank_line (join_lines lines) = false.
Proof.
  induction 1 as [|l ls [[Hne _] Hl] Hls IH]; [reflexivity|].
  destruct ls as [|l2 ls]; [by apply blank_line_plain|].
  change (join_lines (l :: l2 :: ls)) with (l ++ ascii_of_N 10 :: join_lines (l2 :: ls)).
  apply blank_line_after; [exact Hl | exact Hne | | exact IH].
  pose proof (join_lines_head (l2 :: ls) Hls) as H.
  destruct (join_lines (l2 :: ls)); [done | exact H].
Qed.

Lemma three_newlines_blank_line (t : str) :
  has_three_newlines t = true -> has_blank_line t = true.
Proof.
  induction t as [|a t IH]; [done|]. cbn [has_three_newlines has_blank_line].
  destruct t as [|b [|c t]]; [done | done |].
  intros H. apply orb_true_iff in H as [H|H].
  - apply andb_true_iff in H as [H _]. by rewrite H.
  - rewrite (IH H). apply orb_true_r.
Qed.

Lemma squeeze_no_blank_line (turns : nat) (t : str) :
  has_blank_line t = false -> squeeze turns t = t.
Proof.
  intros H. destruct turns as [|n]; [reflexivity|]. simpl.
  destruct (has_three_newlines t) eqn:E; [|reflexivity].
  apply three_newlines_blank_line in E. congruence.
Qed.

(** *** The loop of [clean_text] comes to an end within the turns given *)

Lemma replace_three_newlines_length (t : str) :
  forall skip,
    (length (replace_three_newlines skip t) + Nat.min skip (length t) <= length t)%nat.
Proof.
  induction t as [|a t IH]; intros skip; [simpl; lia|].
  cbn [replace_three_newlines]. destruct skip as [|k].
  - destruct t as [|b [|c t]].
    + simpl. lia.
    + specialize (IH 0%nat). simpl in *. lia.
    + destruct (is_newline a && is_newline b && is_newline c).
      * specialize (IH 2%nat). cbn [length] in *. lia.
      * specialize (IH 0%nat). cbn [length] in *. lia.
  - specialize (IH k). cbn [length]. lia.
Qed.

Lemma replace_three_newlines_shorter (t : str) :
  has_three_newlines t = true ->
  (length (replace_three_newlines 0 t) < length t)%nat.
Proof.
  induction t as [|a t IH]; [done|].
  cbn [has_three_newlines replace_three_newlines].
  destruct t as [|b [|c t]]; [done | done |].
  destruct (is_newline a && is_newline b && is_newline c); simpl orb.
  - intros _. pose proof (replace_three_newlines_length (b :: c :: t) 2).
    cbn [length] in *. lia.
  - intros H. specialize (IH H). cbn [length] in *. lia.
Qed.

Lemma squeeze_settles (turns : nat) :
  forall t, (length t <= turns)%nat -> has_three_newlines (squeeze turns t) = false.
Proof.
  induction turns as [|n IH]; intros t Hlen.
  - destruct t; [reflexivity | simpl in Hlen; lia].
  - simpl. destruct (has_three_newlines t) eqn:E; [|exact E].
    apply IH. pose proof (replace_three_newlines_shorter t E). lia.
Qed.

(** X12.  [clean_text] returns the lines of the text that are not blank,
    each without the whitespace at its ends, joined by single line feeds.
    The result has no empty line, so that the blank lines which the
    extractors put between pages and between paragraphs are gone and the
    loop that squeezes three line feeds into two never runs; and cleaning a
    cleaned text changes nothing. *)
Theorem clean_text_lines (t : str) :
  let lines := clean_lines (split_lines t) in
  Forall tidy lines /\
  clean_text t = join_lines lines /\
  has_blank_line (clean_text t) = false /\
  clean_text (clean_text t) = clean_text t.
Proof.
  intros lines.
  assert (Htidy : Forall tidy lines) by apply clean_lines_tidy, split_lines_plain.
  assert (Hclean : clean_text t = join_lines lines).
  { unfold clean_text. fold lines. cbn zeta.
    apply squeeze_no_blank_line, join_lines_no_blank_line, Htidy. }
  split; [exact Htidy|]. split; [exact Hclean|].
  split; [rewrite Hclean; by apply join_lines_no_blank_line|].
  rewrite Hclean. unfold clean_text at 1. cbn zeta.
  assert (Hagain : clean_lines (split_lines (join_lines lines)) = lines).
  { destruct lines as [|l ls] eqn:E; [reflexivity|].
    rewrite split_join_lines by done. by apply clean_lines_tidy_id. }
  rewrite Hagain. apply squeeze_no_blank_line, join_lines_no_blank_line, Htidy.
Qed.

Local Opaque chunk_text.

(** ** The index *)

Lemma dict_get_set_eq (k : string) (v : value) (d : Dict) :
  dict_get k (dict_set k v d) = Some v.
Proof.
  induction d as [|[k' v'] d IH]; simpl.
  - by rewrite String.eqb_refl.
  - destruct (String.eqb k k') eqn:E; simpl; rewrite ?String.eqb_refl, ?E; done.
Qed.

Lemma dict_get_set_ne (k k' : string) (v : value) (d : Dict) :
  k <> k' -> dict_get k (dict_set k' v d) = dict_get k d.
Proof.
  intros Hne. apply String.eqb_neq in Hne.
  induction d as [|[k2 v2] d IH]; simpl.
  - by rewrite Hne.
  - destruct (String.eqb k' k2) eqn:E; simpl.
    + apply String.eqb_eq in E as <-. by rewrite Hne.
    + destruct (String.eqb k k2); [reflexivity | exact IH].
Qed.

(** the metadata stored with a chunk names the document *)
Lemma entry_metadata_document (env : Collaborators) (document : Document) (i : nat)
    (chunk : TextChunk) :
  dict_get "document_id" (entry_metadata env document i chunk) = Some (VInt (id document)).
Proof.
  unfold entry_metadata, dict_update. cbn [fold_left fst snd].
  rewrite !(dict_get_set_ne "document_id") by discriminate.
  apply dict_get_set_eq.
Qed.

Lemma get_or_create_collection_spec (b : VectorService.Backend) (project : Z)
    (c : VectorService.Client) :
  exists o c',
    VectorService.get_or_create_collection b project c = (o, c') /\
    (forall p, p <> project -> c' !! p = c !! p) /\
    default [] (c' !! project) = default [] (c !! project) /\
    match o with
    | Return collection =>
        collection = default [] (c !! project) /\ c' !! project = Some collection
    | Raise _ => c' = c
    end.
Proof.
  unfold VectorService.get_or_create_collection.
  destruct (VectorService.fault b VectorService.GetCollection),
    (VectorService.fault b VectorService.CreateCollection),
    (c !! project) eqn:E; eexists _, _; (split; [reflexivity|]);
    rewrite ?E; simpl; rewrite ?lookup_insert_eq; repeat split; try done;
    intros p Hp; by rewrite lookup_insert_ne.
Qed.

(** what [add_document_embeddings] leaves in the index *)
Lemma add_document_embeddings_spec (b : VectorService.Backend) (project document : Z)
    (chunks : list str) (metas : list Dict) (c : VectorService.Client) :
  exists o c',
    VectorService.add_document_embeddings b project document chunks metas c = (o, c') /\
    (forall p, p <> project -> c' !! p = c !! p) /\
    default [] (c' !! project)
    = default [] (c !! project) ++
      match o with
      | Return true =>
          VectorService.make_entries document 0 chunks metas
            (map (VectorService.encode b) chunks)
      | _ => []
      end.
Proof.
  unfold VectorService.add_document_embeddings, try_except.
  destruct chunks as [|ch chunks].
  { eexists _, _. split; [reflexivity|]. by rewrite app_nil_r. }
  destruct metas as [|m metas].
  { eexists _, _. split; [reflexivity|]. by rewrite app_nil_r. }
  unfold bind at 1.
  destruct (get_or_create_collection_spec b project c) as (o & c1 & -> & Hother & Hsame & Ho).
  destruct o as [collection|e].
  2: { subst c1. destruct (is_Exception e); eexists _, _;
         (split; [reflexivity|]); by rewrite app_nil_r. }
  destruct Ho as [-> Hc1].
  unfold bind, VectorService.generate_embeddings, VectorService.collection_add,
    VectorService.guard, bind, raise, ret, modify.
  destruct (VectorService.fault b VectorService.Encode) as [e|].
  { destruct (is_Exception e); eexists _, _; (split; [reflexivity|]);
      rewrite app_nil_r; done. }
  destruct (VectorService.fault b VectorService.Add) as [e|].
  { destruct (is_Exception e); eexists _, _; (split; [reflexivity|]);
      rewrite app_nil_r; done. }
  eexists _, _. split; [reflexivity|]. split.
  - intros p Hp. rewrite lookup_insert_ne by done. by apply Hother.
  - rewrite lookup_insert_eq. simpl. rewrite Hc1. reflexivity.
Qed.

Lemma make_entries_spec (document : Z) (chunks : list str) :
  forall (i : nat) (metas : list Dict) (embeddings : list VectorService.Embedding),
    length metas = length chunks -> length embeddings = length chunks ->
    let entries := VectorService.make_entries document i chunks metas embeddings in
    map VectorService.entry_document entries = chunks /\
    map VectorService.entry_metadata entries = metas /\
    map VectorService.entry_id entries
    = map (fun j => (document, j)) (seq i (length chunks)).
Proof.
  induction chunks as [|ch chunks IH]; intros i [|m metas] [|e embeddings] Hm He;
    try discriminate; [done|].
  simpl in Hm, He. injection Hm as Hm. injection He as He.
  destruct (IH (S i) metas embeddings Hm He) as (H1 & H2 & H3).
  cbn zeta. simpl. rewrite H1, H2, H3. done.
Qed.

Lemma about_other (document d2 : Z) (e : VectorService.Entry) :
  d2 <> document -> VectorService.about document e = true ->
  VectorService.about d2 e = false.
Proof.
  unfold VectorService.about.
  destruct (dict_get "document_id" (VectorService.entry_metadata e)) as [[z|]|];
    try done.
  intros Hne Hz. apply Z.eqb_eq in Hz as ->. by apply Z.eqb_neq.
Qed.

Lemma filter_about_new (d2 document : Z) (new : list VectorService.Entry) :
  d2 <> document ->
  Forall (fun e => VectorService.about document e = true) new ->
  List.filter (VectorService.about d2) new = [].
Proof.
  intros Hne. induction 1 as [|e new He Hnew IH]; simpl; [reflexivity|].
  by rewrite (about_other _ _ _ Hne He).
Qed.

Lemma filter_about_kept (d2 document : Z) (l : list VectorService.Entry) :
  d2 <> document ->
  List.filter (VectorService.about d2)
    (List.filter (fun e => negb (VectorService.about document e)) l)
  = List.filter (VectorService.about d2) l.
Proof.
  intros Hne. induction l as [|e l IH]; simpl; [reflexivity|].
  destruct (VectorService.about document e) eqn:E; simpl.
  - rewrite (about_other _ _ _ Hne E). exact IH.
  - destruct (VectorService.about d2 e); by rewrite IH.
Qed.

Lemma filter_about_gone (document : Z) (l : list VectorService.Entry) :
  List.filter (VectorService.about document)
    (List.filter (fun e => negb (VectorService.about document e)) l) = [].
Proof.
  induction l as [|e l IH]; simpl; [reflexivity|].
  destruct (VectorService.about document e) eqn:E; simpl; [exact IH|].
  by rewrite E.
Qed.

(** what [delete_document_embeddings] leaves in the index *)
Lemma delete_document_embeddings_spec (b : VectorService.Backend) (project document : Z)
    (c : VectorService.Client) :
  exists o c',
    VectorService.delete_document_embeddings b project document c = (o, c') /\
    (forall p, p <> project -> c' !! p = c !! p) /\
    default [] (c' !! project)
    = match o with
      | Return true =>
          List.filter (fun e => negb (VectorService.about document e))
            (default [] (c !! project))
      | _ => default [] (c !! project)
      end.
Proof.
  unfold VectorService.delete_document_embeddings, try_except. unfold bind at 1.
  destruct (get_or_create_collection_spec b project c) as (o & c1 & -> & Hother & Hsame & Ho).
  destruct o as [collection|e].
  2: { subst c1. destruct (is_Exception e); eexists _, _; (split; [reflexivity|]); done. }
  unfold bind, VectorService.collection_delete, VectorService.guard, bind, raise, ret, modify.
  destruct (VectorService.fault b VectorService.Delete) as [e|].
  { destruct (is_Exception e); eexists _, _; (split; [reflexivity|]); done. }
  eexists _, _. split; [reflexivity|]. split.
  - intros p Hp. rewrite lookup_insert_ne by done. by apply Hother.
  - rewrite lookup_insert_eq. simpl. by rewrite Hsame.
Qed.

(** what [_store_embeddings] leaves in the index and in the trace *)
Lemma store_embeddings_spec (env : Collaborators) (document : Document)
    (chunks : list TextChunk) (s : State) :
  exists o c' new,
    _store_embeddings env document chunks s
    = (o, match o with
          | Return true =>
              log (Indexed (project_id document) (id document) (length chunks))
                (set_client c' s)
          | _ => set_client c' s
          end) /\
    (forall p, p <> project_id document -> c' !! p = client s !! p) /\
    default [] (c' !! project_id document)
    = default [] (client s !! project_id document) ++ new /\
    Forall (fun e => VectorService.about (id document) e = true) new /\
    match o with
    | Return true =>
        chunks <> [] /\
        map VectorService.entry_document new = map text chunks /\
        map VectorService.entry_id new
        = map (fun j => (id document, j)) (seq 0 (length chunks))
    | _ => new = []
    end.
Proof.
  unfold _store_embeddings, try_except.
  destruct chunks as [|ch chunks].
  { exists (Return false), (client s), []. destruct s. simpl.
    rewrite app_nil_r. repeat split; done. }
  unfold bind at 1, on_client, zoom.
  set (texts := map text (ch :: chunks)).
  set (metas := imap (entry_metadata env document) (ch :: chunks)).
  destruct (add_document_embeddings_spec (backend env) (project_id document)
              (id document) texts metas (client s)) as (o & c' & -> & Hother & Hown).
  assert (Hm : length metas = length texts).
  { unfold metas, texts. by rewrite length_imap, length_map. }
  destruct (make_entries_spec (id document) texts 0 metas
              (map (VectorService.encode (backend env)) texts) Hm
              ltac:(by rewrite length_map)) as (H1 & H2 & H3).
  destruct o as [[|]|e].
  - eexists (Return true), c', _. split; [reflexivity|]. split; [exact Hother|].
    split; [exact Hown|]. split.
    + apply Forall_forall. intros e He.
      apply list_elem_of_lookup_1 in He as [i Hi].
      assert (Hmeta : metas !! i = Some (VectorService.entry_metadata e)).
      { rewrite <- H2. by rewrite list_lookup_fmap, Hi. }
      unfold metas in Hmeta. rewrite list_lookup_imap in Hmeta.
      destruct ((ch :: chunks) !! i) as [chunk|]; [|discriminate].
      injection Hmeta as Hmeta. unfold VectorService.about.
      rewrite <- Hmeta, entry_metadata_document. apply Z.eqb_refl.
    + split; [done|]. split; [exact H1|]. rewrite H3. unfold texts.
      by rewrite length_map.
  - exists (Return false), c', []. split; [reflexivity|]. split; [exact Hother|].
    split; [exact Hown|]. split; [constructor | reflexivity].
  - destruct (is_Exception e).
    + exists (Return false), c', []. split; [reflexivity|]. split; [exact Hother|].
      split; [exact Hown|]. split; [constructor | reflexivity].
    + exists (Raise e), c', []. split; [reflexivity|]. split; [exact Hother|].
      split; [exact Hown|]. split; [constructor | reflexivity].
Qed.

(** ** Properties of the index *)

(** X13.  [add_document_embeddings], given as many metadata mappings as
    chunks for a document that has no entry in the collection of the project
    yet, changes no collection but that one, and that one only at its end:
    when it answers [True] the collection has gained one entry for each
    chunk, in order, with the text and the metadata of the chunk and the ids
    [document_id, 0], [document_id, 1], ...; when it answers [False] or
    raises, the entries are what they were.  The ids of the collection stay
    distinct. *)
Theorem add_document_embeddings_entries (b : VectorService.Backend)
    (project document : Z) (chunks : list str) (metas : list Dict)
    (c : VectorService.Client) :
  length metas = length chunks ->
  NoDup (map VectorService.entry_id (default [] (c !! project))) ->
  Forall (fun e => (VectorService.entry_id e).1 <> document) (default [] (c !! project)) ->
  let run := VectorService.add_document_embeddings b project document chunks metas c in
  (forall p, p <> project -> run.2 !! p = c !! p) /\
  exists new,
    default [] (run.2 !! project) = default [] (c !! project) ++ new /\
    NoDup (map VectorService.entry_id (default [] (run.2 !! project))) /\
    match run.1 with
    | Return true =>
        map VectorService.entry_document new = chunks /\
        map VectorService.entry_metadata new = metas /\
        map VectorService.entry_id new
        = map (fun j => (document, j)) (seq 0 (length chunks))
    | _ => new = []
    end.
Proof.
  intros Hlen Hnodup Hfresh run.
  destruct (add_document_embeddings_spec b project document chunks metas c)
    as (o & c' & E & Hother & Hown).
  unfold run. rewrite E. cbn [fst snd]. split; [exact Hother|].
  eexists. split; [exact Hown|]. rewrite Hown.
  destruct o as [[|]|e]; try (rewrite app_nil_r; by split).
  destruct (make_entries_spec document chunks 0 metas
              (map (VectorService.encode b) chunks) Hlen ltac:(by rewrite length_map))
    as (H1 & H2 & H3).
  split; [|done]. rewrite map_app. apply NoDup_app. split; [exact Hnodup|]. split.
  - intros i Hi Hnew. rewrite H3 in Hnew.
    apply list_elem_of_fmap in Hnew as (j & -> & _).
    apply list_elem_of_fmap in Hi as (e & He & Hin).
    rewrite Forall_forall in Hfresh. apply (Hfresh e Hin). by rewrite <- He.
  - rewrite H3. apply NoDup_fmap_2; [by intros i j [= ->]|]. apply NoDup_seq.
Qed.

Lemma add_document_embeddings_entries_witness :
  let run := VectorService.add_document_embeddings Example.chroma 1 1
               [Example.long_text] [[("document_id"%string, VInt 1)]]
               {[1 := [Example.entry 2]]} in
  (forall p, p <> 1 -> run.2 !! p = ({[1 := [Example.entry 2]]} : VectorService.Client) !! p) /\
  exists new,
    default [] (run.2 !! 1)
    = default [] (({[1 := [Example.entry 2]]} : VectorService.Client) !! 1) ++ new /\
    NoDup (map VectorService.entry_id (default [] (run.2 !! 1))) /\
    match run.1 with
    | Return true =>
        map VectorService.entry_document new = [Example.long_text] /\
        map VectorService.entry_metadata new = [[("document_id"%string, VInt 1)]] /\
        map VectorService.entry_id new
        = map (fun j => (1, j)) (seq 0 (length [Example.long_text]))
    | _ => new = []
    end.
Proof.
  apply (add_document_embeddings_entries Example.chroma 1 1 [Example.long_text]
           [[("document_id"%string, VInt 1)]] {[1 := [Example.entry 2]]}).
  - reflexivity.
  - vm_compute. repeat constructor. intros H. by apply elem_of_nil in H.
  - vm_compute. repeat constructor. discriminate.
Defined.

(** X14.  [delete_document_embeddings] changes no collection but the one of
    its project and no entry of another document.  When it answers [True] no
    entry of the document is left in that collection; when it answers
    [False] or raises, the entries of the document are all still there. *)
Theorem delete_document_embeddings_entries (b : VectorService.Backend)
    (project document : Z) (c : VectorService.Client) :
  let run := VectorService.delete_document_embeddings b project document c in
  (forall p, p <> project -> run.2 !! p = c !! p) /\
  (forall d2, d2 <> document ->
     entries_of run.2 project d2 = entries_of c project d2) /\
  entries_of run.2 project document
  = match run.1 with
    | Return true => []
    | _ => entries_of c project document
    end.
Proof.
  intros run.
  destruct (delete_document_embeddings_spec b project document c)
    as (o & c' & E & Hother & Hown).
  unfold run. rewrite E. cbn [fst snd]. split; [exact Hother|].
  unfold entries_of. rewrite Hown. split.
  - intros d2 Hd2. destruct o as [[|]|e]; try reflexivity.
    by apply filter_about_kept.
  - destruct o as [[|]|e]; try reflexivity. apply filter_about_gone.
Qed.

(** X15.  What [_store_embeddings] writes, [delete_document_embeddings]
    finds: after a store that answered [True], a deletion for the same
    document that answers [True] leaves in the collection of the project
    exactly the entries that other documents had there before, and leaves
    the other collections as they were. *)
Theorem store_then_delete (env : Collaborators) (document : Document)
    (chunks : list TextChunk) (s s1 : State) (c2 : VectorService.Client) :
  _store_embeddings env document chunks s = (Return true, s1) ->
  VectorService.delete_document_embeddings (backend env) (project_id document)
    (id document) (client s1) = (Return true, c2) ->
  default [] (c2 !! project_id document)
  = List.filter (fun e => negb (VectorService.about (id document) e))
      (default [] (client s !! project_id document)) /\
  (forall p, p <> project_id document -> c2 !! p = client s !! p).
Proof.
  intros Hstore Hdelete.
  destruct (store_embeddings_spec env document chunks s)
    as (o & c' & new & E & Hother & Hown & Habout & _).
  rewrite Hstore in E. injection E as <- ->. cbn [client log set_client] in Hdelete.
  destruct (delete_document_embeddings_spec (backend env) (project_id document)
              (id document) c') as (o & c3 & E & Hother' & Hown').
  rewrite Hdelete in E. injection E as <- <-. split.
  - rewrite Hown', Hown, List.filter_app.
    assert (List.filter (fun e => negb (VectorService.about (id document) e)) new = [])
      as ->; [|by rewrite app_nil_r].
    clear -Habout. induction Habout as [|e new He _ IH]; simpl; [reflexivity|].
    by rewrite He.
  - intros p Hp. rewrite Hother' by done. by apply Hother.
Qed.

Lemma store_then_delete_witness :
  exists s1 c2,
    _store_embeddings (Example.env Example.working_provider Example.chroma
                         Example.long_text)
      Example.doc [new_TextChunk Example.long_text PARAGRAPH 0 280 []] Example.indexed
    = (Return true, s1) /\
    VectorService.delete_document_embeddings Example.chroma 1 1 (client s1)
    = (Return true, c2) /\
    default [] (c2 !! project_id Example.doc)
    = List.filter (fun e => negb (VectorService.about (id Example.doc) e))
        (default [] (client Example.indexed !! project_id Example.doc)) /\
    (forall p, p <> project_id Example.doc -> c2 !! p = client Example.indexed !! p).
Proof.
  eexists _, _. split; [vm_compute; reflexivity|]. split; [vm_compute; reflexivity|].
  eapply (store_then_delete
            (Example.env Example.working_provider Example.chroma Example.long_text)
            Example.doc [new_TextChunk Example.long_text PARAGRAPH 0 280 []]
            Example.indexed);
    vm_compute; reflexivity.
Defined.

(** ** Retrieval *)

Import ContextSpec.

Lemma same_entries_refl (c : VectorService.Client) : same_entries c c.
Proof. by intros p. Qed.

Lemma get_or_create_collection_entries (b : VectorService.Backend) (project : Z)
    (c : VectorService.Client) :
  same_entries c (VectorService.get_or_create_collection b project c).2.
Proof.
  destruct (get_or_create_collection_spec b project c) as (o & c' & -> & Hother & Hsame & _).
  intros p. simpl. destruct (decide (p = project)) as [->|Hp]; [exact Hsame|].
  by rewrite Hother.
Qed.

(** [search_similar_chunks] answers with what the engine finds or with the
    empty result, and writes no entry *)
Lemma search_similar_chunks_spec (b : VectorService.Backend) (project : Z) (query : str)
    (n : Z) (c : VectorService.Client) :
  (forall op e, VectorService.fault b op = Some e -> is_Exception e = true) ->
  exists r c',
    VectorService.search_similar_chunks b project query n c = (Return r, c') /\
    same_entries c c' /\
    (r = VectorService.nearest b (default [] (c !! project))
           (VectorService.encode b query) n \/
     r = VectorService.mkQueryResult [[]] [[]] [[]]).
Proof.
  intros Hord. unfold VectorService.search_similar_chunks, try_except. unfold bind at 1.
  pose proof (get_or_create_collection_entries b project c) as Hsame.
  destruct (get_or_create_collection_spec b project c) as (o & c1 & E & _ & _ & Ho).
  rewrite E in *. simpl in Hsame.
  destruct o as [collection|e].
  2: { assert (He : is_Exception e = true).
       { revert E. unfold VectorService.get_or_create_collection.
         destruct (VectorService.fault b VectorService.GetCollection) eqn:E1,
           (VectorService.fault b VectorService.CreateCollection) eqn:E2,
           (c !! project); intros [= <- <-]; eauto. }
       rewrite He. eexists _, _. split; [reflexivity|]. split; [exact Hsame | by right]. }
  destruct Ho as [-> _].
  unfold bind, VectorService.generate_embeddings, VectorService.guard, bind, raise, ret.
  destruct (VectorService.fault b VectorService.Encode) as [e|] eqn:E1.
  { rewrite (Hord _ _ E1). eexists _, _. split; [reflexivity|]. split; [exact Hsame | by right]. }
  simpl.
  destruct (VectorService.fault b VectorService.Query) as [e|] eqn:E2.
  { rewrite (Hord _ _ E2). eexists _, _. split; [reflexivity|]. split; [exact Hsame | by right]. }
  eexists _, _. split; [reflexivity|]. split; [exact Hsame | by left].
Qed.

Lemma similarity_nonneg (distance : Q) : (0 <= AIService.similarity distance)%Q.
Proof.
  unfold AIService.similarity. destruct (Qlt_le_dec distance 1); lra.
Qed.

(** the loop of [retrieve_context] returns well-formed chunks or raises an
    [Exception] *)
Lemma context_loop_well_formed (p : AIService.Provider) (docs : list (option str)) :
  forall (metas : list (option Dict)) (dists : list Q)
         (acc : list AIService.ChatContextChunk),
    Forall well_formed acc ->
    match AIService.context_loop p docs metas dists acc with
    | Return chunks => Forall well_formed chunks
    | Raise e => is_Exception e = true
    end.
Proof.
  induction docs as [|doc docs IH]; intros metas dists acc Hacc; [exact Hacc|].
  destruct metas as [|meta metas]; [exact Hacc|].
  destruct dists as [|distance dists]; [exact Hacc|].
  cbn [AIService.context_loop].
  destruct doc as [t|]; [|by apply IH]. destruct meta as [m|]; [|by apply IH].
  destruct (AIService.has_text (Some t) && AIService.has_items (Some m)) eqn:E;
    [|by apply IH].
  apply andb_true_iff in E as [Et Em].
  unfold Py.bind.
  destruct (AIService.as_int p (default (VInt 0) (dict_get "document_id" m)))
    as [z|e] eqn:Ez.
  - apply IH. apply Forall_app. split; [exact Hacc|]. constructor; [|constructor].
    split; [apply similarity_nonneg|]. split; simpl.
    + by destruct t.
    + by destruct m.
  - unfold AIService.as_int in Ez.
    destruct (default (VInt 0) (dict_get "document_id" m)) as [z|v]; [discriminate|].
    destruct (AIService.int_of_str p v); [discriminate|]. by injection Ez as <-.
Qed.

Lemma first_ordinary {A} (l : list A) :
  match AIService.first l with
  | Return _ => True
  | Raise e => is_Exception e = true
  end.
Proof. by destruct l. Qed.

(** X16.  [retrieve_context] does not raise as long as the vector database
    raises nothing but [Exception]s: it returns a list of chunks, empty when
    anything failed, each of them with a similarity that is not negative, a
    text and a metadata mapping that are not empty.  It writes no entry,
    though it may create the empty collection of a project that had none. *)
Theorem retrieve_context_never_raises (p : AIService.Provider)
    (b : VectorService.Backend) (project : Z) (query : str) (n : Z)
    (c : VectorService.Client) :
  (forall op e, VectorService.fault b op = Some e -> is_Exception e = true) ->
  exists chunks c',
    AIService.retrieve_context p b project query n c = (Return chunks, c') /\
    same_entries c c' /\
    Forall well_formed chunks.
Proof.
  intros Hord. unfold AIService.retrieve_context, try_except. unfold bind at 1.
  destruct (search_similar_chunks_spec b project query n c Hord)
    as (r & c' & -> & Hsame & _).
  destruct (VectorService.documents r) as [|docs dtl] eqn:Ed.
  { exists [], c'. split; [reflexivity|]. split; [exact Hsame | constructor]. }
  unfold bind, lift. cbn [AIService.first].
  pose proof (first_ordinary (VectorService.metadatas r)) as Hm.
  destruct (AIService.first (VectorService.metadatas r)) as [metas|e].
  2: { rewrite Hm. exists [], c'. split; [reflexivity|]. split; [exact Hsame | constructor]. }
  pose proof (first_ordinary (VectorService.distances r)) as Hs.
  destruct (AIService.first (VectorService.distances r)) as [dists|e].
  2: { rewrite Hs. exists [], c'. split; [reflexivity|]. split; [exact Hsame | constructor]. }
  pose proof (context_loop_well_formed p docs metas dists [] (Forall_nil_2 _)) as Hloop.
  destruct (AIService.context_loop p docs metas dists []) as [chunks|e].
  - exists chunks, c'. split; [reflexivity|]. split; [exact Hsame | exact Hloop].
  - rewrite Hloop. exists [], c'. split; [reflexivity|]. split; [exact Hsame | constructor].
Qed.

Lemma retrieve_context_never_raises_witness :
  exists chunks c',
    AIService.retrieve_context Example.working_provider Sample.dead_chroma 1
      (lit "ipsum") 5 ∅ = (Return chunks, c') /\
    same_entries ∅ c' /\
    Forall well_formed chunks.
Proof.
  apply retrieve_context_never_raises. intros op e [= <-]. reflexivity.
Defined.

Lemma context_loop_refused (p : AIService.Provider) (docs : list (option str)) :
  forall (metas : list (option Dict)) (dists : list Q)
         (acc : list AIService.ChatContextChunk),
    Exists (refused p) (kept_entries docs metas dists) ->
    exists e, AIService.context_loop p docs metas dists acc = Raise e /\
              is_Exception e = true.
Proof.
  induction docs as [|doc docs IH]; intros metas dists acc H;
    [by apply Exists_nil in H|].
  destruct metas as [|meta metas]; [by apply Exists_nil in H|].
  destruct dists as [|distance dists]; [by apply Exists_nil in H|].
  cbn [AIService.context_loop kept_entries] in *.
  destruct doc as [[|ch t]|]; [destruct meta as [m|]; by apply IH| |by apply IH].
  destruct meta as [[|kv m]|]; [by apply IH| |by apply IH].
  cbn [AIService.has_text AIService.has_items andb]. unfold Py.bind.
  destruct (AIService.as_int p (default (VInt 0) (dict_get "document_id" (kv :: m))))
    as [z|e] eqn:Ez.
  - apply Exists_cons in H as [H|H]; [|by apply IH].
    exfalso. apply (H z). exact Ez.
  - exists e. split; [reflexivity|]. unfold AIService.as_int in Ez.
    destruct (default (VInt 0) (dict_get "document_id" (kv :: m))) as [z|v];
      [discriminate|].
    destruct (AIService.int_of_str p v); [discriminate|]. by injection Ez as <-.
Qed.

(** X17.  One entry spoils the context: when the search returns, among the
    entries that have a text and a metadata mapping, one whose [document_id]
    the schema refuses, [retrieve_context] returns no chunk at all, not even
    those made of the entries in front of it. *)
Theorem refused_document_id_voids_context (p : AIService.Provider)
    (b : VectorService.Backend) (project : Z) (query : str) (max_chunks : Z)
    (c c' : VectorService.Client) (r : VectorService.QueryResult)
    (docs : list (option str)) (metas : list (option Dict)) (dists : list Q)
    (dtl : list (list (option str))) (mtl : list (list (option Dict)))
    (stl : list (list Q)) :
  VectorService.search_similar_chunks b project query max_chunks c = (Return r, c') ->
  VectorService.documents r = docs :: dtl ->
  VectorService.metadatas r = metas :: mtl ->
  VectorService.distances r = dists :: stl ->
  Exists (refused p) (kept_entries docs metas dists) ->
  AIService.retrieve_context p b project query max_chunks c = (Return [], c').
Proof.
  intros Hsearch Hd Hm Hs Hbad.
  unfold AIService.retrieve_context, try_except. unfold bind at 1. rewrite Hsearch, Hd.
  unfold bind, lift. rewrite Hm, Hs. cbn [AIService.first].
  destruct (context_loop_refused p docs metas dists [] Hbad) as (e & -> & ->).
  reflexivity.
Qed.

Lemma refused_document_id_voids_context_witness :
  AIService.retrieve_context Example.working_provider Sample.spoiled 1
    (lit "ipsum") 5 ∅ = (Return [], {[1 := []]}).
Proof.
  eapply (refused_document_id_voids_context Example.working_provider Sample.spoiled 1
            (lit "ipsum") 5 ∅).
  - vm_compute. reflexivity.
  - reflexivity.
  - reflexivity.
  - reflexivity.
  - apply Exists_cons_tl, Exists_cons_hd. intros z. discriminate.
Defined.

(** ** What a job leaves alone *)

Import FrameSpec.

Lemma hoare_ret {S A} (P : S -> Prop) (a : A) : hoare P (ret a) P.
Proof. by intros s Hs. Qed.

Lemma hoare_raise {S A} (P : S -> Prop) (e : exn) : hoare P (@raise S A e) P.
Proof. by intros s Hs. Qed.

Lemma hoare_lift {S A} (P : S -> Prop) (r : outcome A) : hoare P (@lift S A r) P.
Proof. by intros s Hs. Qed.

Lemma hoare_weaken {S A} (P P' Q Q' : S -> Prop) (m : M S A) :
  (forall s, P' s -> P s) -> (forall s, Q s -> Q' s) ->
  hoare P m Q -> hoare P' m Q'.
Proof. intros HP HQ H s Hs. apply HQ, H, HP, Hs. Qed.

Lemma hoare_bind {S A B} (P R Q : S -> Prop) (m : M S A) (k : A -> M S B) :
  hoare P m R -> (forall s, R s -> Q s) -> (forall a, hoare R (k a) Q) ->
  hoare P (bind m k) Q.
Proof.
  intros Hm HRQ Hk s Hs. unfold bind. specialize (Hm s Hs).
  destruct (m s) as [[a|e] s']; simpl in *; [by apply Hk | by apply HRQ].
Qed.

Lemma hoare_try_except {S A} (P R Q : S -> Prop) (m : M S A) (h : exn -> M S A) :
  hoare P m R -> (forall s, R s -> Q s) -> (forall e, hoare R (h e) Q) ->
  hoare P (try_except m h) Q.
Proof.
  intros Hm HRQ Hh s Hs. unfold try_except. specialize (Hm s Hs).
  destruct (m s) as [[a|e] s']; simpl in *; [by apply HRQ|].
  destruct (is_Exception e); [by apply Hh | by apply HRQ].
Qed.

Lemma hoare_the_document {A} (P Q : Frame -> Prop) (k : Document -> M Frame A) :
  (forall d, hoare (fun f => P f /\ f.1 = d) (k d) Q) ->
  hoare P (bind the_document k) Q.
Proof. intros H [d s] Hs. unfold bind, the_document. simpl. by apply (H d). Qed.

Lemma hoare_assign (P Q : Frame -> Prop) (g : Document -> Document) :
  (forall d s, P (d, s) -> Q (g d, s)) -> hoare P (assign g) Q.
Proof. intros H [d s] Hs. by apply H. Qed.

Lemma hoare_commit (P Q : Frame -> Prop) (env : Collaborators) :
  (forall f, P f -> Q f) -> (forall d s, P (d, s) -> Q (d, persist d s)) ->
  hoare P (db_commit env) Q.
Proof.
  intros H1 H2 [d s] Hs. unfold db_commit. simpl.
  destruct (commit_fault env (trace s)); simpl; [by apply H1 | by apply H2].
Qed.

Lemma hoare_on_state {A} (P Q : Frame -> Prop) (m : M State A) :
  (forall d s, P (d, s) -> Q (d, (m s).2)) -> hoare P (on_state m) Q.
Proof.
  intros H [d s] Hs. unfold on_state, zoom. simpl.
  specialize (H d s Hs). by destruct (m s).
Qed.

(** *** The steps of a job *)

Lemma untouched_persist (d0 d : Document) (s0 s : State) :
  same_file d0 d -> message_kept d0 d -> untouched d0 s0 s ->
  untouched d0 s0 (persist d s).
Proof.
  intros Hfile Hmsg (H1 & H2 & H3 & H4 & H5 & H6 & H7 & H8 & H9).
  pose proof Hfile as (Hid & _).
  split; [intros k Hk; rewrite rows_persist, lookup_insert_ne by congruence; by apply H1|].
  split; [exists d; by rewrite rows_persist, <- Hid, lookup_insert_eq|].
  refine (conj H3 (conj H4 (conj H5 (conj H6 (conj H7 (conj H8 _)))))).
  rewrite trace_persist. by apply prefix_app_r.
Qed.

Lemma untouched_store (env : Collaborators) (d0 document : Document)
    (chunks : list TextChunk) (s0 s : State) :
  same_file d0 document -> untouched d0 s0 s ->
  untouched d0 s0 (_store_embeddings env document chunks s).2.
Proof.
  intros (Hid & _ & _ & _ & _ & Hproject) (H1 & H2 & H3 & H4 & H5 & H6 & H7 & H8 & H9).
  destruct (store_embeddings_spec env document chunks s)
    as (o & c' & new & -> & Hother & Hown & Habout & _).
  rewrite Hid, Hproject in *.
  assert (H : untouched d0 s0 (set_client c' s)).
  { split; [exact H1|]. split; [exact H2|].
    split; [intros p Hp; simpl; rewrite Hother by done; by apply H3|].
    split; [|done].
    intros d2 Hd2. rewrite <- (H4 d2 Hd2). unfold entries_of. simpl.
    rewrite Hown, List.filter_app, (filter_about_new d2 (id d0) new) by done.
    by rewrite app_nil_r. }
  destruct o as [[|]|e]; simpl; try exact H.
  destruct H as (K1 & K2 & K3 & K4 & K5 & K6 & K7 & K8 & K9).
  refine (conj K1 (conj K2 (conj K3 (conj K4 (conj K5 (conj K6 (conj K7 (conj K8 _)))))))).
  by apply prefix_app_r.
Qed.

Lemma mark_as_analyzed_file (d0 d : Document) (a : Dict) :
  same_file d0 d -> same_file d0 (mark_as_analyzed a d).
Proof.
  unfold same_file, mark_as_analyzed, copy_key.
  destruct (dict_get "central_thesis" a), (dict_get "key_concepts" a),
    (dict_get "argumentative_structure" a), (dict_get "cited_sources" a); done.
Qed.

Lemma mark_as_analyzed_message (d : Document) (a : Dict) :
  error_message (mark_as_analyzed a d) = error_message d.
Proof.
  unfold mark_as_analyzed, copy_key.
  destruct (dict_get "central_thesis" a), (dict_get "key_concepts" a),
    (dict_get "argumentative_structure" a), (dict_get "cited_sources" a); done.
Qed.

Lemma working_commit (env : Collaborators) (d0 : Document) (s0 : State) :
  hoare (working d0 s0) (db_commit env) (working d0 s0).
Proof.
  apply hoare_commit; [done|]. intros d s (Hf & Hm & Hu).
  split; [exact Hf|]. split; [exact Hm|].
  apply untouched_persist; [exact Hf | by left | exact Hu].
Qed.

Lemma working_assign (d0 : Document) (s0 : State) (g : Document -> Document) :
  (forall d, same_file d0 d -> same_file d0 (g d)) ->
  (forall d, error_message (g d) = error_message d) ->
  hoare (working d0 s0) (assign g) (working d0 s0).
Proof.
  intros H1 H2. apply hoare_assign. intros d s (Hf & Hm & Hu).
  split; [by apply H1|]. split; [|exact Hu]. simpl. by rewrite H2.
Qed.

Lemma working_analyse (env : Collaborators) (d0 : Document) (s0 : State) (t : str) :
  hoare (working d0 s0) (analyse env t) (working d0 s0).
Proof.
  unfold analyse. apply (hoare_try_except _ (working d0 s0)); [|done|intros; apply hoare_ret].
  apply hoare_the_document. intros d.
  apply (hoare_bind _ (working d0 s0)); [|done|].
  { eapply hoare_weaken; [| |apply hoare_lift]; [by intros f [H _] | done]. }
  intros a. apply (hoare_bind _ (working d0 s0)); [|done|intros; apply working_commit].
  apply working_assign; [intros; by apply mark_as_analyzed_file|].
  intros; apply mark_as_analyzed_message.
Qed.

Lemma working_finish (env : Collaborators) (d0 : Document) (s0 : State) (success : bool) :
  hoare (working d0 s0) (finish env success) (working d0 s0).
Proof.
  unfold finish. destruct success; [|apply hoare_raise].
  apply hoare_the_document. intros d.
  destruct (bool_decide (status d <> ANALYZED)).
  - apply (hoare_bind _ (working d0 s0)); [|done|].
    { eapply hoare_weaken; [| |by apply (working_assign d0 s0 (set_status ANALYZED))];
        [by intros f [H _] | done]. }
    intros _. apply (hoare_bind _ (working d0 s0)); [|done|intros; apply working_commit].
    by apply working_assign.
  - eapply hoare_weaken; [| |apply hoare_ret]; [by intros f [H _] | done].
Qed.

Lemma working_pipeline (env : Collaborators) (document_id : Z) (d0 : Document)
    (s0 : State) :
  hoare (working d0 s0) (pipeline env document_id) (working d0 s0).
Proof.
  unfold pipeline.
  apply (hoare_bind _ (working d0 s0)); [by apply working_assign|done|]. intros _.
  apply (hoare_bind _ (working d0 s0)); [apply working_commit|done|]. intros _.
  apply hoare_the_document. intros document.
  apply (hoare_bind _ (working d0 s0)); [|done|].
  { apply hoare_on_state. intros d s [H _].
    destruct (extract_text_frame env document) as (r & -> & _). exact H. }
  intros extracted.
  apply (hoare_bind _ (working d0 s0)); [by apply working_assign|done|]. intros _.
  apply (hoare_bind _ (working d0 s0)); [by apply working_assign|done|]. intros _.
  apply (hoare_bind _ (working d0 s0)); [by apply working_assign|done|]. intros _.
  apply (hoare_bind _ (working d0 s0)); [apply working_commit|done|]. intros _.
  apply (hoare_bind _ (working d0 s0)); [apply working_analyse|done|]. intros _.
  apply hoare_the_document. intros document'.
  apply (hoare_bind _ (working d0 s0)); [|done|].
  { apply hoare_on_state. intros d s [H _]. unfold _chunk_text.
    destruct (extracted_text document') as [[|c t]|]; exact H. }
  intros chunks.
  apply hoare_the_document. intros document''.
  apply (hoare_bind _ (working d0 s0)); [|done|intros; apply working_finish].
  apply hoare_on_state. intros d s [(Hf & Hm & Hu) Hd]. simpl in Hd. subst d.
  split; [exact Hf|]. split; [exact Hm|]. by apply untouched_store.
Qed.

Lemma settled_on_error (env : Collaborators) (d0 : Document) (s0 : State) (e : exn) :
  hoare (working d0 s0) (on_error env e) (settled d0 s0).
Proof.
  unfold on_error.
  apply (hoare_bind _ (fun f => settled d0 s0 f /\ status f.1 = ERROR));
    [|by intros f [H _]|].
  { apply hoare_assign. intros d s (Hf & Hm & Hu).
    split; [|reflexivity]. split; [exact Hf|]. split; [by right | exact Hu]. }
  intros _.
  apply (hoare_bind _ (settled d0 s0)); [|done|].
  { apply hoare_assign. intros d s [(Hf & Hm & Hu) He].
    split; [exact Hf|]. split; [by right | exact Hu]. }
  intros _. apply hoare_commit; [done|]. intros d s (Hf & Hm & Hu).
  split; [exact Hf|]. split; [exact Hm|]. by apply untouched_persist.
Qed.

Lemma settled_guarded_pipeline (env : Collaborators) (document_id : Z) (d0 : Document)
    (s0 : State) :
  hoare (working d0 s0) (try_except (pipeline env document_id) (on_error env))
    (settled d0 s0).
Proof.
  apply (hoare_try_except _ (working d0 s0)).
  - apply working_pipeline.
  - intros f (Hf & Hm & Hu). split; [exact Hf|]. split; [by left | exact Hu].
  - intros e. apply settled_on_error.
Qed.

(** a job on the table and the index: the guarded pipeline, then [release] *)
Lemma job_run (env : Collaborators) (document_id : Z) (document : Document) (s : State) :
  rows s !! document_id = Some document ->
  job env document_id s
  = let run := try_except (pipeline env document_id) (on_error env) (document, s) in
    (run.1, (release document_id run.2.2).2).
Proof.
  intros Hrow. unfold job, try_finally, bind at 1, _get_document. rewrite Hrow.
  destruct (try_except (pipeline env document_id) (on_error env) (document, s))
    as [r f]. reflexivity.
Qed.

Lemma job_untouched (env : Collaborators) (document_id : Z) (document : Document)
    (s : State) :
  rows s !! document_id = Some document -> id document = document_id ->
  untouched document s (job env document_id s).2.
Proof.
  intros Hrow Hid. rewrite (job_run _ _ _ _ Hrow). cbn zeta. cbn [snd].
  assert (Hstart : working document s (document, s)).
  { split; [done|]. split; [done|]. subst document_id.
    split; [done|]. split; [exists document; split; [done|]; split; [done | by left]|].
    done. }
  destruct (settled_guarded_pipeline env document_id document s _ Hstart)
    as (_ & _ & H1 & H2 & H3 & H4 & H5 & H6 & H7 & H8 & H9).
  destruct (try_except (pipeline env document_id) (on_error env) (document, s))
    as [r [d s1]]. simpl in *.
  unfold release, modify. cbn [snd].
  destruct (bool_decide (document_id ∈ current_tasks s1)); [|done].
  refine (conj H1 (conj H2 (conj H3 (conj H4 (conj H5 (conj H6 (conj H7 (conj _ H9)))))))).
  simpl. rewrite <- H8, Hid. apply set_eq. intros x.
  rewrite !elem_of_difference. tauto.
Qed.

(** ** The runs of a job, one by one *)

(** a job whose extraction raises *)
Lemma job_extraction_failure (env : Collaborators) (s : State) (document_id : Z)
    (document : Document) (e : exn) :
  commits env ->
  rows s !! document_id = Some document ->
  (forall s0, _extract_text env document s0 = (Raise e, s0)) ->
  is_Exception e = true ->
  exists s',
    job env document_id s = (Return tt, s') /\
    rows s' !! id document = Some (failed e (processing document)) /\
    client s' = client s /\
    trace s' = trace s ++ [Committed (processing document);
                           Committed (failed e (processing document))] /\
    (document_id ∉ current_tasks s').
Proof.
  intros Hcommit Hrow Hext He.
  eassert (Hrun : try_except (pipeline env document_id) (on_error env) (document, s)
                  = (Return tt, _)).
  { enter_pipeline. rewrite (run_on_state_raise _ _ _ _ _ _ (Hext _)).
    rewrite He, on_error_ok by done. reflexivity. }
  destruct (job_found _ _ _ _ _ _ Hrow Hrun) as (s' & Hjob & Hout & Hr & Hc & Htr).
  exists s'. split; [exact Hjob|].
  split; [rewrite Hr; cbn [snd]; rewrite rows_persist; apply lookup_insert_eq|].
  split; [rewrite Hc; reflexivity|].
  split; [close_trace Htr | exact Hout].
Qed.

Lemma unsupported_file_type (env : Collaborators) (document : Document) (s0 : State) :
  lower (file_type document) <> lit ".pdf" ->
  lower (file_type document) <> lit ".docx" ->
  _extract_text env document s0
  = (Raise (mkExn ValueError
              ("Unsupported file type: " +:+ string_of_list_ascii (file_type document))),
     s0).
Proof.
  intros Hpdf Hdocx. unfold _extract_text, is_pdf, is_docx.
  by rewrite !bool_decide_eq_false_2.
Qed.

(** X19.  A job whose document is no longer in the table does nothing: it
    returns without an exception, leaves the table, the index, the queue and
    the trace as they are, and only makes sure that the document is not among
    the current tasks. *)
Theorem job_missing_document (env : Collaborators) (document_id : Z) (s : State) :
  rows s !! document_id = None ->
  exists s',
    job env document_id s = (Return tt, s') /\
    rows s' = rows s /\ client s' = client s /\ trace s' = trace s /\
    processing_queue s' = processing_queue s /\
    (document_id ∉ current_tasks s').
Proof.
  intros Hrow. unfold job, try_finally, bind, _get_document. rewrite Hrow.
  unfold ret.
  destruct (release_spec document_id s) as (s' & -> & Hout & Hr & Hc & Ht & Hq).
  exists s'. done.
Qed.

Lemma job_missing_document_witness :
  exists s',
    job (Example.env Example.working_provider Example.chroma Example.long_text)
      2 Example.start = (Return tt, s') /\
    rows s' = rows Example.start /\ client s' = client Example.start /\
    trace s' = trace Example.start /\
    processing_queue s' = processing_queue Example.start /\
    (2 ∉ current_tasks s').
Proof.
  apply job_missing_document. vm_compute. reflexivity.
Defined.

(** X20.  When text extraction raises an [Exception], every commit
    succeeding, the job ends normally with the document in ERROR, the text
    of the exception as its error message and every other column as it was
    when the job began; PROCESSING and ERROR are all that is committed, and
    the index is not touched. *)
Theorem extraction_failure_is_error (env : Collaborators) (s : State)
    (document_id : Z) (document : Document) (e : exn) :
  commits env ->
  rows s !! document_id = Some document ->
  (forall s0, _extract_text env document s0 = (Raise e, s0)) ->
  is_Exception e = true ->
  exists s',
    job env document_id s = (Return tt, s') /\
    rows s' !! id document
    = Some (set_error_message (Some (exn_msg e)) (set_status ERROR document)) /\
    client s' = client s /\
    shapes (drop (length (trace s)) (trace s')) = [Status PROCESSING; Status ERROR].
Proof.
  intros Hcommit Hrow Hext He.
  destruct (job_extraction_failure env s document_id document e Hcommit Hrow Hext He)
    as (s' & Hjob & Hr & Hc & Htr & _).
  exists s'. split; [exact Hjob|]. split; [exact Hr|]. split; [exact Hc|].
  rewrite Htr, drop_app_length. reflexivity.
Qed.

Lemma extraction_failure_is_error_witness :
  exists s',
    job (Example.env Example.working_provider Example.chroma Example.long_text)
      7 Sample.desk = (Return tt, s') /\
    rows s' !! id Sample.notes
    = Some (set_error_message (Some "Unsupported file type: .TXT"%string)
              (set_status ERROR Sample.notes)) /\
    client s' = client Sample.desk /\
    shapes (drop (length (trace Sample.desk)) (trace s'))
    = [Status PROCESSING; Status ERROR].
Proof.
  apply (extraction_failure_is_error
           (Example.env Example.working_provider Example.chroma Example.long_text)
           Sample.desk 7 Sample.notes
           (mkExn ValueError "Unsupported file type: .TXT")).
  - apply example_commits.
  - vm_compute. reflexivity.
  - intros s0. reflexivity.
  - reflexivity.
Defined.

(** X21.  A document whose file type is neither ".pdf" nor ".docx", in
    whatever case, is never handed to an extractor: with every commit
    succeeding the job ends with the document in ERROR and the message
    "Unsupported file type: " followed by the file type as stored. *)
Theorem unsupported_file_type_is_error (env : Collaborators) (s : State)
    (document_id : Z) (document : Document) :
  commits env ->
  rows s !! document_id = Some document ->
  lower (file_type document) <> lit ".pdf" ->
  lower (file_type document) <> lit ".docx" ->
  exists s' d',
    job env document_id s = (Return tt, s') /\
    rows s' !! id document = Some d' /\
    status d' = ERROR /\
    error_message d'
    = Some ("Unsupported file type: " +:+ string_of_list_ascii (file_type document)) /\
    extracted_text d' = extracted_text document /\
    client s' = client s.
Proof.
  intros Hcommit Hrow Hpdf Hdocx.
  destruct (job_extraction_failure env s document_id document _ Hcommit Hrow
              (fun s0 => unsupported_file_type env document s0 Hpdf Hdocx) eq_refl)
    as (s' & Hjob & Hr & Hc & _).
  exists s'. eexists. split; [exact Hjob|]. split; [exact Hr|]. done.
Qed.

Lemma unsupported_file_type_is_error_witness :
  exists s' d',
    job (Example.env Example.working_provider Example.chroma Example.long_text)
      7 Sample.desk = (Return tt, s') /\
    rows s' !! id Sample.notes = Some d' /\
    status d' = ERROR /\
    error_message d' = Some "Unsupported file type: .TXT"%string /\
    extracted_text d' = extracted_text Sample.notes /\
    client s' = client Sample.desk.
Proof.
  apply (unsupported_file_type_is_error
           (Example.env Example.working_provider Example.chroma Example.long_text)
           Sample.desk 7 Sample.notes).
  - apply example_commits.
  - vm_compute. reflexivity.
  - vm_compute. discriminate.
  - vm_compute. discriminate.
Defined.

Lemma analyze_document_short (p : AIService.Provider) (t filename : str) :
  len t < 100 ->
  AIService.analyze_document p t filename
  = Raise (mkExn ValueError "Document text is too short for meaningful analysis").
Proof.
  intros H. unfold AIService.analyze_document.
  pose proof (strip_len t).
  assert ((len (strip t) <? 100) = true) as -> by (apply Z.ltb_lt; lia).
  by rewrite orb_true_r.
Qed.

Lemma store_embeddings_success (env : Collaborators) (document : Document)
    (chunks : list TextChunk) (s : State) :
  index_works env -> chunks <> [] ->
  exists c' new,
    _store_embeddings env document chunks s
    = (Return true,
       log (Indexed (project_id document) (id document) (length chunks))
         (set_client c' s)) /\
    default [] (c' !! project_id document)
    = default [] (client s !! project_id document) ++ new /\
    Forall (fun e => VectorService.about (id document) e = true) new /\
    map VectorService.entry_document new = map text chunks /\
    map VectorService.entry_id new
    = map (fun j => (id document, j)) (seq 0 (length chunks)).
Proof.
  intros Hok Hne.
  destruct (store_embeddings_works env document chunks s Hok Hne) as [c0 H0].
  destruct (store_embeddings_spec env document chunks s)
    as (o & c' & new & H & _ & Hown & Habout & Ho).
  rewrite H0 in H. destruct o as [[|]|e]; try discriminate.
  destruct Ho as (_ & H1 & H2). exists c', new. by rewrite H0, H.
Qed.

Lemma mark_page_count (a : Dict) (d : Document) :
  page_count (mark_as_analyzed a d) = page_count d.
Proof.
  unfold mark_as_analyzed, copy_key.
  destruct (dict_get "central_thesis" a), (dict_get "key_concepts" a),
    (dict_get "argumentative_structure" a), (dict_get "cited_sources" a); done.
Qed.

Lemma mark_project_id (a : Dict) (d : Document) :
  project_id (mark_as_analyzed a d) = project_id d.
Proof. apply mark_as_analyzed_frame. Qed.

(** X22.  A document whose extracted text has fewer than 100 characters
    always ends in ERROR, every commit succeeding: semantic analysis refuses
    the text without calling the language model, the chunker returns no
    chunk, and the job fails with "Failed to store embeddings" (with
    "No extracted text available" when the text is empty).  The text is kept
    in the row, the analysis result and the index are as they were. *)
Theorem short_document_is_error (env : Collaborators) (s : State)
    (document_id : Z) (document : Document) (t : str) (pages : Z) :
  commits env ->
  rows s !! document_id = Some document ->
  (forall s0, _extract_text env document s0 = (Return (t, pages), s0)) ->
  len t < 100 ->
  exists s' d',
    job env document_id s = (Return tt, s') /\
    rows s' !! id document = Some d' /\
    status d' = ERROR /\
    error_message d'
    = Some (if truthy t then "Failed to store embeddings"
            else "No extracted text available")%string /\
    extracted_text d' = Some t /\
    analysis_result d' = analysis_result document /\
    client s' = client s /\
    shapes (drop (length (trace s)) (trace s'))
    = [Status PROCESSING; Status PROCESSED; Status ERROR].
Proof.
  intros Hcommit Hrow Hext Hlen.
  pose proof (analyze_document_short (provider env) t (original_filename document) Hlen)
    as Hana.
  destruct t as [|ch t'].
  - eassert (Hrun : try_except (pipeline env document_id) (on_error env) (document, s)
                    = (Return tt, _)).
    { enter_pipeline. rewrite (run_on_state_ok _ _ _ _ _ _ (Hext _)).
      after_extraction.
      erewrite run_step; [|by eapply analyse_failed].
      rewrite run_the_document.
      erewrite run_on_state_raise; [|by apply chunk_text_stage_empty].
      cbn [is_Exception exn_class_of]. rewrite on_error_ok by done. reflexivity. }
    destruct (job_found _ _ _ _ _ _ Hrow Hrun) as (s' & Hjob & _ & Hr & Hc & Htr).
    exists s'. eexists. split; [exact Hjob|].
    split; [rewrite Hr; cbn [snd]; rewrite rows_persist; apply lookup_insert_eq|].
    split; [reflexivity|]. split; [reflexivity|]. split; [reflexivity|].
    split; [reflexivity|]. split; [rewrite Hc; reflexivity|].
    assert (Et : trace s' = trace s ++ [Committed (processing document);
                   Committed (processed [] pages document);
                   Committed (failed (mkExn ValueError "No extracted text available")
                                (processed [] pages document))])
      by close_trace Htr.
    rewrite Et, drop_app_length. reflexivity.
  - set (t := ch :: t') in *.
    assert (Hchunk : chunk_text text_chunker (PStr t) (id document) (filename document)
                     = Return []).
    { apply chunk_text_short. left. exact Hlen. }
    eassert (Hrun : try_except (pipeline env document_id) (on_error env) (document, s)
                    = (Return tt, _)).
    { enter_pipeline. rewrite (run_on_state_ok _ _ _ _ _ _ (Hext _)).
      after_extraction.
      erewrite run_step; [|by eapply analyse_failed].
      rewrite run_the_document.
      erewrite run_on_state_ok;
        [|apply (chunk_text_stage _ t); [reflexivity | done | exact Hchunk]].
      rewrite run_the_document.
      erewrite run_on_state_ok; [|reflexivity].
      unfold finish, raise. cbn [is_Exception exn_class_of].
      rewrite on_error_ok by done. reflexivity. }
    destruct (job_found _ _ _ _ _ _ Hrow Hrun) as (s' & Hjob & _ & Hr & Hc & Htr).
    exists s'. eexists. split; [exact Hjob|].
    split; [rewrite Hr; cbn [snd]; rewrite rows_persist; apply lookup_insert_eq|].
    split; [reflexivity|]. split; [reflexivity|]. split; [reflexivity|].
    split; [reflexivity|]. split; [rewrite Hc; reflexivity|].
    assert (Et : trace s' = trace s ++ [Committed (processing document);
                   Committed (processed t pages document);
                   Committed (failed (mkExn RuntimeError "Failed to store embeddings")
                                (processed t pages document))])
      by close_trace Htr.
    rewrite Et, drop_app_length. reflexivity.
Qed.

Lemma short_document_is_error_witness :
  exists s' d',
    job (Example.env Example.working_provider Example.chroma Example.thin_text)
      1 Example.start = (Return tt, s') /\
    rows s' !! id Example.doc = Some d' /\
    status d' = ERROR /\
    error_message d' = Some "Failed to store embeddings"%string /\
    extracted_text d' = Some Example.thin_text /\
    analysis_result d' = analysis_result Example.doc /\
    client s' = client Example.start /\
    shapes (drop (length (trace Example.start)) (trace s'))
    = [Status PROCESSING; Status PROCESSED; Status ERROR].
Proof.
  apply (short_document_is_error
           (Example.env Example.working_provider Example.chroma Example.thin_text)
           Example.start 1 Example.doc Example.thin_text 1).
  - apply example_commits.
  - vm_compute. reflexivity.
  - apply example_extracts.
  - vm_compute. reflexivity.
Defined.

(** X23.  When a job goes through for a document that has no entry in the
    collection of its project yet, every commit succeeding and the index
    taking the entries, the collection gains exactly one entry for each chunk
    that [chunk_text] returns for the extracted text: in the order of the
    chunks, with the texts of the chunks, numbered from 0 under the
    document's id and tagged with that id, behind the entries that were
    there; and the document ends ANALYZED with the text and the page count
    extracted. *)
Theorem job_indexes_every_chunk (env : Collaborators) (s : State)
    (document_id : Z) (document : Document) (t : str) (pages : Z)
    (chunks : list TextChunk) :
  commits env ->
  index_works env ->
  rows s !! document_id = Some document ->
  (forall s0, _extract_text env document s0 = (Return (t, pages), s0)) ->
  ordinary_outcome
    (AIService.analyze_document (provider env) t (original_filename document)) ->
  chunk_text text_chunker (PStr t) (id document) (filename document) = Return chunks ->
  chunks <> [] ->
  Forall (fun e => (VectorService.entry_id e).1 <> id document)
    (default [] (client s !! project_id document)) ->
  exists s' d' new,
    job env document_id s = (Return tt, s') /\
    rows s' !! id document = Some d' /\
    status d' = ANALYZED /\
    extracted_text d' = Some t /\
    page_count d' = Some pages /\
    default [] (client s' !! project_id document)
    = default [] (client s !! project_id document) ++ new /\
    map VectorService.entry_document new = map text chunks /\
    map VectorService.entry_id new
    = map (fun j => (id document, j)) (seq 0 (length chunks)) /\
    Forall (fun e => VectorService.about (id document) e = true) new.
Proof.
  intros Hcommit Hindex Hrow Hext Hana Hchunk Hne _.
  assert (Ht : t <> []).
  { intros ->. rewrite chunk_text_empty in Hchunk. congruence. }
  destruct (AIService.analyze_document (provider env) t (original_filename document))
    as [a|e] eqn:Ea; simpl in Hana.
  - destruct (store_embeddings_success env
                (mark_as_analyzed a (processed t pages document)) chunks
                (persist (mark_as_analyzed a (processed t pages document))
                   (persist (processed t pages document)
                      (persist (processing document) s))) Hindex Hne)
      as (c' & new & Hstore & Hown & Habout & Htexts & Hids).
    rewrite mark_id, mark_project_id in *.
    eassert (Hrun : try_except (pipeline env document_id) (on_error env) (document, s)
                    = (Return tt, _)).
    { enter_pipeline. rewrite (run_on_state_ok _ _ _ _ _ _ (Hext _)).
      after_extraction.
      erewrite run_step; [|by apply (analyse_done _ _ _ _ a)].
      rewrite run_the_document.
      erewrite run_on_state_ok;
        [|apply (chunk_text_stage _ t);
          [rewrite mark_extracted_text; reflexivity | exact Ht
          | rewrite mark_id, mark_filename; exact Hchunk]].
      rewrite run_the_document.
      erewrite run_on_state_ok; [|exact Hstore].
      rewrite finish_already by apply mark_status. reflexivity. }
    destruct (job_found _ _ _ _ _ _ Hrow Hrun) as (s' & Hjob & _ & Hr & Hc & _).
    exists s', (mark_as_analyzed a (processed t pages document)), new.
    split; [exact Hjob|].
    split; [rewrite Hr; cbn [snd]; cbn [rows log set_client]; rewrite rows_persist;
            change (id document) with (id (processed t pages document));
            rewrite <- (mark_id a); apply lookup_insert_eq|].
    split; [apply mark_status|].
    split; [by rewrite mark_extracted_text|].
    split; [by rewrite mark_page_count|].
    split; [rewrite Hc; exact Hown|]. done.
  - destruct (store_embeddings_success env (processed t pages document) chunks
                (persist (processed t pages document)
                   (persist (processing document) s)) Hindex Hne)
      as (c' & new & Hstore & Hown & Habout & Htexts & Hids).
    eassert (Hrun : try_except (pipeline env document_id) (on_error env) (document, s)
                    = (Return tt, _)).
    { enter_pipeline. rewrite (run_on_state_ok _ _ _ _ _ _ (Hext _)).
      after_extraction.
      erewrite run_step; [|by apply (analyse_failed _ _ _ _ e)].
      rewrite run_the_document.
      erewrite run_on_state_ok;
        [|apply (chunk_text_stage _ t); [reflexivity | exact Ht | exact Hchunk]].
      rewrite run_the_document.
      erewrite run_on_state_ok; [|exact Hstore].
      rewrite finish_fresh by done. reflexivity. }
    destruct (job_found _ _ _ _ _ _ Hrow Hrun) as (s' & Hjob & _ & Hr & Hc & _).
    exists s', (analyzed_now env (processed t pages document)), new.
    split; [exact Hjob|].
    split; [rewrite Hr; cbn [snd]; rewrite rows_persist; apply lookup_insert_eq|].
    split; [reflexivity|]. split; [reflexivity|]. split; [reflexivity|].
    split; [rewrite Hc; exact Hown|]. done.
Qed.

Lemma job_indexes_every_chunk_witness :
  exists chunks s' d' new,
    chunk_text text_chunker (PStr Example.long_text) 1 (lit "a.pdf") = Return chunks /\
    job (Example.env Example.working_provider Example.chroma Example.long_text)
      1 Example.start = (Return tt, s') /\
    rows s' !! id Example.doc = Some d' /\
    status d' = ANALYZED /\
    extracted_text d' = Some Example.long_text /\
    page_count d' = Some 1 /\
    default [] (client s' !! project_id Example.doc)
    = default [] (client Example.start !! project_id Example.doc) ++ new /\
    map VectorService.entry_document new = map text chunks /\
    map VectorService.entry_id new
    = map (fun j => (id Example.doc, j)) (seq 0 (length chunks)) /\
    Forall (fun e => VectorService.about (id Example.doc) e = true) new.
Proof.
  eexists. 
  assert (Hchunk : chunk_text text_chunker (PStr Example.long_text) 1 (lit "a.pdf")
                   = Return _) by (vm_compute; reflexivity).
  edestruct (job_indexes_every_chunk
               (Example.env Example.working_provider Example.chroma Example.long_text)
               Example.start 1 Example.doc Example.long_text 1)
    as (s' & d' & new & H);
    [apply example_commits | intros op; reflexivity | vm_compute; reflexivity
    | apply example_extracts | vm_compute; exact I | exact Hchunk | discriminate
    | vm_compute; constructor |].
  exists s', d', new. split; [exact Hchunk | exact H].
Defined.

(** X24.  Whatever the collaborators do, a job for a document stays within
    its own row and its own entries: the rows of the other documents, the
    collections of the other projects and the entries of the other documents
    of its project are what they were, and so are the queue, the scheduled
    tasks and the running flag; the trace only grows; and the document is
    taken out of the current tasks. *)
Theorem job_touches_only_its_document (env : Collaborators) (document_id : Z)
    (document : Document) (s : State) :
  rows s !! document_id = Some document ->
  id document = document_id ->
  let s' := (job env document_id s).2 in
  (forall k, k <> document_id -> rows s' !! k = rows s !! k) /\
  (forall p, p <> project_id document -> client s' !! p = client s !! p) /\
  (forall d2, d2 <> document_id ->
     entries_of (client s') (project_id document) d2
     = entries_of (client s) (project_id document) d2) /\
  processing_queue s' = processing_queue s /\
  scheduled s' = scheduled s /\
  is_running s' = is_running s /\
  current_tasks s' = current_tasks s ∖ {[document_id]} /\
  trace s `prefix_of` trace s'.
Proof.
  intros Hrow Hid s'.
  destruct (job_untouched env document_id document s Hrow Hid)
    as (H1 & _ & H3 & H4 & H5 & H6 & H7 & H8 & H9).
  fold s' in H1, H3, H4, H5, H6, H7, H8, H9. rewrite Hid in *.
  refine (conj H1 (conj H3 (conj H4 (conj H5 (conj H6 (conj H7 (conj _ H9))))))).
  rewrite <- H8. apply set_eq. intros x. rewrite elem_of_difference, elem_of_singleton.
  split; [|tauto]. intros Hx. split; [exact Hx|]. intros ->.
  by apply (job_releases env document_id s).
Qed.

Lemma job_touches_only_its_document_witness :
  let s' := (job (Example.env Example.working_provider Example.chroma Example.long_text)
               1 Example.start).2 in
  (forall k, k <> 1 -> rows s' !! k = rows Example.start !! k) /\
  (forall p, p <> project_id Example.doc -> client s' !! p = client Example.start !! p) /\
  (forall d2, d2 <> 1 ->
     entries_of (client s') (project_id Example.doc) d2
     = entries_of (client Example.start) (project_id Example.doc) d2) /\
  processing_queue s' = processing_queue Example.start /\
  scheduled s' = scheduled Example.start /\
  is_running s' = is_running Example.start /\
  current_tasks s' = current_tasks Example.start ∖ {[1]} /\
  trace Example.start `prefix_of` trace s'.
Proof.
  apply (job_touches_only_its_document
           (Example.env Example.working_provider Example.chroma Example.long_text)
           1 Example.doc Example.start).
  - vm_compute. reflexivity.
  - reflexivity.
Defined.

(** X25.  Whatever the collaborators do, the row of the document is still
    there after the job, with the id, the file names, the path, the file
    type and the project it had; and unless the row is in ERROR its error
    message is the one it had before the job: a run that succeeds does not
    clear the message that an earlier failure left. *)
Theorem job_keeps_file_and_message (env : Collaborators) (document_id : Z)
    (document : Document) (s : State) :
  rows s !! document_id = Some document ->
  id document = document_id ->
  exists r,
    rows (job env document_id s).2 !! document_id = Some r /\
    same_file document r /\
    (status r <> ERROR -> error_message r = error_message document).
Proof.
  intros Hrow Hid.
  destruct (job_untouched env document_id document s Hrow Hid)
    as (_ & (r & Hr & Hfile & Hmsg) & _).
  exists r. rewrite Hid in Hr. split; [exact Hr|]. split; [exact Hfile|].
  intros Hs. by destruct Hmsg.
Qed.

Lemma job_keeps_file_and_message_witness :
  exists r,
    rows (job (Example.env Example.working_provider Example.chroma Example.long_text)
            1 Example.start).2 !! 1 = Some r /\
    same_file Example.doc r /\
    (status r <> ERROR -> error_message r = error_message Example.doc).
Proof.
  apply (job_keeps_file_and_message
           (Example.env Example.working_provider Example.chroma Example.long_text)
           1 Example.doc Example.start).
  - vm_compute. reflexivity.
  - reflexivity.
Defined.


(** X26.  When the database refuses every commit, the job does not end
    normally: the exception of the commit leaves the [try] block, the
    handler sets ERROR and fails at its own commit, and the job raises that
    exception.  Nothing reaches the table, the index or the trace; the
    document is taken out of the current tasks all the same. *)
Theorem commit_failure_escapes (env : Collaborators) (document_id : Z)
    (document : Document) (s : State) (e : exn) :
  (forall tr, commit_fault env tr = Some e) ->
  rows s !! document_id = Some document ->
  exists s',
    job env document_id s = (Raise e, s') /\
    rows s' = rows s /\ client s' = client s /\ trace s' = trace s /\
    (document_id ∉ current_tasks s').
Proof.
  intros Hfault Hrow.
  assert (Hrun : exists d, try_except (pipeline env document_id) (on_error env)
                             (document, s) = (Raise e, (d, s))).
  { unfold try_except, pipeline. rewrite run_assign.
    unfold bind at 1, db_commit. cbn [fst snd]. rewrite Hfault.
    destruct (is_Exception e); [|by eexists].
    unfold on_error. rewrite !run_assign. unfold db_commit. cbn [fst snd].
    rewrite Hfault. by eexists. }
  destruct Hrun as [d Hrun].
  destruct (job_found _ _ _ _ _ _ Hrow Hrun) as (s' & Hjob & Hout & Hr & Hc & Htr).
  exists s'. done.
Qed.

Lemma commit_failure_escapes_witness :
  exists s',
    job Sample.locked 1 Example.start
    = (Raise (mkExn RuntimeError "database is locked"), s') /\
    rows s' = rows Example.start /\ client s' = client Example.start /\
    trace s' = trace Example.start /\
    (1 ∉ current_tasks s').
Proof.
  apply (commit_failure_escapes Sample.locked 1 Example.doc Example.start).
  - intros tr. reflexivity.
  - vm_compute. reflexivity.
Defined.
(** ** The queue *)

Import DispatchSpec.

Lemma turns_step (n : nat) (s : State) :
  turns (S n) s = turns n (_processing_loop_turn s).
Proof. unfold turns. apply Nat.iter_succ_r. Qed.

Lemma fresh_spec (ids : list Z) :
  forall tasks,
    NoDup (fresh tasks ids) /\
    (forall i, i ∈ fresh tasks ids -> (i ∉ tasks) /\ i ∈ ids).
Proof.
  induction ids as [|i ids IH]; intros tasks; simpl.
  - split; [constructor|]. intros i Hi. by apply elem_of_nil in Hi.
  - destruct (bool_decide (i ∈ tasks)) eqn:E.
    + destruct (IH tasks) as [H1 H2]. split; [exact H1|].
      intros j Hj. destruct (H2 j Hj). split; [done|]. by right.
    + apply bool_decide_eq_false in E.
      destruct (IH ({[i]} ∪ tasks)) as [H1 H2]. split.
      * constructor; [|exact H1]. intros Hi. destruct (H2 i Hi) as [Hn _].
        apply Hn, elem_of_union_l, elem_of_singleton. reflexivity.
      * intros j Hj. apply elem_of_cons in Hj as [->|Hj]; [split; [done | by left]|].
        destruct (H2 j Hj) as [Hn Hin]. split; [|by right].
        intros Ht. apply Hn, elem_of_union_r, Ht.
Qed.

Lemma turns_drain (queue : list Job) :
  forall s,
    is_running s = true -> processing_queue s = queue ->
    turns (length queue) s
    = set_scheduled
        (scheduled s ++ fresh (current_tasks s) (map job_document_id queue))
        (set_current_tasks
           (list_to_set (map job_document_id queue) ∪ current_tasks s)
           (set_processing_queue [] s)).
Proof.
  induction queue as [|task rest IH]; intros s Hrun Hq.
  - unfold turns. destruct s; simpl in *. subst.
    unfold set_scheduled, set_current_tasks, set_processing_queue. simpl.
    rewrite app_nil_r. f_equal. apply set_eq. intros x.
    rewrite elem_of_union, elem_of_empty. tauto.
  - cbn [length]. rewrite turns_step. cbn [map fresh].
    destruct (bool_decide (job_document_id task ∈ current_tasks s)) eqn:E.
    + apply bool_decide_eq_true in E.
      rewrite (duplicate_job_discarded s task rest Hrun Hq E).
      rewrite IH; [|by destruct s | by destruct s].
      destruct s; simpl in *.
      unfold set_scheduled, set_current_tasks, set_processing_queue. simpl.
      f_equal. apply set_eq. intros x.
      rewrite !elem_of_union, elem_of_singleton. split; [tauto|].
      intros [[->|H]|H]; tauto.
    + apply bool_decide_eq_false in E.
      rewrite (fresh_job_started s task rest Hrun Hq E).
      rewrite IH; [|by destruct s | by destruct s].
      destruct s; simpl in *.
      unfold set_scheduled, set_current_tasks, set_processing_queue. simpl.
      rewrite <- app_assoc. f_equal. apply set_eq. intros x.
      rewrite !elem_of_union. tauto.
Qed.

(** X27.  A running processor that takes as many turns as its queue has
    jobs empties the queue and schedules the documents strictly in the
    order of the queue, whatever their priorities: each document that is not
    among the current tasks is scheduled once, at its first job, and a
    document that is among them is not scheduled at all.  Every document of
    the queue is among the current tasks afterwards; the table, the index
    and the trace are not touched. *)
Theorem loop_drains_queue_in_order (s : State) :
  is_running s = true ->
  let ids := map job_document_id (processing_queue s) in
  let s' := turns (length (processing_queue s)) s in
  processing_queue s' = [] /\
  scheduled s' = scheduled s ++ fresh (current_tasks s) ids /\
  NoDup (fresh (current_tasks s) ids) /\
  (forall i, i ∈ fresh (current_tasks s) ids -> (i ∉ current_tasks s) /\ i ∈ ids) /\
  current_tasks s' = list_to_set ids ∪ current_tasks s /\
  rows s' = rows s /\ client s' = client s /\ trace s' = trace s.
Proof.
  intros Hrun ids s'. unfold s'. rewrite (turns_drain _ s Hrun eq_refl). fold ids.
  destruct (fresh_spec ids (current_tasks s)) as [H1 H2].
  split; [reflexivity|]. split; [reflexivity|]. split; [exact H1|].
  split; [exact H2|]. done.
Qed.

Lemma loop_drains_queue_in_order_witness :
  let s := set_processing_queue [mkJob 1 1 0; mkJob 2 9 0; mkJob 1 5 0] Example.start in
  let ids := map job_document_id (processing_queue s) in
  let s' := turns (length (processing_queue s)) s in
  processing_queue s' = [] /\
  scheduled s' = scheduled s ++ fresh (current_tasks s) ids /\
  NoDup (fresh (current_tasks s) ids) /\
  (forall i, i ∈ fresh (current_tasks s) ids -> (i ∉ current_tasks s) /\ i ∈ ids) /\
  current_tasks s' = list_to_set ids ∪ current_tasks s /\
  rows s' = rows s /\ client s' = client s /\ trace s' = trace s.
Proof.
  apply (loop_drains_queue_in_order
           (set_processing_queue [mkJob 1 1 0; mkJob 2 9 0; mkJob 1 5 0] Example.start)).
  reflexivity.
Defined.

(** ** Health, reprocessing and whole projects *)

Lemma get_collection_stats_spec (b : VectorService.Backend) (count_fault : option exn)
    (project : Z) (c : VectorService.Client) :
  (forall op e, VectorService.fault b op = Some e -> is_Exception e = true) ->
  (forall e, count_fault = Some e -> is_Exception e = true) ->
  exists count c',
    VectorService.get_collection_stats b count_fault project c
    = (Return [("total_chunks"%string, VInt count);
               ("collection_name"%string, VStr (VectorService.collection_name project))],
       c') /\
    same_entries c c' /\
    (count = Z.of_nat (length (default [] (c !! project))) \/ count = 0).
Proof.
  intros Hord Hcount. unfold VectorService.get_collection_stats, try_except.
  unfold bind at 1.
  pose proof (get_or_create_collection_entries b project c) as Hsame.
  destruct (get_or_create_collection_spec b project c) as (o & c1 & E & _ & _ & Ho).
  rewrite E in *. simpl in Hsame.
  destruct o as [collection|e].
  2: { assert (He : is_Exception e = true).
       { revert E. unfold VectorService.get_or_create_collection.
         destruct (VectorService.fault b VectorService.GetCollection) eqn:E1,
           (VectorService.fault b VectorService.CreateCollection) eqn:E2,
           (c !! project); intros [= <- <-]; eauto. }
       rewrite He. eexists _, _. split; [reflexivity|]. split; [exact Hsame | by right]. }
  destruct Ho as [-> _]. unfold bind, raise, ret.
  destruct count_fault as [e|].
  { rewrite (Hcount e eq_refl). eexists _, _. split; [reflexivity|].
    split; [exact Hsame | by right]. }
  eexists _, _. split; [reflexivity|]. split; [exact Hsame | by left].
Qed.

(** X28.  As long as the vector database raises nothing but [Exception]s,
    [health_check] answers with the report of its [try] block and says in it
    that the vector database is accessible, even when every call to the
    database failed: the statistics it asks for are never an empty mapping.
    The status is "healthy" exactly when the processor is running.  The
    check writes no entry, though it may create the collection of project
    1. *)
Theorem health_check_says_accessible (env : Collaborators) (count_fault : option exn)
    (s : State) :
  (forall op e, VectorService.fault (backend env) op = Some e -> is_Exception e = true) ->
  (forall e, count_fault = Some e -> is_Exception e = true) ->
  exists c',
    health_check env count_fault s
    = (Return (Report (if is_running s then lit "healthy" else lit "stopped")
                 (Z.of_nat (length (processing_queue s)))
                 (Z.of_nat (size (current_tasks s)))
                 true
                 (isoformat env (now env))),
       set_client c' s) /\
    same_entries (client s) c'.
Proof.
  intros Hord Hcount. unfold health_check, try_except, bind at 1, on_client, zoom.
  destruct (get_collection_stats_spec (backend env) count_fault 1 (client s) Hord Hcount)
    as (count & c' & -> & Hsame & _).
  exists c'. split; [|exact Hsame]. destruct s; reflexivity.
Qed.

Lemma health_check_says_accessible_witness :
  exists c',
    health_check (Example.env Example.working_provider Sample.dead_chroma
                    Example.long_text) None Example.start
    = (Return (Report (if is_running Example.start then lit "healthy" else lit "stopped")
                 (Z.of_nat (length (processing_queue Example.start)))
                 (Z.of_nat (size (current_tasks Example.start)))
                 true
                 (isoformat (Example.env Example.working_provider Sample.dead_chroma
                               Example.long_text)
                    (now (Example.env Example.working_provider Sample.dead_chroma
                            Example.long_text)))),
       set_client c' Example.start) /\
    same_entries (client Example.start) c'.
Proof.
  apply health_check_says_accessible.
  - intros op e [= <-]. reflexivity.
  - intros e. discriminate.
Defined.

Lemma delete_document_embeddings_total (b : VectorService.Backend) (project document : Z)
    (c : VectorService.Client) :
  (forall op e, VectorService.fault b op = Some e -> is_Exception e = true) ->
  exists r, (VectorService.delete_document_embeddings b project document c).1 = Return r.
Proof.
  intros Hord. unfold VectorService.delete_document_embeddings, try_except,
    bind, VectorService.get_or_create_collection, VectorService.collection_delete,
    VectorService.guard, bind, raise, ret, modify.
  destruct (VectorService.fault b VectorService.GetCollection) eqn:E1;
  destruct (VectorService.fault b VectorService.CreateCollection) eqn:E2;
  destruct (VectorService.fault b VectorService.Delete) eqn:E3;
  destruct (c !! project) eqn:E5; simpl;
  repeat match goal with
         | H : VectorService.fault b _ = Some ?e |- _ =>
             rewrite (Hord _ _ H); clear H
         end; simpl; eauto.
Qed.

(** X29.  The block that [reprocess_document] is written to run, every
    commit succeeding and the vector database raising nothing but
    [Exception]s: for a document that is in the table it returns normally,
    commits the row reset to UPLOADED without text, page count, analysis
    date and error message, and puts one job of priority 1 for the document
    at the end of the queue.  It does so whether or not the deletion of the
    old entries succeeded: the index is left as
    [delete_document_embeddings] left it, and its answer is not looked
    at. *)
Theorem reprocess_block_resets_and_enqueues (env : Collaborators) (document_id : Z)
    (document : Document) (s : State) :
  commits env ->
  (forall op e, VectorService.fault (backend env) op = Some e -> is_Exception e = true) ->
  rows s !! document_id = Some document ->
  exists s',
    reprocess env document_id s = (Return tt, s') /\
    rows s' = <[id document := reset document]> (rows s) /\
    processing_queue s'
    = processing_queue s ++ [mkJob document_id 1 (now env)] /\
    client s'
    = (VectorService.delete_document_embeddings (backend env) (project_id document)
         document_id (client s)).2 /\
    trace s' = trace s ++ [Committed (reset document)].
Proof.
  intros Hcommit Hord Hrow.
  unfold reprocess, try_except, bind at 1, _get_document. rewrite Hrow.
  unfold bind at 1, on_client, zoom.
  destruct (delete_document_embeddings_total (backend env) (project_id document)
              document_id (client s) Hord) as [r Hr].
  destruct (VectorService.delete_document_embeddings (backend env) (project_id document)
              document_id (client s)) as [o c'].
  simpl in Hr. subst o.
  rewrite !run_assign, run_commit by done.
  eexists. split; [reflexivity|]. destruct s; done.
Qed.

Lemma reprocess_block_resets_and_enqueues_witness :
  exists s',
    reprocess (Example.env Example.working_provider Example.broken_chroma
                 Example.long_text) 1 Example.indexed = (Return tt, s') /\
    rows s' = <[id Example.analyzed_doc := reset Example.analyzed_doc]>
                (rows Example.indexed) /\
    processing_queue s'
    = processing_queue Example.indexed ++
      [mkJob 1 1 (now (Example.env Example.working_provider Example.broken_chroma
                         Example.long_text))] /\
    client s'
    = (VectorService.delete_document_embeddings
         (backend (Example.env Example.working_provider Example.broken_chroma
                     Example.long_text))
         (project_id Example.analyzed_doc) 1 (client Example.indexed)).2 /\
    trace s' = trace Example.indexed ++ [Committed (reset Example.analyzed_doc)].
Proof.
  apply (reprocess_block_resets_and_enqueues
           (Example.env Example.working_provider Example.broken_chroma Example.long_text)
           1 Example.analyzed_doc Example.indexed).
  - apply example_commits.
  - intros [] e; intros [= <-]; reflexivity.
  - vm_compute. reflexivity.
Defined.




